(** * The DSA signature provider: providers/implementations/signature/dsa.c

    A shallow embedding of the provider's context structure and of the
    functions registered in [ossl_dsa_signature_functions], followed by
    the properties of the signature-context engine.

    Conventions of the embedding.
    - A pointer is an address ([positive]); a pointer that may be NULL is
      an [option].  Contexts live in a heap indexed by their address, since
      the field [aid] points into the [aid_buf] of a context.
    - The key ([DSA *]) and the digest ([EVP_MD *]) are shared objects: they
      are handles with a reference count kept in [Resources].
    - The digest stream ([EVP_MD_CTX *]) is owned by exactly one context; it
      is kept by value as the history of the calls made on it, and
      [live_mdctx] counts the streams that are allocated.
    - The library functions the file calls are the fields of [Externals];
      the calls that may fail for reasons outside the program (allocation,
      taking a reference, the provider being stopped) read their fate from
      an [Oracle] given to each call.
    - A body that takes [PROV_DSA_CTX *] is a function from the record (and
      the resources) to the new record; [invoke] applies it to the context
      stored at an address.  The address of a context is never NULL there,
      so the guards [pdsactx == NULL] never fire and are left out; a call on
      an address that holds no context is undefined ([None]). *)

From Stdlib Require Import ZArith List String Bool Lia.
From Stdlib.Strings Require Import Byte.
From stdpp Require Import base option gmap strings.

Local Open Scope Z_scope.

(** ** Data model *)

Abbreviation ptr := positive (only parsing).

(** The values [operation] takes: 0 after [OPENSSL_zalloc], then one of the
    two constants passed by [dsa_sign_init] / [dsa_verify_init] and their
    digest variants. *)
Inductive operation_t :=
| EVP_PKEY_OP_UNDEFINED
| EVP_PKEY_OP_SIGN
| EVP_PKEY_OP_VERIFY.

Definition operation_eqb (a b : operation_t) : bool :=
  match a, b with
  | EVP_PKEY_OP_UNDEFINED, EVP_PKEY_OP_UNDEFINED
  | EVP_PKEY_OP_SIGN, EVP_PKEY_OP_SIGN
  | EVP_PKEY_OP_VERIFY, EVP_PKEY_OP_VERIFY => true
  | _, _ => false
  end.

(** Reasons pushed on the error queue by [ERR_raise] / [ERR_raise_data]. *)
Inductive reason :=
| ERR_R_MALLOC_FAILURE
| PROV_R_INVALID_DIGEST
| PROV_R_DIGEST_NOT_ALLOWED
| PROV_R_INVALID_KEY_LENGTH.

(** One element of an [OSSL_PARAM] array. *)
Record OSSL_PARAM := mkparam {
  key : string;
  data_type : Z;
  data : list byte;
  return_size : nat
}.

(** A digest stream is the history of the calls made on it, newest first. *)
Inductive md_event :=
| MD_init (type : option ptr)
| MD_update (data : list byte)
| MD_final
| MD_get_params (params : option (list OSSL_PARAM))
| MD_set_params (params : option (list OSSL_PARAM)).

Definition EVP_MD_CTX := list md_event.

Record PROV_DSA_CTX := mkctx {
  libctx : Z;
  propq : option string;
  dsa : option ptr;
  flag_allow_md : bool;
  mdname : string;
  aid_buf : list byte;
  (* [aid]: address of the context whose [aid_buf] it points into, and the
     offset in that buffer *)
  aid : option (ptr * nat);
  aid_len : nat;
  md : option ptr;
  mdctx : option EVP_MD_CTX;
  operation : operation_t
}.

Definition set_libctx v c :=
  mkctx v (propq c) (dsa c) (flag_allow_md c) (mdname c) (aid_buf c) (aid c)
        (aid_len c) (md c) (mdctx c) (operation c).
Definition set_propq v c :=
  mkctx (libctx c) v (dsa c) (flag_allow_md c) (mdname c) (aid_buf c) (aid c)
        (aid_len c) (md c) (mdctx c) (operation c).
Definition set_dsa v c :=
  mkctx (libctx c) (propq c) v (flag_allow_md c) (mdname c) (aid_buf c) (aid c)
        (aid_len c) (md c) (mdctx c) (operation c).
Definition set_flag_allow_md v c :=
  mkctx (libctx c) (propq c) (dsa c) v (mdname c) (aid_buf c) (aid c)
        (aid_len c) (md c) (mdctx c) (operation c).
Definition set_mdname v c :=
  mkctx (libctx c) (propq c) (dsa c) (flag_allow_md c) v (aid_buf c) (aid c)
        (aid_len c) (md c) (mdctx c) (operation c).
Definition set_aid_buf v c :=
  mkctx (libctx c) (propq c) (dsa c) (flag_allow_md c) (mdname c) v (aid c)
        (aid_len c) (md c) (mdctx c) (operation c).
Definition set_aid v c :=
  mkctx (libctx c) (propq c) (dsa c) (flag_allow_md c) (mdname c) (aid_buf c) v
        (aid_len c) (md c) (mdctx c) (operation c).
Definition set_aid_len v c :=
  mkctx (libctx c) (propq c) (dsa c) (flag_allow_md c) (mdname c) (aid_buf c)
        (aid c) v (md c) (mdctx c) (operation c).
Definition set_md v c :=
  mkctx (libctx c) (propq c) (dsa c) (flag_allow_md c) (mdname c) (aid_buf c)
        (aid c) (aid_len c) v (mdctx c) (operation c).
Definition set_mdctx v c :=
  mkctx (libctx c) (propq c) (dsa c) (flag_allow_md c) (mdname c) (aid_buf c)
        (aid c) (aid_len c) (md c) v (operation c).
Definition set_operation v c :=
  mkctx (libctx c) (propq c) (dsa c) (flag_allow_md c) (mdname c) (aid_buf c)
        (aid c) (aid_len c) (md c) (mdctx c) v.

(** ** Resources shared between contexts *)

Record Resources := mkres {
  dsa_refs : gmap positive positive;   (* reference count of each live DSA *)
  md_refs : gmap positive positive;    (* reference count of each live EVP_MD *)
  live_mdctx : Z;                      (* number of allocated EVP_MD_CTX *)
  err_queue : list reason              (* newest first *)
}.

Definition ref_up (k : ptr) (m : gmap positive positive) : gmap positive positive :=
  <[k := match m !! k with Some n => Pos.succ n | None => 1%positive end]> m.

(** The last release destroys the object. *)
Definition ref_down (k : ptr) (m : gmap positive positive) : gmap positive positive :=
  match m !! k with
  | Some 1%positive => delete k m
  | Some n => <[k := Pos.pred n]> m
  | None => m
  end.

Definition ERR_raise (e : reason) (r : Resources) : Resources :=
  mkres (dsa_refs r) (md_refs r) (live_mdctx r) (e :: err_queue r).

Definition DSA_up_ref (k : ptr) (r : Resources) : Resources :=
  mkres (ref_up k (dsa_refs r)) (md_refs r) (live_mdctx r) (err_queue r).

Definition DSA_free (k : option ptr) (r : Resources) : Resources :=
  match k with
  | None => r
  | Some k => mkres (ref_down k (dsa_refs r)) (md_refs r) (live_mdctx r) (err_queue r)
  end.

Definition EVP_MD_up_ref (m : ptr) (r : Resources) : Resources :=
  mkres (dsa_refs r) (ref_up m (md_refs r)) (live_mdctx r) (err_queue r).

Definition EVP_MD_free (m : option ptr) (r : Resources) : Resources :=
  match m with
  | None => r
  | Some m => mkres (dsa_refs r) (ref_down m (md_refs r)) (live_mdctx r) (err_queue r)
  end.

(** Allocation of a digest stream: a new, empty history. *)
Definition EVP_MD_CTX_new : EVP_MD_CTX := [].

Definition EVP_MD_CTX_allocated (r : Resources) : Resources :=
  mkres (dsa_refs r) (md_refs r) (live_mdctx r + 1) (err_queue r).

Definition EVP_MD_CTX_free (c : option EVP_MD_CTX) (r : Resources) : Resources :=
  match c with
  | None => r
  | Some _ => mkres (dsa_refs r) (md_refs r) (live_mdctx r - 1) (err_queue r)
  end.

(** The fate of the calls that can fail for reasons outside the program,
    during one call of a provider function. *)
Record Oracle := mkoracle {
  ossl_prov_is_running : bool;
  OPENSSL_zalloc_ok : bool;
  OPENSSL_strdup_ok : bool;
  DSA_up_ref_ok : bool;
  EVP_MD_up_ref_ok : bool;
  EVP_MD_CTX_new_ok : bool;
  EVP_MD_CTX_copy_ex_ok : bool;
  nonce : Z                            (* randomness drawn by the signing primitive *)
}.

(** ** External collaborators

    The library functions and constants used by dsa.c that are defined
    elsewhere in the library. *)
Class Externals := {
  (* internal/sizes.h *)
  OSSL_MAX_NAME_SIZE : nat;
  OSSL_MAX_PROPQUERY_SIZE : nat;
  OSSL_MAX_ALGORITHM_ID_SIZE : nat;
  PROV_LIBCTX_OF : Z → Z;
  (* the key object *)
  DSA_size : option ptr → Z;
  ossl_dsa_check_key : ptr → bool → bool;
  (* [ossl_dsa_sign_int nonce tbs dsa]: return value and the signature written *)
  ossl_dsa_sign_int : Z → list byte → option ptr → Z * list byte;
  (* [DSA_verify tbs sig dsa] *)
  DSA_verify : list byte → list byte → option ptr → Z;
  (* digest objects *)
  EVP_MD_fetch : Z → string → option string → option ptr;
  EVP_MD_size : ptr → Z;
  (* the allow-list of digests: NID of an approved digest, NID_undef otherwise *)
  ossl_digest_get_approved_nid : option ptr → Z;
  (* digest streams: the result of a call on a stream with a given history *)
  EVP_DigestInit_ex : EVP_MD_CTX → option ptr → Z;
  EVP_DigestUpdate : EVP_MD_CTX → list byte → Z;
  EVP_DigestFinal_ex : EVP_MD_CTX → Z * list byte;
  EVP_MD_CTX_get_params : EVP_MD_CTX → option (list OSSL_PARAM) → Z * option (list OSSL_PARAM);
  EVP_MD_CTX_set_params : EVP_MD_CTX → option (list OSSL_PARAM) → Z;
  (* [WPACKET_init_der && ossl_DER_w_algorithmIdentifier_DSA_with_MD &&
     WPACKET_finish] on a buffer: the buffer afterwards, and on success the
     offset of [WPACKET_get_curr] and the total written *)
  ossl_DER_w_algorithmIdentifier_DSA_with_MD :
    list byte → option ptr → Z → list byte * option (nat * nat);
  (* parameter accessors; a setter hands back its return value and what it
     stored in the [data] and [return_size] of the element *)
  OSSL_PARAM_get_utf8_string : OSSL_PARAM → nat → option string;
  OSSL_PARAM_set_octet_string :
    OSSL_PARAM → option (list byte) → nat → Z * (list byte * nat);
  OSSL_PARAM_set_utf8_string : OSSL_PARAM → string → Z * (list byte * nat)
}.

(** The element [p] after a setter stored [d] in it. *)
Definition OSSL_PARAM_stored (p : OSSL_PARAM) (d : list byte * nat) : OSSL_PARAM :=
  mkparam (key p) (data_type p) (fst d) (snd d).

(* openssl/obj_mac.h *)
Definition NID_undef : Z := 0.
Definition NID_sha1 : Z := 64.

(* openssl/core_names.h *)
Definition OSSL_SIGNATURE_PARAM_ALGORITHM_ID : string := "algorithm-id".
Definition OSSL_SIGNATURE_PARAM_DIGEST : string := "digest".
Definition OSSL_SIGNATURE_PARAM_PROPERTIES : string := "properties".

(** Conversion of an [int] to [size_t] (64 bits). *)
Definition to_size_t (z : Z) : Z := z mod 2 ^ 64.

Definition OSSL_PARAM_locate (params : list OSSL_PARAM) (k : string) : option OSSL_PARAM :=
  find (λ p, String.eqb (key p) k) params.

(** Writing through the pointer returned by [OSSL_PARAM_locate]. *)
Fixpoint OSSL_PARAM_assign (params : list OSSL_PARAM) (k : string) (v : OSSL_PARAM)
  : list OSSL_PARAM :=
  match params with
  | [] => []
  | p :: ps => if String.eqb (key p) k then v :: ps else p :: OSSL_PARAM_assign ps k v
  end.

Definition OPENSSL_strlcpy (dst src : string) (size : nat) : string :=
  match size with
  | O => dst
  | S n => substring 0 n src
  end.

(** ** The provider functions *)

Section Provider.
Context `{E : Externals}.

(** Modelled from the spec: [ossl_digest_get_approved_nid_with_sha1] of
    providers/common/securitycheck.c, which is not part of the sources at
    hand.  "A digest is approved only if it is on an allow-list of
    sufficiently strong algorithms, except one legacy algorithm (equivalent
    to SHA-1) which is approved for Verify operations only, never for
    Sign."  The allow-list itself is [ossl_digest_get_approved_nid]. *)
Definition ossl_digest_get_approved_nid_with_sha1 (md : option ptr) (sha1_allowed : bool) : Z :=
  let mdnid := ossl_digest_get_approved_nid md in
  if (mdnid =? NID_sha1) && negb sha1_allowed then NID_undef else mdnid.

Definition dsa_get_md_size (pdsactx : PROV_DSA_CTX) : Z :=
  match md pdsactx with
  | Some m => to_size_t (EVP_MD_size m)
  | None => 0
  end.

(** The zeroed context [OPENSSL_zalloc] returns. *)
Definition zalloc_ctx : PROV_DSA_CTX :=
  mkctx 0 None None false EmptyString
        (repeat x00 OSSL_MAX_ALGORITHM_ID_SIZE) None 0%nat None None
        EVP_PKEY_OP_UNDEFINED.

Definition dsa_setup_md (self : ptr) (mdname' : option string) (mdprops : option string)
    (ctx : PROV_DSA_CTX) (r : Resources) : Z * PROV_DSA_CTX * Resources :=
  let mdprops := match mdprops with None => propq ctx | Some _ => mdprops end in
  match mdname' with
  | None => (1, ctx, r)
  | Some name =>
    let sha1_allowed := negb (operation_eqb (operation ctx) EVP_PKEY_OP_SIGN) in
    let md' := EVP_MD_fetch (libctx ctx) name mdprops in
    let r := match md' with Some m => EVP_MD_up_ref m r | None => r end in
    let md_nid := ossl_digest_get_approved_nid_with_sha1 md' sha1_allowed in
    let mdname_len := String.length name in
    if negb (bool_decide (is_Some md')) || (md_nid =? NID_undef) then
      let r := if negb (bool_decide (is_Some md'))
               then ERR_raise PROV_R_INVALID_DIGEST r else r in
      let r := if md_nid =? NID_undef
               then ERR_raise PROV_R_DIGEST_NOT_ALLOWED r else r in
      let r := if (OSSL_MAX_NAME_SIZE <=? mdname_len)%nat
               then ERR_raise PROV_R_INVALID_DIGEST r else r in
      (0, ctx, EVP_MD_free md' r)
    else
      let r := EVP_MD_CTX_free (mdctx ctx) r in
      let r := EVP_MD_free (md ctx) r in
      let ctx := set_aid_len 0%nat ctx in
      let ctx :=
        match ossl_DER_w_algorithmIdentifier_DSA_with_MD (aid_buf ctx) (dsa ctx) md_nid with
        | (buf, Some (curr, written)) =>
            set_aid (Some (self, curr)) (set_aid_len written (set_aid_buf buf ctx))
        | (buf, None) => set_aid_buf buf ctx
        end in
      let ctx := set_mdctx None ctx in
      let ctx := set_md md' ctx in
      let ctx := set_mdname (OPENSSL_strlcpy (mdname ctx) name OSSL_MAX_NAME_SIZE) ctx in
      (1, ctx, r)
  end.

Definition dsa_signverify_init (o : Oracle) (vdsa : option ptr) (operation : operation_t)
    (pdsactx : PROV_DSA_CTX) (r : Resources) : Z * PROV_DSA_CTX * Resources :=
  match vdsa with
  | None => (0, pdsactx, r)
  | Some k =>
    if negb (ossl_prov_is_running o) || negb (DSA_up_ref_ok o) then (0, pdsactx, r)
    else
      let r := DSA_up_ref k r in
      let r := DSA_free (dsa pdsactx) r in
      let pdsactx := set_operation operation (set_dsa (Some k) pdsactx) in
      if negb (ossl_dsa_check_key k (operation_eqb operation EVP_PKEY_OP_SIGN))
      then (0, pdsactx, ERR_raise PROV_R_INVALID_KEY_LENGTH r)
      else (1, pdsactx, r)
  end.

Definition dsa_sign_init o vdsa pdsactx r :=
  dsa_signverify_init o vdsa EVP_PKEY_OP_SIGN pdsactx r.

Definition dsa_verify_init o vdsa pdsactx r :=
  dsa_signverify_init o vdsa EVP_PKEY_OP_VERIFY pdsactx r.

(** What [dsa_sign] hands back: its return value, the bytes stored through
    [sig] and the value stored in [*siglen], when it stores any. *)
Definition sign_result : Type := Z * option (list byte) * option Z.

(** [sig] tells whether the output buffer is present ([sig != NULL]). *)
Definition dsa_sign (o : Oracle) (pdsactx : PROV_DSA_CTX) (sig : bool) (sigsize : Z)
    (tbs : list byte) : sign_result :=
  let tbslen := Z.of_nat (length tbs) in
  let dsasize := to_size_t (DSA_size (dsa pdsactx)) in
  let mdsize := dsa_get_md_size pdsactx in
  if negb (ossl_prov_is_running o) then (0, None, None)
  else if negb sig then (1, None, Some dsasize)
  else if sigsize <? dsasize then (0, None, None)
  else if negb (mdsize =? 0) && negb (tbslen =? mdsize) then (0, None, None)
  else
    let '(ret, written) := ossl_dsa_sign_int (nonce o) tbs (dsa pdsactx) in
    (* [sltmp] is the length of what was written *)
    if ret <=? 0 then (0, Some written, None)
    else (1, Some written, Some (Z.of_nat (length written))).

Definition dsa_verify (o : Oracle) (pdsactx : PROV_DSA_CTX) (sig : list byte)
    (tbs : list byte) : Z :=
  let tbslen := Z.of_nat (length tbs) in
  let mdsize := dsa_get_md_size pdsactx in
  if negb (ossl_prov_is_running o) || (negb (mdsize =? 0) && negb (tbslen =? mdsize))
  then 0
  else DSA_verify tbs sig (dsa pdsactx).

Definition dsa_digest_signverify_init (o : Oracle) (self : ptr) (mdname : option string)
    (vdsa : option ptr) (operation : operation_t)
    (pdsactx : PROV_DSA_CTX) (r : Resources) : Z * PROV_DSA_CTX * Resources :=
  if negb (ossl_prov_is_running o) then (0, pdsactx, r)
  else
    let pdsactx := set_flag_allow_md false pdsactx in
    let '(ok, pdsactx, r) := dsa_signverify_init o vdsa operation pdsactx r in
    if ok =? 0 then (0, pdsactx, r)
    else
      let '(ok, pdsactx, r) := dsa_setup_md self mdname None pdsactx r in
      if ok =? 0 then (0, pdsactx, r)
      else
        (* the label [error] *)
        let error pdsactx r :=
          let r := EVP_MD_CTX_free (mdctx pdsactx) r in
          let r := EVP_MD_free (md pdsactx) r in
          (0, set_md None (set_mdctx None pdsactx), r) in
        if negb (EVP_MD_CTX_new_ok o) then error (set_mdctx None pdsactx) r
        else
          let r := EVP_MD_CTX_allocated r in
          let ok := EVP_DigestInit_ex EVP_MD_CTX_new (md pdsactx) in
          let pdsactx := set_mdctx (Some (MD_init (md pdsactx) :: EVP_MD_CTX_new)) pdsactx in
          if ok =? 0 then error pdsactx r
          else (1, pdsactx, r).

Definition dsa_digest_sign_init o self mdname vdsa pdsactx r :=
  dsa_digest_signverify_init o self mdname vdsa EVP_PKEY_OP_SIGN pdsactx r.

Definition dsa_digest_verify_init o self mdname vdsa pdsactx r :=
  dsa_digest_signverify_init o self mdname vdsa EVP_PKEY_OP_VERIFY pdsactx r.

Definition dsa_digest_signverify_update (data : list byte) (pdsactx : PROV_DSA_CTX)
    : Z * PROV_DSA_CTX :=
  match mdctx pdsactx with
  | None => (0, pdsactx)
  | Some c => (EVP_DigestUpdate c data, set_mdctx (Some (MD_update data :: c)) pdsactx)
  end.

Definition dsa_digest_sign_final (o : Oracle) (sig : bool) (sigsize : Z)
    (pdsactx : PROV_DSA_CTX) : sign_result * PROV_DSA_CTX :=
  match mdctx pdsactx with
  | None => ((0, None, None), pdsactx)
  | Some c =>
    if negb (ossl_prov_is_running o) then ((0, None, None), pdsactx)
    else if sig then
      let '(ok, digest) := EVP_DigestFinal_ex c in
      let pdsactx := set_mdctx (Some (MD_final :: c)) pdsactx in
      if ok =? 0 then ((0, None, None), pdsactx)
      else
        let pdsactx := set_flag_allow_md true pdsactx in
        (dsa_sign o pdsactx sig sigsize digest, pdsactx)
    else
      let pdsactx := set_flag_allow_md true pdsactx in
      (dsa_sign o pdsactx sig sigsize [], pdsactx)
  end.

Definition dsa_digest_verify_final (o : Oracle) (sig : list byte)
    (pdsactx : PROV_DSA_CTX) : Z * PROV_DSA_CTX :=
  match mdctx pdsactx with
  | None => (0, pdsactx)
  | Some c =>
    if negb (ossl_prov_is_running o) then (0, pdsactx)
    else
      let '(ok, digest) := EVP_DigestFinal_ex c in
      let pdsactx := set_mdctx (Some (MD_final :: c)) pdsactx in
      if ok =? 0 then (0, pdsactx)
      else
        let pdsactx := set_flag_allow_md true pdsactx in
        (dsa_verify o pdsactx sig digest, pdsactx)
  end.

(** What [dsa_freectx] releases; the context itself is taken out of the heap
    by [free_context] below. *)
Definition dsa_freectx (ctx : PROV_DSA_CTX) (r : Resources) : Resources :=
  let r := EVP_MD_CTX_free (mdctx ctx) r in
  let r := EVP_MD_free (md ctx) r in
  DSA_free (dsa ctx) r.

Definition dsa_set_ctx_params (self : ptr) (params : option (list OSSL_PARAM))
    (pdsactx : PROV_DSA_CTX) (r : Resources) : Z * PROV_DSA_CTX * Resources :=
  match params with
  | None => (0, pdsactx, r)
  | Some params =>
    match OSSL_PARAM_locate params OSSL_SIGNATURE_PARAM_DIGEST with
    | None => (1, pdsactx, r)
    | Some p =>
      (* Not allowed during certain operations *)
      if negb (flag_allow_md pdsactx) then (0, pdsactx, r)
      else
        let propsp := OSSL_PARAM_locate params OSSL_SIGNATURE_PARAM_PROPERTIES in
        match OSSL_PARAM_get_utf8_string p OSSL_MAX_NAME_SIZE with
        | None => (0, pdsactx, r)
        | Some mdname =>
          match propsp with
          | None => dsa_setup_md self (Some mdname) (Some EmptyString) pdsactx r
          | Some propsp =>
            match OSSL_PARAM_get_utf8_string propsp OSSL_MAX_PROPQUERY_SIZE with
            | None => (0, pdsactx, r)
            | Some mdprops => dsa_setup_md self (Some mdname) (Some mdprops) pdsactx r
            end
          end
        end
    end
  end.

Definition dsa_get_ctx_md_params (params : option (list OSSL_PARAM))
    (pdsactx : PROV_DSA_CTX) : Z * option (list OSSL_PARAM) * PROV_DSA_CTX :=
  match mdctx pdsactx with
  | None => (0, params, pdsactx)
  | Some c =>
    let '(ret, params') := EVP_MD_CTX_get_params c params in
    (ret, params', set_mdctx (Some (MD_get_params params :: c)) pdsactx)
  end.

Definition dsa_set_ctx_md_params (params : option (list OSSL_PARAM))
    (pdsactx : PROV_DSA_CTX) : Z * PROV_DSA_CTX :=
  match mdctx pdsactx with
  | None => (0, pdsactx)
  | Some c =>
    (EVP_MD_CTX_set_params c params, set_mdctx (Some (MD_set_params params :: c)) pdsactx)
  end.

(** ** Contexts in memory *)

Record World := mkworld {
  ctxs : gmap positive PROV_DSA_CTX;
  res : Resources
}.

Definition dsa_newctx (o : Oracle) (provctx : Z) (propq' : option string) (w : World)
    : option ptr * World :=
  if negb (ossl_prov_is_running o) then (None, w)
  else if negb (OPENSSL_zalloc_ok o) then (None, w)
  else
    let p := fresh (dom (ctxs w)) in
    let pdsactx := set_flag_allow_md true
                     (set_libctx (PROV_LIBCTX_OF provctx) zalloc_ctx) in
    match propq' with
    | Some s =>
      if OPENSSL_strdup_ok o
      then (Some p, mkworld (<[p := set_propq (Some s) pdsactx]> (ctxs w)) (res w))
      else (None, mkworld (ctxs w) (ERR_raise ERR_R_MALLOC_FAILURE (res w)))
    | None => (Some p, mkworld (<[p := pdsactx]> (ctxs w)) (res w))
    end.

(** [dsa_freectx] on a context in memory; undefined on an address that holds
    no context. *)
Definition free_context (vpdsactx : ptr) (w : World) : option World :=
  ctx ← ctxs w !! vpdsactx;
  Some (mkworld (delete vpdsactx (ctxs w)) (dsa_freectx ctx (res w))).

(** The part of [dsa_dupctx] between [*dstctx = *srcctx] and the end: the
    boolean tells whether [return dstctx] was reached ([true]) or [goto err]
    was taken, with the duplicate and the resources at that point. *)
Definition dsa_dupctx_fill (o : Oracle) (srcctx : PROV_DSA_CTX) (r : Resources)
    : bool * PROV_DSA_CTX * Resources :=
  let dstctx := set_propq None (set_mdctx None (set_md None (set_dsa None srcctx))) in
  if bool_decide (is_Some (dsa srcctx)) && negb (DSA_up_ref_ok o) then (false, dstctx, r)
  else
    let r := match dsa srcctx with Some k => DSA_up_ref k r | None => r end in
    let dstctx := set_dsa (dsa srcctx) dstctx in
    if bool_decide (is_Some (md srcctx)) && negb (EVP_MD_up_ref_ok o) then (false, dstctx, r)
    else
      let r := match md srcctx with Some m => EVP_MD_up_ref m r | None => r end in
      let dstctx := set_md (md srcctx) dstctx in
      let propq_step dstctx r :=
        match propq srcctx with
        | Some s =>
          if OPENSSL_strdup_ok o then (true, set_propq (Some s) dstctx, r)
          else (false, dstctx, r)
        | None => (true, dstctx, r)
        end in
      match mdctx srcctx with
      | Some c =>
        if negb (EVP_MD_CTX_new_ok o) then (false, dstctx, r)
        else
          let r := EVP_MD_CTX_allocated r in
          if negb (EVP_MD_CTX_copy_ex_ok o)
          then (false, set_mdctx (Some EVP_MD_CTX_new) dstctx, r)
          else propq_step (set_mdctx (Some c) dstctx) r
      | None => propq_step dstctx r
      end.

Definition dsa_dupctx (o : Oracle) (vpdsactx : ptr) (w : World)
    : option (option ptr * World) :=
  if negb (ossl_prov_is_running o) then Some (None, w)
  else if negb (OPENSSL_zalloc_ok o) then Some (None, w)
  else
    srcctx ← ctxs w !! vpdsactx;
    let d := fresh (dom (ctxs w)) in
    let '(ok, dstctx, r) := dsa_dupctx_fill o srcctx (res w) in
    if ok then Some (Some d, mkworld (<[d := dstctx]> (ctxs w)) r)
    else (* err: *) Some (None, mkworld (ctxs w) (dsa_freectx dstctx r)).

(** The bytes [aid] points at: [None] when the pointer is NULL; undefined
    (outer [None]) when the context it points into is not allocated. *)
Definition aid_bytes (w : World) (pdsactx : PROV_DSA_CTX) : option (option (list byte)) :=
  match aid pdsactx with
  | None => Some None
  | Some (owner, off) =>
    c ← ctxs w !! owner;
    Some (Some (take (aid_len pdsactx) (drop off (aid_buf c))))
  end.

Definition dsa_get_ctx_params (vpdsactx : ptr) (params : option (list OSSL_PARAM))
    (w : World) : option (Z * option (list OSSL_PARAM)) :=
  pdsactx ← ctxs w !! vpdsactx;
  match params with
  | None => Some (0, None)
  | Some params =>
    step1 ← match OSSL_PARAM_locate params OSSL_SIGNATURE_PARAM_ALGORITHM_ID with
            | None => Some (1, params)
            | Some p =>
              val ← aid_bytes w pdsactx;
              let '(ok, d) := OSSL_PARAM_set_octet_string p val (aid_len pdsactx) in
              Some (ok, OSSL_PARAM_assign params OSSL_SIGNATURE_PARAM_ALGORITHM_ID
                          (OSSL_PARAM_stored p d))
            end;
    let '(ok, params) := step1 in
    if ok =? 0 then Some (0, Some params)
    else
      match OSSL_PARAM_locate params OSSL_SIGNATURE_PARAM_DIGEST with
      | None => Some (1, Some params)
      | Some p =>
        let '(ok, d) := OSSL_PARAM_set_utf8_string p (mdname pdsactx) in
        let params := OSSL_PARAM_assign params OSSL_SIGNATURE_PARAM_DIGEST
                        (OSSL_PARAM_stored p d) in
        if ok =? 0 then Some (0, Some params) else Some (1, Some params)
      end
  end.

(** ** The dispatch table *)

(** The entries of [ossl_dsa_signature_functions] that work on one context,
    with their arguments. *)
Inductive call :=
| SIGNATURE_SIGN_INIT (vdsa : option ptr)
| SIGNATURE_SIGN (sig : bool) (sigsize : Z) (tbs : list byte)
| SIGNATURE_VERIFY_INIT (vdsa : option ptr)
| SIGNATURE_VERIFY (sig tbs : list byte)
| SIGNATURE_DIGEST_SIGN_INIT (mdname : option string) (vdsa : option ptr)
| SIGNATURE_DIGEST_SIGN_UPDATE (data : list byte)
| SIGNATURE_DIGEST_SIGN_FINAL (sig : bool) (sigsize : Z)
| SIGNATURE_DIGEST_VERIFY_INIT (mdname : option string) (vdsa : option ptr)
| SIGNATURE_DIGEST_VERIFY_UPDATE (data : list byte)
| SIGNATURE_DIGEST_VERIFY_FINAL (sig : list byte)
| SIGNATURE_SET_CTX_PARAMS (params : option (list OSSL_PARAM))
| SIGNATURE_GET_CTX_MD_PARAMS (params : option (list OSSL_PARAM))
| SIGNATURE_SET_CTX_MD_PARAMS (params : option (list OSSL_PARAM)).

(** What a call hands back to its caller. *)
Record reply := mkreply {
  ret : Z;
  sig_out : option (list byte);
  siglen_out : option Z;
  params_out : option (list OSSL_PARAM)
}.

Definition reply_int (z : Z) : reply := mkreply z None None None.
Definition reply_sign (s : sign_result) : reply :=
  let '(z, sig, siglen) := s in mkreply z sig siglen None.

Definition ossl_dsa_signature_functions (o : Oracle) (self : ptr) (f : call)
    (ctx : PROV_DSA_CTX) (r : Resources) : reply * PROV_DSA_CTX * Resources :=
  match f with
  | SIGNATURE_SIGN_INIT vdsa =>
      let '(z, ctx, r) := dsa_sign_init o vdsa ctx r in (reply_int z, ctx, r)
  | SIGNATURE_SIGN sig sigsize tbs =>
      (reply_sign (dsa_sign o ctx sig sigsize tbs), ctx, r)
  | SIGNATURE_VERIFY_INIT vdsa =>
      let '(z, ctx, r) := dsa_verify_init o vdsa ctx r in (reply_int z, ctx, r)
  | SIGNATURE_VERIFY sig tbs =>
      (reply_int (dsa_verify o ctx sig tbs), ctx, r)
  | SIGNATURE_DIGEST_SIGN_INIT mdname vdsa =>
      let '(z, ctx, r) := dsa_digest_sign_init o self mdname vdsa ctx r in
      (reply_int z, ctx, r)
  | SIGNATURE_DIGEST_SIGN_UPDATE data
  | SIGNATURE_DIGEST_VERIFY_UPDATE data =>
      let '(z, ctx) := dsa_digest_signverify_update data ctx in (reply_int z, ctx, r)
  | SIGNATURE_DIGEST_SIGN_FINAL sig sigsize =>
      let '(s, ctx) := dsa_digest_sign_final o sig sigsize ctx in (reply_sign s, ctx, r)
  | SIGNATURE_DIGEST_VERIFY_INIT mdname vdsa =>
      let '(z, ctx, r) := dsa_digest_verify_init o self mdname vdsa ctx r in
      (reply_int z, ctx, r)
  | SIGNATURE_DIGEST_VERIFY_FINAL sig =>
      let '(z, ctx) := dsa_digest_verify_final o sig ctx in (reply_int z, ctx, r)
  | SIGNATURE_SET_CTX_PARAMS params =>
      let '(z, ctx, r) := dsa_set_ctx_params self params ctx r in (reply_int z, ctx, r)
  | SIGNATURE_GET_CTX_MD_PARAMS params =>
      let '(z, params', ctx) := dsa_get_ctx_md_params params ctx in
      (mkreply z None None params', ctx, r)
  | SIGNATURE_SET_CTX_MD_PARAMS params =>
      let '(z, ctx) := dsa_set_ctx_md_params params ctx in (reply_int z, ctx, r)
  end.

(** A call through the table on the context at [vpdsactx]; undefined on an
    address that holds no context. *)
Definition invoke (o : Oracle) (vpdsactx : ptr) (f : call) (w : World)
    : option (reply * World) :=
  ctx ← ctxs w !! vpdsactx;
  let '(a, ctx', r') := ossl_dsa_signature_functions o vpdsactx f ctx (res w) in
  Some (a, mkworld (<[vpdsactx := ctx']> (ctxs w)) r').

(** One call of the provider interface, from one world to the next. *)
Inductive step : World → World → Prop :=
| step_newctx o provctx propq' w :
    step w (snd (dsa_newctx o provctx propq' w))
| step_freectx p w w' :
    free_context p w = Some w' → step w w'
| step_dupctx o p w d w' :
    dsa_dupctx o p w = Some (d, w') → step w w'
| step_invoke o p f w a w' :
    invoke o p f w = Some (a, w') → step w w'.

(** The worlds a program can reach from no context at all.
    [dsa_get_ctx_params] changes nothing in the world and is no step. *)
Inductive reachable : World → Prop :=
| reachable_empty r : reachable (mkworld ∅ r)
| reachable_step w w' : reachable w → step w w' → reachable w'.

End Provider.

(** ** Vocabulary of the properties *)

Section Vocabulary.
Context `{E : Externals}.

(** The spec's "valid key": the raw primitive signs every input with this
    key, and the raw verification accepts what it signed. *)
Definition DSA_key_valid (k : ptr) : Prop :=
  ∀ nonce tbs,
    0 < fst (ossl_dsa_sign_int nonce tbs (Some k)) ∧
    DSA_verify tbs (snd (ossl_dsa_sign_int nonce tbs (Some k))) (Some k) = 1.

(** The properties [dsa_setup_md] passes to [EVP_MD_fetch]. *)
Definition fetch_props (ctx : PROV_DSA_CTX) (mdprops : option string) : option string :=
  match mdprops with None => propq ctx | Some _ => mdprops end.

(** [params] asks for the digest [name] with the properties [props], in the
    way [dsa_set_ctx_params] reads it. *)
Definition digest_request (params : list OSSL_PARAM) (name props : string) : Prop :=
  ∃ p, OSSL_PARAM_locate params OSSL_SIGNATURE_PARAM_DIGEST = Some p ∧
       OSSL_PARAM_get_utf8_string p OSSL_MAX_NAME_SIZE = Some name ∧
       match OSSL_PARAM_locate params OSSL_SIGNATURE_PARAM_PROPERTIES with
       | None => props = EmptyString
       | Some propsp =>
           OSSL_PARAM_get_utf8_string propsp OSSL_MAX_PROPQUERY_SIZE = Some props
       end.

(** The resources after a bind that replaces the digest by [m]. *)
Definition rebound (ctx : PROV_DSA_CTX) (m : ptr) (r : Resources) : Resources :=
  EVP_MD_free (md ctx) (EVP_MD_CTX_free (mdctx ctx) (EVP_MD_up_ref m r)).

(** [a] and [b] agree on every field other than the algorithm identifier
    ([aid_buf], [aid], [aid_len]). *)
Definition same_but_aid (a b : PROV_DSA_CTX) : Prop :=
  set_aid (aid a) (set_aid_len (aid_len a) (set_aid_buf (aid_buf a) b)) = a.

(** A sequence of calls on one context, each with its own oracle. *)
Fixpoint run_calls (self : ptr) (cs : list (Oracle * call))
    (ctx : PROV_DSA_CTX) (r : Resources) : PROV_DSA_CTX * Resources :=
  match cs with
  | [] => (ctx, r)
  | (o, f) :: cs =>
    let '(_, ctx, r) := ossl_dsa_signature_functions o self f ctx r in
    run_calls self cs ctx r
  end.

(** The calls that release the digest lock of [ctx]: a finalize call that
    gets past its guards.  The provider runs, the context has a stream and,
    unless the call is the size query of [dsa_digest_sign_final], the digest
    value could be extracted. *)
Definition releases_lock (o : Oracle) (f : call) (ctx : PROV_DSA_CTX) : bool :=
  match f, mdctx ctx with
  | SIGNATURE_DIGEST_SIGN_FINAL sig _, Some c =>
      ossl_prov_is_running o && (negb sig || negb (fst (EVP_DigestFinal_ex c) =? 0))
  | SIGNATURE_DIGEST_VERIFY_FINAL _, Some c =>
      ossl_prov_is_running o && negb (fst (EVP_DigestFinal_ex c) =? 0)
  | _, _ => false
  end.

(** No call of the sequence releases the lock of the context it finds. *)
Fixpoint lock_held (self : ptr) (cs : list (Oracle * call))
    (ctx : PROV_DSA_CTX) (r : Resources) : bool :=
  match cs with
  | [] => true
  | (o, f) :: cs =>
    negb (releases_lock o f ctx) &&
    let '(_, ctx, r) := ossl_dsa_signature_functions o self f ctx r in
    lock_held self cs ctx r
  end.

(** The part of the data-model invariant the code maintains: a context that
    has a digest stream has a digest. *)
Definition stream_has_digest (c : PROV_DSA_CTX) : Prop :=
  is_Some (mdctx c) → is_Some (md c).

#[global] Instance stream_has_digest_dec c : Decision (stream_has_digest c).
Proof. unfold stream_has_digest. apply _. Defined.

(** The reference count of an object; 0 when it is not live. *)
Definition ref_count (k : ptr) (m : gmap positive positive) : Z :=
  match m !! k with Some n => Z.pos n | None => 0 end.

(** 1 when the pointer [o] is the object [k], else 0. *)
Definition holds (o : option ptr) (k : ptr) : Z :=
  if bool_decide (o = Some k) then 1 else 0.

(** A context after [dsa_digest_signverify_update] on each chunk in turn. *)
Fixpoint feed (chunks : list (list byte)) (ctx : PROV_DSA_CTX) : PROV_DSA_CTX :=
  match chunks with
  | [] => ctx
  | data :: chunks => feed chunks (snd (dsa_digest_signverify_update data ctx))
  end.

(** The history of a stream primed for [m] after the chunks were fed. *)
Definition fed_stream (m : option ptr) (chunks : list (list byte)) : EVP_MD_CTX :=
  rev (map MD_update chunks) ++ [MD_init m].

(** A request on one context: a call of [ossl_dsa_signature_functions] that
    works on the record of the context, or [dsa_get_ctx_params], which reads
    the identifier through the pointer [aid]. *)
Inductive request :=
| ON_CONTEXT (f : call)
| SIGNATURE_GET_CTX_PARAMS (params : option (list OSSL_PARAM)).

(** The reply to a request on the context at [vpdsactx], and the world after
    it. *)
Definition serve (o : Oracle) (vpdsactx : ptr) (q : request) (w : World)
    : option (reply * World) :=
  match q with
  | ON_CONTEXT f => invoke o vpdsactx f w
  | SIGNATURE_GET_CTX_PARAMS params =>
      out ← dsa_get_ctx_params vpdsactx params w;
      Some (mkreply (fst out) None None (snd out), w)
  end.

(** The replies to a sequence of requests on the context at [vpdsactx];
    undefined as soon as one of them is. *)
Fixpoint serve_all (vpdsactx : ptr) (qs : list (Oracle * request)) (w : World)
    : option (list reply) :=
  match qs with
  | [] => Some []
  | (o, q) :: qs =>
    out ← serve o vpdsactx q w;
    rest ← serve_all vpdsactx qs (snd out);
    Some (fst out :: rest)
  end.

(** Two contexts, each in its world, that no request tells apart: they agree
    on every field but the pointer [aid], and the bytes the two pointers
    lead to are the same. *)
Definition twins (p : ptr) (wp : World) (d : ptr) (wd : World) : Prop :=
  ∃ cp cd,
    ctxs wp !! p = Some cp ∧ ctxs wd !! d = Some cd ∧
    set_aid (aid cp) cd = cp ∧
    aid_bytes wp cp = aid_bytes wd cd.

(** The calls that work on the digest stream of the context. *)
Definition needs_stream (f : call) : bool :=
  match f with
  | SIGNATURE_DIGEST_SIGN_UPDATE _ | SIGNATURE_DIGEST_VERIFY_UPDATE _
  | SIGNATURE_DIGEST_SIGN_FINAL _ _ | SIGNATURE_DIGEST_VERIFY_FINAL _
  | SIGNATURE_GET_CTX_MD_PARAMS _ | SIGNATURE_SET_CTX_MD_PARAMS _ => true
  | _ => false
  end.

(** The number of contexts of a heap whose pointer [sel] is the object
    [k]. *)
Definition holders (sel : PROV_DSA_CTX → option ptr) (k : ptr)
    (cs : gmap positive PROV_DSA_CTX) : Z :=
  Z.of_nat (size (filter (λ pc : positive * PROV_DSA_CTX, sel pc.2 = Some k) cs)).

(** Every key and every digest has at least as many references as there are
    contexts that hold it. *)
Definition counted (w : World) : Prop :=
  ∀ k, holders dsa k (ctxs w) ≤ ref_count k (dsa_refs (res w)) ∧
       holders md k (ctxs w) ≤ ref_count k (md_refs (res w)).

End Vocabulary.

(** ** A small instance of the collaborators

    Enough of a library to run the provider on concrete inputs: four
    digests, a key primitive whose signature of a message is the message
    itself, and a three-byte algorithm identifier written at the end of the
    buffer.  The fourth digest is on the allow-list, but the encoder has no
    identifier for it. *)
Module Toy.

Definition sha1 : ptr := 1%positive.
Definition sha256 : ptr := 2%positive.
Definition sha512 : ptr := 3%positive.
Definition sha512_256 : ptr := 4%positive.

Definition fetch (name : string) : option ptr :=
  if String.eqb name "SHA1" then Some sha1
  else if String.eqb name "SHA256" then Some sha256
  else if String.eqb name "SHA512" then Some sha512
  else if String.eqb name "SHA2-512/256" then Some sha512_256
  else None.

Definition md_size (m : ptr) : Z :=
  match m with
  | 1%positive => 20
  | 2%positive => 32
  | 4%positive => 32
  | _ => 64
  end.

Definition approved_nid (m : option ptr) : Z :=
  match m with
  | Some 1%positive => NID_sha1
  | Some 2%positive => 672
  | Some 3%positive => 674
  | Some 4%positive => 1095
  | _ => NID_undef
  end.

Fixpoint bytes_eqb (a b : list byte) : bool :=
  match a, b with
  | [], [] => true
  | x :: a, y :: b => Byte.eqb x y && bytes_eqb a b
  | _, _ => false
  end.

Definition sign_int (nonce : Z) (tbs : list byte) (k : option ptr) : Z * list byte :=
  match k with
  | Some _ => (1, tbs)
  | None => (-1, [])
  end.

Definition verify (tbs sig : list byte) (k : option ptr) : Z :=
  match k with
  | Some _ => if bytes_eqb sig tbs then 1 else 0
  | None => -1
  end.

(** The digest a stream was initialised with, and what was fed to it since. *)
Fixpoint stream_md (c : EVP_MD_CTX) : option ptr :=
  match c with
  | [] => None
  | MD_init m :: _ => m
  | _ :: c => stream_md c
  end.

Fixpoint stream_data (c : EVP_MD_CTX) : list byte :=
  match c with
  | [] => []
  | MD_init _ :: _ => []
  | MD_update d :: c => stream_data c ++ d
  | _ :: c => stream_data c
  end.

Definition digest_final (c : EVP_MD_CTX) : Z * list byte :=
  match stream_md c with
  | Some m =>
    let n := Z.to_nat (md_size m) in
    (1, take n (stream_data c ++ repeat x00 n))
  | None => (0, [])
  end.

Definition der_tag (nid : Z) : byte :=
  if nid =? NID_sha1 then x01 else if nid =? 672 then x02 else x03.

Definition der_write (buf : list byte) (k : option ptr) (nid : Z)
    : list byte * option (nat * nat) :=
  match k with
  | Some _ =>
    if (3 <=? length buf)%nat && negb (nid =? 1095)
    then (take (length buf - 3) buf ++ [x30; x09; der_tag nid],
          Some ((length buf - 3)%nat, 3%nat))
    else (buf, None)
  | None => (buf, None)
  end.

Definition get_utf8_string (p : OSSL_PARAM) (max_len : nat) : option string :=
  let s := string_of_list_byte (data p) in
  if (String.length s <? max_len)%nat then Some s else None.

Definition set_octet_string (p : OSSL_PARAM) (val : option (list byte)) (len : nat)
    : Z * (list byte * nat) :=
  match val with
  | None => (0, (data p, 0%nat))
  | Some b => (1, (b, len))
  end.

Definition set_utf8_string (p : OSSL_PARAM) (s : string) : Z * (list byte * nat) :=
  (1, (list_byte_of_string s, String.length s)).

Definition externals : Externals := {|
  OSSL_MAX_NAME_SIZE := 50;
  OSSL_MAX_PROPQUERY_SIZE := 256;
  OSSL_MAX_ALGORITHM_ID_SIZE := 8;
  PROV_LIBCTX_OF := λ provctx, provctx;
  DSA_size := λ k, match k with Some _ => 48 | None => -1 end;
  ossl_dsa_check_key := λ _ _, true;
  ossl_dsa_sign_int := sign_int;
  DSA_verify := verify;
  EVP_MD_fetch := λ _ name _, fetch name;
  EVP_MD_size := md_size;
  ossl_digest_get_approved_nid := approved_nid;
  EVP_DigestInit_ex := λ _ m, match m with Some _ => 1 | None => 0 end;
  EVP_DigestUpdate := λ _ _, 1;
  EVP_DigestFinal_ex := digest_final;
  EVP_MD_CTX_get_params := λ _ params, (1, params);
  EVP_MD_CTX_set_params := λ _ _, 1;
  ossl_DER_w_algorithmIdentifier_DSA_with_MD := der_write;
  OSSL_PARAM_get_utf8_string := get_utf8_string;
  OSSL_PARAM_set_octet_string := set_octet_string;
  OSSL_PARAM_set_utf8_string := set_utf8_string
|}.

(** Every fallible call succeeds. *)
Definition fine : Oracle := mkoracle true true true true true true true 7.

Definition key : ptr := 5%positive.

(** A world with one key and no context. *)
Definition world0 : World :=
  mkworld ∅ (mkres {[ key := 1%positive ]} ∅ 0 []).

Definition digest_param (name : string) : OSSL_PARAM :=
  mkparam OSSL_SIGNATURE_PARAM_DIGEST 4 (list_byte_of_string name) 0.

Definition aid_param : OSSL_PARAM :=
  mkparam OSSL_SIGNATURE_PARAM_ALGORITHM_ID 5 [] 0.

(** A context bound to the key and to SHA-256, for signing. *)
Definition ctx_sha256 : PROV_DSA_CTX :=
  mkctx 0 None (Some key) true "SHA256" (repeat x00 8) None 0%nat (Some sha256) None
        EVP_PKEY_OP_SIGN.

#[local] Existing Instance externals.

(** The world after a call through the table. *)
Definition after (o : Oracle) (p : ptr) (f : call) (w : World) : World :=
  match invoke o p f w with
  | Some (_, w') => w'
  | None => w
  end.

Definition abc : list byte := [x61; x62; x63].

(** A streaming signature of "abc" from start to finish, in a new context
    at address 1. *)
Definition w1 : World := snd (dsa_newctx fine 0 None world0).
Definition w2 : World :=
  after fine 1 (SIGNATURE_DIGEST_SIGN_INIT (Some "SHA256"%string) (Some key)) w1.
Definition w3 : World := after fine 1 (SIGNATURE_DIGEST_SIGN_UPDATE abc) w2.
Definition w4 : World := after fine 1 (SIGNATURE_DIGEST_SIGN_FINAL true 48) w3.

Definition ctx_after_final : PROV_DSA_CTX :=
  mkctx 0 None (Some key) true "SHA256" [x00; x00; x00; x00; x00; x30; x09; x02]
        (Some (1%positive, 5%nat)) 3%nat (Some sha256)
        (Some [MD_final; MD_update abc; MD_init (Some sha256)]) EVP_PKEY_OP_SIGN.

(** A one-shot context at address 1 bound to SHA-256, its duplicate at
    address 2, and then the source bound to SHA-512, or freed. *)
Definition v2 : World := after fine 1 (SIGNATURE_SIGN_INIT (Some key)) w1.
Definition v3 : World :=
  after fine 1 (SIGNATURE_SET_CTX_PARAMS (Some [digest_param "SHA256"])) v2.
Definition v4 : World :=
  match dsa_dupctx fine 1 v3 with
  | Some (_, w') => w'
  | None => v3
  end.
Definition v5 : World :=
  after fine 1 (SIGNATURE_SET_CTX_PARAMS (Some [digest_param "SHA512"])) v4.
Definition v6 : World :=
  match free_context 1 v4 with
  | Some w' => w'
  | None => v4
  end.

Definition aid_reported (b : list byte) : OSSL_PARAM :=
  mkparam OSSL_SIGNATURE_PARAM_ALGORITHM_ID 5 b 3.

(** An input of the wrong length, one of the right length for SHA-256, and
    a signature that is not the one of the latter. *)
Definition short_input : list byte := abc.
Definition good_input : list byte := repeat x61 32.
Definition forged : list byte := repeat x62 32.

(** A context with the key and no digest, for verification. *)
Definition ctx_verify : PROV_DSA_CTX :=
  mkctx 0 None (Some key) true "" (repeat x00 8) None 0%nat None None
        EVP_PKEY_OP_VERIFY.

(** The same, for signing. *)
Definition ctx_sign : PROV_DSA_CTX := set_operation EVP_PKEY_OP_SIGN ctx_verify.

(** A context in the middle of a streaming signature. *)
Definition ctx_accumulating : PROV_DSA_CTX :=
  mkctx 0 None (Some key) false "SHA256" [x00; x00; x00; x00; x00; x30; x09; x02]
        (Some (1%positive, 5%nat)) 3%nat (Some sha256)
        (Some [MD_update abc; MD_init (Some sha256)]) EVP_PKEY_OP_SIGN.

(** The new context of [w1]. *)
Definition ctx_new : PROV_DSA_CTX :=
  mkctx 0 None None true "" (repeat x00 8) None 0%nat None None EVP_PKEY_OP_UNDEFINED.

End Toy.

(** * Properties *)

(** Case analysis on a scrutinee of the goal that holds no other case
    analysis. *)
Ltac case_inner :=
  match goal with
  | |- context [match ?x with _ => _ end] =>
      lazymatch x with
      | context [match _ with _ => _ end] => fail
      | _ => destruct x eqn:?; simpl
      end
  end.

Section OneShot.
Context `{E : Externals}.

Lemma dsa_sign_size_query o ctx sigsize tbs :
  ossl_prov_is_running o = true →
  dsa_sign o ctx false sigsize tbs = (1, None, Some (to_size_t (DSA_size (dsa ctx)))).
Proof. intros Hrun. unfold dsa_sign. now rewrite Hrun. Qed.

Lemma dsa_sign_too_small o ctx sigsize tbs :
  sigsize < to_size_t (DSA_size (dsa ctx)) →
  dsa_sign o ctx true sigsize tbs = (0, None, None).
Proof.
  intros Hlt. unfold dsa_sign.
  destruct (ossl_prov_is_running o); simpl; [|reflexivity].
  destruct (Z.ltb_spec sigsize (to_size_t (DSA_size (dsa ctx)))); [reflexivity|lia].
Qed.

Lemma size_check_passes (mdsize tbslen : Z) :
  mdsize = 0 ∨ tbslen = mdsize →
  negb (mdsize =? 0) && negb (tbslen =? mdsize) = false.
Proof.
  intros [->| ->]; [reflexivity|].
  rewrite Z.eqb_refl. simpl. apply andb_false_r.
Qed.

Lemma size_check_fails (mdsize tbslen : Z) :
  mdsize ≠ 0 → tbslen ≠ mdsize →
  negb (mdsize =? 0) && negb (tbslen =? mdsize) = true.
Proof.
  intros H1 H2.
  destruct (Z.eqb_spec mdsize 0); [contradiction|].
  destruct (Z.eqb_spec tbslen mdsize); [contradiction|reflexivity].
Qed.

(** A real call that gets past its guards returns what the primitive wrote. *)
Lemma dsa_sign_real o ctx sigsize tbs :
  ossl_prov_is_running o = true →
  to_size_t (DSA_size (dsa ctx)) ≤ sigsize →
  dsa_get_md_size ctx = 0 ∨ Z.of_nat (length tbs) = dsa_get_md_size ctx →
  0 < fst (ossl_dsa_sign_int (nonce o) tbs (dsa ctx)) →
  dsa_sign o ctx true sigsize tbs =
    (1, Some (snd (ossl_dsa_sign_int (nonce o) tbs (dsa ctx))),
     Some (Z.of_nat (length (snd (ossl_dsa_sign_int (nonce o) tbs (dsa ctx)))))).
Proof.
  intros Hrun Hcap Hsize Hprim. unfold dsa_sign. rewrite Hrun. simpl.
  destruct (Z.ltb_spec sigsize (to_size_t (DSA_size (dsa ctx)))); [lia|].
  rewrite (size_check_passes _ _ Hsize).
  destruct (ossl_dsa_sign_int (nonce o) tbs (dsa ctx)) as [ret written]. simpl in *.
  destruct (Z.leb_spec ret 0); [lia|reflexivity].
Qed.

(** C1. Round trip: with a valid key and a bound digest, [dsa_sign] on an
    input of the digest's output size, in a buffer of at least [DSA_size]
    bytes, succeeds, and [dsa_verify] of the signature it produced over the
    same input returns 1, on the same context or on any context that holds
    the same key and either the same digest size or no digest. *)
Theorem C1_sign_verify_round_trip o o' ctx ctx' k m sigsize tbs :
  ossl_prov_is_running o = true →
  ossl_prov_is_running o' = true →
  dsa ctx = Some k → DSA_key_valid k →
  md ctx = Some m →
  Z.of_nat (length tbs) = dsa_get_md_size ctx →
  to_size_t (DSA_size (dsa ctx)) ≤ sigsize →
  dsa ctx' = dsa ctx →
  dsa_get_md_size ctx' = dsa_get_md_size ctx ∨ dsa_get_md_size ctx' = 0 →
  ∃ sig, dsa_sign o ctx true sigsize tbs = (1, Some sig, Some (Z.of_nat (length sig))) ∧
         dsa_verify o ctx sig tbs = 1 ∧
         dsa_verify o' ctx' sig tbs = 1.
Proof.
  intros Hrun Hrun' Hk Hvalid Hm Hlen Hcap Hk' Hsize'.
  destruct (Hvalid (nonce o) tbs) as [Hpos Hver].
  exists (snd (ossl_dsa_sign_int (nonce o) tbs (Some k))).
  split; [|split].
  - rewrite <- Hk. apply dsa_sign_real; auto. now rewrite Hk.
  - unfold dsa_verify. rewrite Hrun. simpl.
    rewrite size_check_passes by auto. now rewrite Hk.
  - unfold dsa_verify. rewrite Hrun'. simpl.
    rewrite size_check_passes by (destruct Hsize' as [->| ->]; auto).
    now rewrite Hk', Hk.
Qed.

(** C5 (amended). With a bound digest of non-zero output size and an input
    of another length, a [dsa_sign] call with an output buffer returns 0
    and stores nothing, and [dsa_verify] returns 0.  That 0 is also what
    [dsa_verify] returns for an input of the right length whose signature
    the primitive rejects with 0: the return value does not tell the two
    apart, and neither call touches the error queue or the context. *)
Theorem C5_size_mismatch o ctx m sigsize sig tbs :
  md ctx = Some m →
  dsa_get_md_size ctx ≠ 0 →
  Z.of_nat (length tbs) ≠ dsa_get_md_size ctx →
  dsa_sign o ctx true sigsize tbs = (0, None, None) ∧
  dsa_verify o ctx sig tbs = 0 ∧
  (∀ sig' tbs',
      ossl_prov_is_running o = true →
      Z.of_nat (length tbs') = dsa_get_md_size ctx →
      DSA_verify tbs' sig' (dsa ctx) = 0 →
      ∀ self r,
        ossl_dsa_signature_functions o self (SIGNATURE_VERIFY sig' tbs') ctx r =
        ossl_dsa_signature_functions o self (SIGNATURE_VERIFY sig tbs) ctx r).
Proof.
  intros Hm Hnz Hlen.
  assert (Hv : dsa_verify o ctx sig tbs = 0).
  { unfold dsa_verify. rewrite size_check_fails by auto.
    now rewrite orb_true_r. }
  split; [|split; [exact Hv|]].
  - unfold dsa_sign. destruct (ossl_prov_is_running o); simpl; [|reflexivity].
    destruct (_ <? _); [reflexivity|].
    now rewrite size_check_fails by auto.
  - intros sig' tbs' Hrun Hlen' Hneg self r. simpl. rewrite Hv.
    unfold dsa_verify. rewrite Hrun. simpl.
    rewrite size_check_passes by auto. now rewrite Hneg.
Qed.

(** C8. Size query: with the provider running, [dsa_sign] without an output
    buffer stores [DSA_size] in [*siglen] and returns 1, whatever the other
    arguments and however often it is called (the context and the resources
    are left as they were); a call with a buffer returns 0 for every
    capacity below that value, and returns 1 at that capacity and above
    when the input passes the size check and the primitive succeeds. *)
Theorem C8_size_query o ctx sigsize tbs :
  ossl_prov_is_running o = true →
  let n := to_size_t (DSA_size (dsa ctx)) in
  dsa_sign o ctx false sigsize tbs = (1, None, Some n) ∧
  (∀ o' self r sigsize' tbs',
      ossl_prov_is_running o' = true →
      ossl_dsa_signature_functions o' self (SIGNATURE_SIGN false sigsize' tbs') ctx r
      = (mkreply 1 None (Some n) None, ctx, r)) ∧
  (∀ cap tbs', cap < n → dsa_sign o ctx true cap tbs' = (0, None, None)) ∧
  (∀ cap tbs',
      n ≤ cap →
      dsa_get_md_size ctx = 0 ∨ Z.of_nat (length tbs') = dsa_get_md_size ctx →
      0 < fst (ossl_dsa_sign_int (nonce o) tbs' (dsa ctx)) →
      fst (fst (dsa_sign o ctx true cap tbs')) = 1).
Proof.
  intros Hrun n. split; [|split; [|split]].
  - now apply dsa_sign_size_query.
  - intros o' self r sigsize' tbs' Hrun'. simpl.
    now rewrite dsa_sign_size_query.
  - intros cap tbs' Hlt. now apply dsa_sign_too_small.
  - intros cap tbs' Hcap Hsize Hprim.
    now rewrite dsa_sign_real.
Qed.

End OneShot.

Section Binding.
Context `{E : Externals}.

Lemma dsa_setup_md_absent self mdprops ctx r :
  dsa_setup_md self None mdprops ctx r = (1, ctx, r).
Proof. reflexivity. Qed.

(** A digest that resolves and is approved is bound: the old digest and
    stream are released, and only [md], [mdctx], [mdname] and the three
    identifier fields change. *)
Lemma dsa_setup_md_bound self name mdprops ctx r m :
  EVP_MD_fetch (libctx ctx) name (fetch_props ctx mdprops) = Some m →
  ossl_digest_get_approved_nid_with_sha1
    (Some m) (negb (operation_eqb (operation ctx) EVP_PKEY_OP_SIGN)) ≠ NID_undef →
  ∃ ctx',
    dsa_setup_md self (Some name) mdprops ctx r = (1, ctx', rebound ctx m r) ∧
    md ctx' = Some m ∧ mdctx ctx' = None ∧
    mdname ctx' = OPENSSL_strlcpy (mdname ctx) name OSSL_MAX_NAME_SIZE ∧
    libctx ctx' = libctx ctx ∧ propq ctx' = propq ctx ∧ dsa ctx' = dsa ctx ∧
    flag_allow_md ctx' = flag_allow_md ctx ∧ operation ctx' = operation ctx ∧
    match ossl_DER_w_algorithmIdentifier_DSA_with_MD (aid_buf ctx) (dsa ctx)
            (ossl_digest_get_approved_nid_with_sha1
               (Some m) (negb (operation_eqb (operation ctx) EVP_PKEY_OP_SIGN))) with
    | (buf, Some (curr, written)) =>
        aid_buf ctx' = buf ∧ aid ctx' = Some (self, curr) ∧ aid_len ctx' = written
    | (buf, None) =>
        aid_buf ctx' = buf ∧ aid ctx' = aid ctx ∧ aid_len ctx' = 0%nat
    end.
Proof.
  intros Hfetch Hnid. unfold dsa_setup_md, fetch_props in *.
  rewrite Hfetch. simpl.
  destruct (Z.eqb_spec (ossl_digest_get_approved_nid_with_sha1 (Some m)
              (negb (operation_eqb (operation ctx) EVP_PKEY_OP_SIGN))) NID_undef)
    as [Heq|_]; [contradiction|].
  simpl.
  destruct (ossl_DER_w_algorithmIdentifier_DSA_with_MD _ _ _) as [buf [[curr written]|]];
    eexists; (split; [reflexivity|]); simpl; repeat split; reflexivity.
Qed.

(** Taking a reference and giving it back leaves the counts as they were. *)
Lemma ref_down_up k (m : gmap positive positive) : ref_down k (ref_up k m) = m.
Proof.
  unfold ref_down, ref_up. rewrite lookup_insert_eq.
  destruct (m !! k) as [n|] eqn:Hk.
  - destruct (Pos.succ n) eqn:Hs; try (rewrite <- Hs);
      try (rewrite insert_insert_eq, Pos.pred_succ; now apply insert_id).
    destruct n; discriminate.
  - now apply delete_insert_id.
Qed.

(** A digest that resolves but is not approved for the operation is
    refused: the context is left as it was, [PROV_R_DIGEST_NOT_ALLOWED] is
    raised and the fetched reference is given back. *)
Lemma dsa_setup_md_not_allowed self name mdprops ctx r m :
  EVP_MD_fetch (libctx ctx) name (fetch_props ctx mdprops) = Some m →
  ossl_digest_get_approved_nid_with_sha1
    (Some m) (negb (operation_eqb (operation ctx) EVP_PKEY_OP_SIGN)) = NID_undef →
  dsa_setup_md self (Some name) mdprops ctx r =
    (0, ctx,
     mkres (dsa_refs r) (md_refs r) (live_mdctx r)
           ((if (OSSL_MAX_NAME_SIZE <=? String.length name)%nat
             then [PROV_R_INVALID_DIGEST] else [])
            ++ PROV_R_DIGEST_NOT_ALLOWED :: err_queue r)).
Proof.
  intros Hfetch Hnid. unfold dsa_setup_md, fetch_props in *.
  rewrite Hfetch. simpl. rewrite Hnid. simpl.
  destruct (OSSL_MAX_NAME_SIZE <=? String.length name)%nat; simpl;
    now rewrite ref_down_up.
Qed.

(** On a context that allows it, a parameter request for a digest is the
    bind of that digest. *)
Lemma dsa_set_ctx_params_unlocked self params name props ctx r :
  flag_allow_md ctx = true →
  digest_request params name props →
  dsa_set_ctx_params self (Some params) ctx r =
  dsa_setup_md self (Some name) (Some props) ctx r.
Proof.
  intros Hflag (p & Hp & Hname & Hprops). unfold dsa_set_ctx_params.
  rewrite Hp, Hflag, Hname. simpl.
  destruct (OSSL_PARAM_locate params OSSL_SIGNATURE_PARAM_PROPERTIES).
  - now rewrite Hprops.
  - now subst props.
Qed.

(** On a context that does not allow it, a parameter request that names a
    digest returns 0 and changes nothing. *)
Lemma dsa_set_ctx_params_locked self params p ctx r :
  flag_allow_md ctx = false →
  OSSL_PARAM_locate params OSSL_SIGNATURE_PARAM_DIGEST = Some p →
  dsa_set_ctx_params self (Some params) ctx r = (0, ctx, r).
Proof.
  intros Hflag Hp. unfold dsa_set_ctx_params. now rewrite Hp, Hflag.
Qed.

Lemma same_but_aid_fields a b :
  same_but_aid a b ↔
  libctx a = libctx b ∧ propq a = propq b ∧ dsa a = dsa b ∧
  flag_allow_md a = flag_allow_md b ∧ mdname a = mdname b ∧ md a = md b ∧
  mdctx a = mdctx b ∧ operation a = operation b.
Proof.
  unfold same_but_aid. destruct a, b; simpl. split.
  - intros H. injection H as -> -> -> -> -> -> -> ->. repeat split.
  - intros (-> & -> & -> & -> & -> & -> & -> & ->). reflexivity.
Qed.

(** The calls of the table do not read the algorithm identifier: on two
    contexts that agree on the other fields they hand back the same reply
    and the same resources, and the contexts still agree afterwards. *)
Lemma calls_ignore_aid o self f a b r :
  same_but_aid a b →
  fst (fst (ossl_dsa_signature_functions o self f a r)) =
  fst (fst (ossl_dsa_signature_functions o self f b r)) ∧
  snd (ossl_dsa_signature_functions o self f a r) =
  snd (ossl_dsa_signature_functions o self f b r) ∧
  same_but_aid (snd (fst (ossl_dsa_signature_functions o self f a r)))
               (snd (fst (ossl_dsa_signature_functions o self f b r))).
Proof.
  intros H. apply same_but_aid_fields in H.
  destruct a, b; simpl in H.
  destruct H as (-> & -> & -> & -> & -> & -> & -> & ->).
  rewrite same_but_aid_fields.
  destruct f; simpl;
    unfold dsa_sign_init, dsa_verify_init, dsa_digest_sign_init, dsa_digest_verify_init,
      dsa_digest_signverify_init, dsa_signverify_init, dsa_set_ctx_params, dsa_setup_md,
      dsa_sign, dsa_verify, dsa_digest_signverify_update, dsa_digest_sign_final,
      dsa_digest_verify_final, dsa_get_ctx_md_params, dsa_set_ctx_md_params,
      dsa_get_md_size; simpl;
    repeat case_inner;
    repeat split; try reflexivity; try congruence.
Qed.

(** C2. Weak-digest asymmetry.  Let [name] resolve to a digest that the
    allow-list maps to SHA-1.  On a context whose operation is Verify,
    [dsa_setup_md] binds it and returns 1, and so does [dsa_set_ctx_params]
    when the context allows a change of digest.  On a context whose
    operation is Sign both return 0 and leave the context as it was; the
    error queue receives [PROV_R_DIGEST_NOT_ALLOWED] (below
    [PROV_R_INVALID_DIGEST] when the name is also too long for [mdname]),
    and the reference counts are as before. *)
Theorem C2_weak_digest_asymmetry self name props params ctx r m :
  EVP_MD_fetch (libctx ctx) name (Some props) = Some m →
  ossl_digest_get_approved_nid (Some m) = NID_sha1 →
  flag_allow_md ctx = true →
  digest_request params name props →
  (operation ctx = EVP_PKEY_OP_VERIFY →
   ∃ ctx',
     dsa_setup_md self (Some name) (Some props) ctx r = (1, ctx', rebound ctx m r) ∧
     dsa_set_ctx_params self (Some params) ctx r = (1, ctx', rebound ctx m r) ∧
     md ctx' = Some m) ∧
  (operation ctx = EVP_PKEY_OP_SIGN →
   let r' :=
     mkres (dsa_refs r) (md_refs r) (live_mdctx r)
           ((if (OSSL_MAX_NAME_SIZE <=? String.length name)%nat
             then [PROV_R_INVALID_DIGEST] else [])
            ++ PROV_R_DIGEST_NOT_ALLOWED :: err_queue r) in
   dsa_setup_md self (Some name) (Some props) ctx r = (0, ctx, r') ∧
   dsa_set_ctx_params self (Some params) ctx r = (0, ctx, r')).
Proof.
  intros Hfetch Hsha1 Hflag Hreq.
  rewrite (dsa_set_ctx_params_unlocked self params name props ctx r Hflag Hreq).
  split; intros Hop.
  - destruct (dsa_setup_md_bound self name (Some props) ctx r m Hfetch)
      as (ctx' & Hbind & Hmd & _).
    + unfold ossl_digest_get_approved_nid_with_sha1.
      rewrite Hsha1, Hop. discriminate.
    + exists ctx'. auto.
  - rewrite (dsa_setup_md_not_allowed self name (Some props) ctx r m Hfetch).
    + split; reflexivity.
    + unfold ossl_digest_get_approved_nid_with_sha1.
      now rewrite Hsha1, Hop.
Qed.

(** Elements of a parameter array are found and written by key. *)
Lemma OSSL_PARAM_locate_key params k p :
  OSSL_PARAM_locate params k = Some p → key p = k.
Proof.
  unfold OSSL_PARAM_locate. induction params as [|q params IH]; simpl; [discriminate|].
  destruct (String.eqb_spec (key q) k) as [Hk|_]; [|exact IH].
  intros H. now injection H as <-.
Qed.

Lemma OSSL_PARAM_assign_keys k v : ∀ params,
  key v = k → map key (OSSL_PARAM_assign params k v) = map key params.
Proof.
  intros params Hv. induction params as [|q params IH]; simpl; [reflexivity|].
  destruct (String.eqb_spec (key q) k) as [Hk|_]; simpl; congruence.
Qed.

Lemma OSSL_PARAM_assign_types k v : ∀ params p,
  OSSL_PARAM_locate params k = Some p → data_type v = data_type p →
  map data_type (OSSL_PARAM_assign params k v) = map data_type params.
Proof.
  unfold OSSL_PARAM_locate.
  intros params p. induction params as [|q params IH]; simpl; [reflexivity|].
  destruct (String.eqb_spec (key q) k) as [Hk|_]; simpl.
  - intros H Hv. injection H as <-. congruence.
  - intros H Hv. f_equal. now apply IH.
Qed.

Lemma OSSL_PARAM_assign_other k v : ∀ params (i : nat) q,
  params !! i = Some q → key q ≠ k → OSSL_PARAM_assign params k v !! i = Some q.
Proof.
  induction params as [|q0 params IH]; intros i q Hi Hq; simpl; [discriminate|].
  destruct (String.eqb_spec (key q0) k) as [Hk|Hk].
  - destruct i as [|i]; simpl in *; [|exact Hi]. congruence.
  - destruct i as [|i]; simpl in *; [exact Hi|]. now apply IH.
Qed.

Lemma OSSL_PARAM_locate_assign_other k k' v params :
  k ≠ k' → key v = k →
  OSSL_PARAM_locate (OSSL_PARAM_assign params k v) k' = OSSL_PARAM_locate params k'.
Proof.
  intros Hne Hv. unfold OSSL_PARAM_locate.
  induction params as [|q params IH]; simpl; [reflexivity|].
  destruct (String.eqb_spec (key q) k) as [Hk|Hk]; simpl.
  - rewrite Hv.
    destruct (String.eqb_spec k k'); [contradiction|].
    destruct (String.eqb_spec (key q) k'); [congruence|reflexivity].
  - destruct (String.eqb_spec (key q) k'); [reflexivity|exact IH].
Qed.

Lemma OSSL_PARAM_locate_assign k v : ∀ params p,
  OSSL_PARAM_locate params k = Some p → key v = k →
  OSSL_PARAM_locate (OSSL_PARAM_assign params k v) k = Some v.
Proof.
  unfold OSSL_PARAM_locate.
  induction params as [|q params IH]; intros p; simpl; [discriminate|].
  destruct (String.eqb_spec (key q) k) as [Hk|Hk]; simpl.
  - intros _ Hv. rewrite Hv, String.eqb_refl. reflexivity.
  - intros Hp Hv. destruct (String.eqb_spec (key q) k); [contradiction|]. now apply IH with p.
Qed.

(** C6 (amended). A failure of the DER encoder does not fail the bind.
    When the digest resolves and is approved and the encoder reports a
    failure, [dsa_setup_md] returns 1 with the digest bound, [aid_len] equal
    to 0 and the pointer [aid] as it was.  [dsa_get_ctx_params], asked for
    "algorithm-id", hands that pointer and the length 0 to
    [OSSL_PARAM_set_octet_string]: a NULL pointer when no identifier was
    ever encoded on the context, no bytes otherwise.  When the setter
    answers 0 the call returns 0 and fills in nothing else; when the setter
    accepts the value, the element of the array holds what the setter
    stored for it.  Every call of the table that works on the record
    replies as it would on a context that differs only in the identifier
    fields. *)
Theorem C6_aid_encoding_failure self name mdprops ctx r m buf :
  EVP_MD_fetch (libctx ctx) name (fetch_props ctx mdprops) = Some m →
  ossl_digest_get_approved_nid_with_sha1
    (Some m) (negb (operation_eqb (operation ctx) EVP_PKEY_OP_SIGN)) ≠ NID_undef →
  ossl_DER_w_algorithmIdentifier_DSA_with_MD (aid_buf ctx) (dsa ctx)
    (ossl_digest_get_approved_nid_with_sha1
       (Some m) (negb (operation_eqb (operation ctx) EVP_PKEY_OP_SIGN))) = (buf, None) →
  ∃ ctx',
    dsa_setup_md self (Some name) mdprops ctx r = (1, ctx', rebound ctx m r) ∧
    md ctx' = Some m ∧
    aid_len ctx' = 0%nat ∧ aid ctx' = aid ctx ∧
    (∀ w params p,
        ctxs w !! self = Some ctx' →
        OSSL_PARAM_locate params OSSL_SIGNATURE_PARAM_ALGORITHM_ID = Some p →
        is_Some (aid_bytes w ctx') →
        let val := match aid ctx with None => None | Some _ => Some [] end in
        let out := OSSL_PARAM_set_octet_string p val 0 in
        let params' := OSSL_PARAM_assign params OSSL_SIGNATURE_PARAM_ALGORITHM_ID
                         (OSSL_PARAM_stored p (snd out)) in
        (fst out = 0 → dsa_get_ctx_params self (Some params) w = Some (0, Some params')) ∧
        (fst out ≠ 0 →
         ∃ z params'',
           dsa_get_ctx_params self (Some params) w = Some (z, Some params'') ∧
           OSSL_PARAM_locate params'' OSSL_SIGNATURE_PARAM_ALGORITHM_ID =
             Some (OSSL_PARAM_stored p (snd out)))) ∧
    (∀ ctx'' o f r'',
        same_but_aid ctx' ctx'' →
        fst (fst (ossl_dsa_signature_functions o self f ctx' r'')) =
        fst (fst (ossl_dsa_signature_functions o self f ctx'' r'')) ∧
        snd (ossl_dsa_signature_functions o self f ctx' r'') =
        snd (ossl_dsa_signature_functions o self f ctx'' r'') ∧
        same_but_aid (snd (fst (ossl_dsa_signature_functions o self f ctx' r'')))
                     (snd (fst (ossl_dsa_signature_functions o self f ctx'' r'')))).
Proof.
  intros Hfetch Hnid Hder.
  destruct (dsa_setup_md_bound self name mdprops ctx r m Hfetch Hnid)
    as (ctx' & Hbind & Hmd & _ & _ & _ & _ & _ & _ & _ & Haid).
  rewrite Hder in Haid. destruct Haid as (_ & Hptr & Hlen).
  exists ctx'. split; [exact Hbind|]. split; [exact Hmd|].
  split; [exact Hlen|]. split; [exact Hptr|]. split.
  - intros w params p Hctx Hp Hbytes val out params'.
    pose proof (OSSL_PARAM_locate_key _ _ _ Hp) as Hkey.
    assert (Hval : aid_bytes w ctx' = Some val).
    { subst val. unfold aid_bytes in *. rewrite Hlen, Hptr in *.
      destruct (aid ctx) as [[owner off]|]; [|reflexivity].
      destruct (ctxs w !! owner) as [c|]; simpl in *; [reflexivity|].
      destruct Hbytes as [? H]. discriminate. }
    unfold dsa_get_ctx_params. rewrite Hctx. simpl. rewrite Hp, Hval. simpl.
    rewrite Hlen. fold out.
    destruct out as [ok d] eqn:Hout. simpl in *. fold params'. split.
    + intros ->. reflexivity.
    + intros Hok. destruct (Z.eqb_spec ok 0) as [|_]; [contradiction|].
      assert (Hloc : OSSL_PARAM_locate params' OSSL_SIGNATURE_PARAM_ALGORITHM_ID =
                     Some (OSSL_PARAM_stored p d)).
      { subst params'. now apply OSSL_PARAM_locate_assign with p. }
      destruct (OSSL_PARAM_locate params' OSSL_SIGNATURE_PARAM_DIGEST) as [q|] eqn:Hq.
      * pose proof (OSSL_PARAM_locate_key _ _ _ Hq) as Hkq.
        destruct (OSSL_PARAM_set_utf8_string q (mdname ctx')) as [ok' d'].
        assert (Hloc' : OSSL_PARAM_locate
                          (OSSL_PARAM_assign params' OSSL_SIGNATURE_PARAM_DIGEST
                             (OSSL_PARAM_stored q d'))
                          OSSL_SIGNATURE_PARAM_ALGORITHM_ID = Some (OSSL_PARAM_stored p d)).
        { rewrite OSSL_PARAM_locate_assign_other; [exact Hloc|discriminate|exact Hkq]. }
        destruct (ok' =? 0); eauto.
      * eauto.
  - intros ctx'' o f r'' Hsame. now apply calls_ignore_aid.
Qed.

End Binding.

Section Streaming.
Context `{E : Externals}.

Lemma dsa_setup_md_keeps_flag self mdname' mdprops ctx r :
  flag_allow_md (snd (fst (dsa_setup_md self mdname' mdprops ctx r))) = flag_allow_md ctx.
Proof.
  unfold dsa_setup_md. destruct mdname'; [|reflexivity].
  repeat case_inner; reflexivity.
Qed.

(** A stream init that returns 1 leaves the context locked, with a stream
    primed for the bound digest. *)
Lemma dsa_digest_signverify_init_ok o self mdname' vdsa op ctx r ctx1 r1 :
  dsa_digest_signverify_init o self mdname' vdsa op ctx r = (1, ctx1, r1) →
  flag_allow_md ctx1 = false ∧ mdctx ctx1 = Some [MD_init (md ctx1)] ∧
  EVP_DigestInit_ex EVP_MD_CTX_new (md ctx1) ≠ 0.
Proof.
  unfold dsa_digest_signverify_init.
  destruct (ossl_prov_is_running o); simpl; [|discriminate].
  destruct (dsa_signverify_init o vdsa op (set_flag_allow_md false ctx) r)
    as [[ok1 c1] r1'] eqn:H1.
  assert (Hf1 : flag_allow_md c1 = false).
  { unfold dsa_signverify_init in H1. revert H1.
    repeat case_inner; intros H1; injection H1 as <- <- <-; reflexivity. }
  destruct (ok1 =? 0); [discriminate|].
  destruct (dsa_setup_md self mdname' None c1 r1') as [[ok2 c2] r2] eqn:H2.
  assert (Hf2 : flag_allow_md c2 = false).
  { pose proof (dsa_setup_md_keeps_flag self mdname' None c1 r1') as Hk.
    rewrite H2 in Hk. simpl in Hk. congruence. }
  destruct (ok2 =? 0); [discriminate|].
  destruct (EVP_MD_CTX_new_ok o); simpl; [|discriminate].
  destruct (Z.eqb_spec (EVP_DigestInit_ex EVP_MD_CTX_new (md c2)) 0); [discriminate|].
  intros H. injection H as <- <-. simpl. auto.
Qed.

(** On a locked context, the flag after a call of the table tells whether
    the call was a finalize that got past its guards. *)
Lemma call_on_locked o self f ctx r :
  flag_allow_md ctx = false →
  flag_allow_md (snd (fst (ossl_dsa_signature_functions o self f ctx r))) =
  releases_lock o f ctx.
Proof.
  intros Hflag. destruct ctx as [l pq d fl mn ab ai al m mc op]. simpl in Hflag. subst fl.
  destruct f; simpl;
    unfold dsa_sign_init, dsa_verify_init, dsa_digest_sign_init, dsa_digest_verify_init,
      dsa_digest_signverify_init, dsa_signverify_init, dsa_set_ctx_params, dsa_setup_md,
      dsa_digest_signverify_update, dsa_digest_sign_final,
      dsa_digest_verify_final, dsa_get_ctx_md_params, dsa_set_ctx_md_params,
      releases_lock; simpl;
    repeat case_inner; simpl; try reflexivity.
  all: repeat match goal with
       | H : EVP_DigestFinal_ex _ = _ |- _ => rewrite H; clear H
       | H : (_ =? 0) = _ |- _ => simpl; rewrite H; clear H
       end.
  all: destruct (ossl_prov_is_running o); simpl in *; try discriminate; reflexivity.
Qed.

(** A run of calls none of which releases the lock leaves the context
    locked. *)
Lemma lock_held_locked self cs : ∀ ctx r,
  flag_allow_md ctx = false →
  lock_held self cs ctx r = true →
  flag_allow_md (fst (run_calls self cs ctx r)) = false.
Proof.
  induction cs as [|[o f] cs IH]; intros ctx r Hflag Hheld; simpl in *; [exact Hflag|].
  apply andb_true_iff in Hheld. destruct Hheld as [Hrel Hheld].
  pose proof (call_on_locked o self f ctx r Hflag) as Hcall.
  destruct (ossl_dsa_signature_functions o self f ctx r) as [[a ctx'] r'].
  simpl in *. apply IH; [|exact Hheld].
  rewrite Hcall. now destruct (releases_lock o f ctx).
Qed.

(** C3 (amended). Digest lock.  A stream init that returned 1 leaves the
    context locked, and it stays locked through every run of calls none of
    which releases the lock.  On the locked context [dsa_set_ctx_params]
    with a digest name returns 0 and changes nothing; [dsa_setup_md] has no
    test of the lock and binds a digest that resolves and is approved.  A
    call of the table on the locked context leaves [flag_allow_md] set
    exactly when it is a finalize that got past its guards, whatever
    [dsa_sign] / [dsa_verify] then return; after such a call a request for
    a digest that resolves and is approved binds it and returns 1, and the
    context has no stream any more.  The size query of
    [dsa_digest_sign_final] is such a call, and leaves the stream as it
    was. *)
Theorem C3_digest_lock o self mdname' vdsa op ctx r ctx1 r1 mid :
  dsa_digest_signverify_init o self mdname' vdsa op ctx r = (1, ctx1, r1) →
  lock_held self mid ctx1 r1 = true →
  let ctx2 := fst (run_calls self mid ctx1 r1) in
  flag_allow_md ctx1 = false ∧ flag_allow_md ctx2 = false ∧
  (∀ params p r',
      OSSL_PARAM_locate params OSSL_SIGNATURE_PARAM_DIGEST = Some p →
      dsa_set_ctx_params self (Some params) ctx2 r' = (0, ctx2, r')) ∧
  (∀ name mdprops m r',
      EVP_MD_fetch (libctx ctx2) name (fetch_props ctx2 mdprops) = Some m →
      ossl_digest_get_approved_nid_with_sha1
        (Some m) (negb (operation_eqb (operation ctx2) EVP_PKEY_OP_SIGN)) ≠ NID_undef →
      ∃ ctx',
        dsa_setup_md self (Some name) mdprops ctx2 r' = (1, ctx', rebound ctx2 m r') ∧
        md ctx' = Some m ∧ flag_allow_md ctx' = false) ∧
  (∀ o' f r',
      let ctx3 := snd (fst (ossl_dsa_signature_functions o' self f ctx2 r')) in
      flag_allow_md ctx3 = releases_lock o' f ctx2 ∧
      (releases_lock o' f ctx2 = true →
       ∀ params name props m r'',
         digest_request params name props →
         EVP_MD_fetch (libctx ctx3) name (Some props) = Some m →
         ossl_digest_get_approved_nid_with_sha1
           (Some m) (negb (operation_eqb (operation ctx3) EVP_PKEY_OP_SIGN)) ≠ NID_undef →
         ∃ ctx4,
           dsa_set_ctx_params self (Some params) ctx3 r'' = (1, ctx4, rebound ctx3 m r'') ∧
           md ctx4 = Some m ∧ mdctx ctx4 = None)) ∧
  (∀ o' sigsize r' c,
      ossl_prov_is_running o' = true → mdctx ctx2 = Some c →
      let ctx3 := snd (fst (ossl_dsa_signature_functions o' self
                              (SIGNATURE_DIGEST_SIGN_FINAL false sigsize) ctx2 r')) in
      flag_allow_md ctx3 = true ∧ mdctx ctx3 = Some c).
Proof.
  intros Hinit Hheld ctx2.
  destruct (dsa_digest_signverify_init_ok _ _ _ _ _ _ _ _ _ Hinit) as (Hflag1 & _ & _).
  pose proof (lock_held_locked self mid ctx1 r1 Hflag1 Hheld) as Hflag2.
  fold ctx2 in Hflag2.
  split; [exact Hflag1|]. split; [exact Hflag2|].
  split; [|split; [|split]].
  - intros params p r' Hp. now apply dsa_set_ctx_params_locked with p.
  - intros name mdprops m r' Hfetch Hnid.
    destruct (dsa_setup_md_bound self name mdprops ctx2 r' m Hfetch Hnid)
      as (ctx' & Hbind & Hmd & _ & _ & _ & _ & _ & Hfl & _).
    exists ctx'. repeat split; auto. congruence.
  - intros o' f r' ctx3.
    pose proof (call_on_locked o' self f ctx2 r' Hflag2) as Hcall. fold ctx3 in Hcall.
    split; [exact Hcall|].
    intros Hrel params name props m r'' Hreq Hfetch Hnid.
    rewrite Hrel in Hcall.
    rewrite (dsa_set_ctx_params_unlocked self params name props ctx3 r'' Hcall Hreq).
    destruct (dsa_setup_md_bound self name (Some props) ctx3 r'' m Hfetch Hnid)
      as (ctx4 & Hbind & Hmd4 & Hmc4 & _).
    exists ctx4. auto.
  - intros o' sigsize r' c Hrun Hc ctx3. subst ctx3. simpl.
    unfold dsa_digest_sign_final. rewrite Hc, Hrun. simpl. auto.
Qed.

(** C9. The stream outlives the finalize.  After [dsa_digest_sign_final] or
    [dsa_digest_verify_final] has returned 1, [mdctx] still holds the
    stream, in the state the finalize left it in (with the digest value
    extracted, unless the call was a size query); no resource was released.
    [dsa_digest_signverify_update] then does not take its no-stream exit:
    it feeds the data to that stream and returns what [EVP_DigestUpdate]
    returns on it, which is 1 when the digest accepts the data. *)
Theorem C9_stream_survives_final o self sig sigsize vsig ctx r c data :
  mdctx ctx = Some c →
  let after_sign := dsa_digest_sign_final o sig sigsize ctx in
  let after_verify := dsa_digest_verify_final o vsig ctx in
  (fst (fst (fst after_sign)) = 1 →
   let c' := if sig then MD_final :: c else c in
   mdctx (snd after_sign) = Some c' ∧
   snd (ossl_dsa_signature_functions o self (SIGNATURE_DIGEST_SIGN_FINAL sig sigsize) ctx r) = r ∧
   dsa_digest_signverify_update data (snd after_sign) =
     (EVP_DigestUpdate c' data, set_mdctx (Some (MD_update data :: c')) (snd after_sign)) ∧
   (EVP_DigestUpdate c' data = 1 →
    fst (dsa_digest_signverify_update data (snd after_sign)) = 1)) ∧
  (fst after_verify = 1 →
   let c' := MD_final :: c in
   mdctx (snd after_verify) = Some c' ∧
   snd (ossl_dsa_signature_functions o self (SIGNATURE_DIGEST_VERIFY_FINAL vsig) ctx r) = r ∧
   dsa_digest_signverify_update data (snd after_verify) =
     (EVP_DigestUpdate c' data, set_mdctx (Some (MD_update data :: c')) (snd after_verify)) ∧
   (EVP_DigestUpdate c' data = 1 →
    fst (dsa_digest_signverify_update data (snd after_verify)) = 1)).
Proof.
  intros Hc after_sign after_verify. split.
  - subst after_sign. simpl.
    destruct (dsa_digest_sign_final o sig sigsize ctx) as [s ctx'] eqn:Hfin.
    simpl. intros Hret.
    assert (Hmd : mdctx ctx' = Some (if sig then MD_final :: c else c)).
    { unfold dsa_digest_sign_final in Hfin. rewrite Hc in Hfin. revert Hfin.
      destruct (ossl_prov_is_running o); simpl;
        [|intros H; injection H as <- <-; discriminate].
      destruct sig.
      - destruct (EVP_DigestFinal_ex c) as [ok digest].
        destruct (ok =? 0); intros H; injection H as <- <-; [discriminate|reflexivity].
      - intros H; injection H as <- <-; exact Hc. }
    unfold dsa_digest_signverify_update. rewrite Hmd. simpl.
    repeat split; auto.
  - subst after_verify. simpl.
    destruct (dsa_digest_verify_final o vsig ctx) as [z ctx'] eqn:Hfin.
    simpl. intros Hret.
    assert (Hmd : mdctx ctx' = Some (MD_final :: c)).
    { unfold dsa_digest_verify_final in Hfin. rewrite Hc in Hfin. revert Hfin.
      destruct (ossl_prov_is_running o); simpl;
        [|intros H; injection H as <- <-; discriminate].
      destruct (EVP_DigestFinal_ex c) as [ok digest].
      destruct (ok =? 0); intros H; injection H as <- <-; [discriminate|reflexivity]. }
    unfold dsa_digest_signverify_update. rewrite Hmd. simpl.
    repeat split; auto.
Qed.

(** C10. Size query through the finalize.  With the provider running and a
    stream in place, [dsa_digest_sign_final] without an output buffer
    returns 1 and stores [DSA_size] in [*siglen]; it does not call
    [EVP_DigestFinal_ex], so the stream is as it was; it sets [flag_allow_md]
    and changes no other field and no resource. *)
Theorem C10_final_size_query o self sigsize ctx r c :
  ossl_prov_is_running o = true →
  mdctx ctx = Some c →
  dsa_digest_sign_final o false sigsize ctx =
    ((1, None, Some (to_size_t (DSA_size (dsa ctx)))), set_flag_allow_md true ctx) ∧
  mdctx (snd (dsa_digest_sign_final o false sigsize ctx)) = Some c ∧
  flag_allow_md (snd (dsa_digest_sign_final o false sigsize ctx)) = true ∧
  ossl_dsa_signature_functions o self (SIGNATURE_DIGEST_SIGN_FINAL false sigsize) ctx r =
    (mkreply 1 None (Some (to_size_t (DSA_size (dsa ctx)))) None,
     set_flag_allow_md true ctx, r).
Proof.
  intros Hrun Hc.
  assert (H : dsa_digest_sign_final o false sigsize ctx =
              ((1, None, Some (to_size_t (DSA_size (dsa ctx)))), set_flag_allow_md true ctx)).
  { unfold dsa_digest_sign_final. rewrite Hc, Hrun. simpl.
    now rewrite dsa_sign_size_query. }
  simpl. rewrite H. simpl. auto.
Qed.

End Streaming.

Section Lifecycle.
Context `{E : Externals}.

Lemma call_keeps_stream_has_digest o self f ctx r :
  EVP_DigestInit_ex EVP_MD_CTX_new None = 0 →
  stream_has_digest ctx →
  stream_has_digest (snd (fst (ossl_dsa_signature_functions o self f ctx r))).
Proof.
  intros Hnull Hinv. unfold stream_has_digest in *.
  destruct ctx as [l pq d fl mn ab ai al m mc op]. simpl in Hinv.
  destruct f; simpl;
    unfold dsa_sign_init, dsa_verify_init, dsa_digest_sign_init, dsa_digest_verify_init,
      dsa_digest_signverify_init, dsa_signverify_init, dsa_set_ctx_params, dsa_setup_md,
      dsa_digest_signverify_update, dsa_digest_sign_final,
      dsa_digest_verify_final, dsa_get_ctx_md_params, dsa_set_ctx_md_params; simpl;
    repeat case_inner; simpl; eauto;
    try (intros [? ?]; discriminate).
  all: intros _;
    match goal with
    | H : (EVP_DigestInit_ex EVP_MD_CTX_new ?x =? 0) = false |- is_Some ?x =>
        destruct x; [eauto | rewrite Hnull in H; discriminate]
    end.
Qed.

Lemma dsa_dupctx_fill_copy o srcctx r dstctx r' :
  dsa_dupctx_fill o srcctx r = (true, dstctx, r') →
  dstctx = srcctx ∧
  r' = (match mdctx srcctx with Some _ => EVP_MD_CTX_allocated | None => λ r, r end)
         ((match md srcctx with Some m => EVP_MD_up_ref m | None => λ r, r end)
            ((match dsa srcctx with Some k => DSA_up_ref k | None => λ r, r end) r)).
Proof.
  unfold dsa_dupctx_fill. destruct srcctx as [l pq d fl mn ab ai al m mc op]. simpl.
  repeat case_inner; intros H; try discriminate; injection H as <- <-; auto.
Qed.

(** What the duplicate holds when [goto err] is taken is released in full by
    [dsa_freectx]. *)
Lemma dsa_dupctx_fill_err o srcctx r dstctx r' :
  dsa_dupctx_fill o srcctx r = (false, dstctx, r') →
  dsa_freectx dstctx r' = r.
Proof.
  unfold dsa_dupctx_fill. destruct srcctx as [l pq d fl mn ab ai al m mc op].
  destruct r as [dr mr lv eq]. simpl.
  repeat case_inner; intros H; try discriminate; injection H as <- <-;
    unfold dsa_freectx; simpl; rewrite ?ref_down_up; f_equal; lia.
Qed.

(** Duplication is all or nothing: a call that returns NULL leaves the
    world, contexts and resources, exactly as it found it. *)
Lemma dsa_dupctx_failure_atomic o p w w' :
  dsa_dupctx o p w = Some (None, w') → w' = w.
Proof.
  unfold dsa_dupctx. destruct w as [cs r]. simpl.
  destruct (ossl_prov_is_running o); simpl; [|intros H; now injection H as <-].
  destruct (OPENSSL_zalloc_ok o); simpl; [|intros H; now injection H as <-].
  destruct (cs !! p) as [srcctx|]; simpl; [|discriminate].
  destruct (dsa_dupctx_fill o srcctx r) as [[ok dstctx] r'] eqn:Hfill.
  destruct ok; [discriminate|].
  intros H. injection H as <-. f_equal. now apply dsa_dupctx_fill_err with o srcctx.
Qed.

(** A call that returns a duplicate has allocated it at a fresh address;
    each shared object has one more reference, one more stream is allocated
    if the source has one, and the duplicate equals the source field by
    field, the pointer [aid] included. *)
Lemma dsa_dupctx_success o p w d w' :
  dsa_dupctx o p w = Some (Some d, w') →
  ∃ srcctx,
    ctxs w !! p = Some srcctx ∧ ctxs w !! d = None ∧
    ctxs w' = <[d := srcctx]> (ctxs w) ∧
    dsa_refs (res w') =
      (match dsa srcctx with Some k => ref_up k | None => λ m, m end) (dsa_refs (res w)) ∧
    md_refs (res w') =
      (match md srcctx with Some m => ref_up m | None => λ m, m end) (md_refs (res w)) ∧
    live_mdctx (res w') =
      live_mdctx (res w) + (match mdctx srcctx with Some _ => 1 | None => 0 end) ∧
    err_queue (res w') = err_queue (res w).
Proof.
  unfold dsa_dupctx. destruct w as [cs r]. simpl.
  destruct (ossl_prov_is_running o); simpl; [|discriminate].
  destruct (OPENSSL_zalloc_ok o); simpl; [|discriminate].
  destruct (cs !! p) as [srcctx|] eqn:Hp; simpl; [|discriminate].
  destruct (dsa_dupctx_fill o srcctx r) as [[ok dstctx] r'] eqn:Hfill.
  destruct ok; [|discriminate].
  intros H. injection H as <- <-.
  apply dsa_dupctx_fill_copy in Hfill. destruct Hfill as [-> ->].
  exists srcctx. split; [reflexivity|]. split.
  { apply not_elem_of_dom. apply is_fresh. }
  simpl. split; [reflexivity|].
  destruct srcctx as [l pq k fl mn ab ai al m mc op]. destruct r as [dr mr lv eq].
  simpl. destruct k, m, mc; simpl; repeat split; lia.
Qed.

(** On a context that is allocated, [dsa_dupctx] returns: either NULL or a
    duplicate. *)
Lemma dsa_dupctx_defined o p w srcctx :
  ctxs w !! p = Some srcctx → is_Some (dsa_dupctx o p w).
Proof.
  intros Hp. unfold dsa_dupctx. rewrite Hp. simpl.
  destruct (dsa_dupctx_fill o srcctx (res w)) as [[ok dstctx] r'].
  repeat case_inner; eauto.
Qed.

(** The identifier of the duplicate is where the identifier of the source
    is: when the source's [aid] points into its own buffer, the duplicate's
    [aid] points into the buffer of the source, another context. *)
Lemma dsa_dupctx_aid_into_source o p w d w' srcctx off :
  dsa_dupctx o p w = Some (Some d, w') →
  ctxs w !! p = Some srcctx → aid srcctx = Some (p, off) →
  d ≠ p ∧ ∃ dstctx, ctxs w' !! d = Some dstctx ∧ aid dstctx = Some (p, off).
Proof.
  intros Hdup Hp Haid. apply dsa_dupctx_success in Hdup.
  destruct Hdup as (src & Hsrc & Hfresh & Hctxs & _).
  rewrite Hp in Hsrc. injection Hsrc as <-. split.
  - intros ->. rewrite Hp in Hfresh. discriminate.
  - exists srcctx. now rewrite Hctxs, lookup_insert_eq.
Qed.

(** In every world reached through the provider interface, a context that
    has a digest stream has a digest. *)
Lemma reachable_stream_has_digest w :
  EVP_DigestInit_ex EVP_MD_CTX_new None = 0 →
  reachable w →
  ∀ p c, ctxs w !! p = Some c → stream_has_digest c.
Proof.
  intros Hnull Hreach. induction Hreach as [r|w w' Hreach IH Hstep].
  - intros p c H. simpl in H. now rewrite lookup_empty in H.
  - destruct Hstep as [o provctx propq' w|p0 w w' Hfree|o p0 w d w' Hdup|o p0 f w a w' Hinv].
    + intros p c. unfold dsa_newctx.
      repeat case_inner; simpl; try apply IH;
        rewrite lookup_insert; case_decide; try apply IH;
        intros Hc; injection Hc as <-; intros [? ?]; discriminate.
    + unfold free_context in Hfree.
      destruct (ctxs w !! p0) as [c0|]; simpl in Hfree; [|discriminate].
      injection Hfree as <-. simpl. intros p c Hc.
      apply lookup_delete_Some in Hc. destruct Hc as [_ Hc]. now apply IH with p.
    + destruct d as [d|].
      * apply dsa_dupctx_success in Hdup.
        destruct Hdup as (srcctx & Hsrc & _ & -> & _).
        intros p c. rewrite lookup_insert. case_decide.
        -- intros Hc. injection Hc as <-. now apply IH with p0.
        -- apply IH.
      * apply dsa_dupctx_failure_atomic in Hdup. now subst.
    + unfold invoke in Hinv.
      destruct (ctxs w !! p0) as [ctx|] eqn:Hp0; simpl in Hinv; [|discriminate].
      pose proof (call_keeps_stream_has_digest o p0 f ctx (res w) Hnull (IH p0 ctx Hp0)) as Hk.
      destruct (ossl_dsa_signature_functions o p0 f ctx (res w)) as [[a' ctx'] r'].
      injection Hinv as <- <-. simpl. intros p c.
      rewrite lookup_insert. case_decide.
      * intros Hc. injection Hc as <-. exact Hk.
      * apply IH.
Qed.

(** C4 (amended). In every reachable state a context that has a digest
    stream has a digest, and every call of the table and the duplication
    preserve this, provided [EVP_DigestInit_ex] refuses to prime a new stream
    without a digest.  Nothing is said of [flag_allow_md]: a finalize leaves
    the stream in place and sets the flag. *)
Theorem C4_stream_has_digest :
  EVP_DigestInit_ex EVP_MD_CTX_new None = 0 →
  (∀ w, reachable w → ∀ p c, ctxs w !! p = Some c → stream_has_digest c) ∧
  (∀ o self f ctx r,
      stream_has_digest ctx →
      stream_has_digest (snd (fst (ossl_dsa_signature_functions o self f ctx r)))) ∧
  (∀ o p w d w' src dst,
      dsa_dupctx o p w = Some (Some d, w') →
      ctxs w !! p = Some src → ctxs w' !! d = Some dst →
      stream_has_digest src → stream_has_digest dst).
Proof.
  intros Hnull. split; [|split].
  - intros w Hreach. now apply reachable_stream_has_digest.
  - intros o self f ctx r. now apply call_keeps_stream_has_digest.
  - intros o p w d w' src dst Hdup Hsrc Hdst Hinv.
    apply dsa_dupctx_success in Hdup.
    destruct Hdup as (srcctx & Hsrc' & _ & Hctxs & _).
    rewrite Hctxs, lookup_insert_eq in Hdst.
    rewrite Hsrc in Hsrc'. injection Hsrc' as <-. injection Hdst as <-. exact Hinv.
Qed.

End Lifecycle.

(** * The properties on concrete runs *)

Lemma bytes_eqb_refl (b : list byte) : Toy.bytes_eqb b b = true.
Proof.
  induction b as [|x b IH]; simpl; [reflexivity|].
  rewrite IH. now destruct x.
Qed.

(** The key of the sample instance is valid: its signature of a message is
    the message, which its verification accepts. *)
Lemma toy_key_valid : DSA_key_valid (E := Toy.externals) Toy.key.
Proof.
  intros nonce tbs. simpl. split; [lia|]. now rewrite bytes_eqb_refl.
Qed.

(** The streaming signature of the sample instance is a run of the
    provider. *)
Lemma toy_w4_reachable : reachable (E := Toy.externals) Toy.w4.
Proof.
  apply reachable_step with Toy.w3; [apply reachable_step with Toy.w2;
    [apply reachable_step with Toy.w1; [apply reachable_step with Toy.world0|]|]|].
  - apply reachable_empty.
  - apply (step_newctx (E := Toy.externals) Toy.fine 0 None Toy.world0).
  - eapply (step_invoke (E := Toy.externals) Toy.fine 1%positive
              (SIGNATURE_DIGEST_SIGN_INIT (Some "SHA256"%string) (Some Toy.key))).
    vm_compute. reflexivity.
  - eapply (step_invoke (E := Toy.externals) Toy.fine 1%positive
              (SIGNATURE_DIGEST_SIGN_UPDATE Toy.abc)).
    vm_compute. reflexivity.
  - eapply (step_invoke (E := Toy.externals) Toy.fine 1%positive
              (SIGNATURE_DIGEST_SIGN_FINAL true 48)).
    vm_compute. reflexivity.
Qed.

(** C4, as stated, fails: after a streaming signature has been finalized the
    context at address 1 still has its digest stream, and [flag_allow_md] is
    set. *)
Lemma C4_stream_with_flag_set :
  reachable (E := Toy.externals) Toy.w4 ∧
  ctxs Toy.w4 !! 1%positive = Some Toy.ctx_after_final ∧
  is_Some (mdctx Toy.ctx_after_final) ∧
  flag_allow_md Toy.ctx_after_final = true.
Proof.
  split; [apply toy_w4_reachable|].
  split; [vm_compute; reflexivity|split; [eexists; reflexivity|reflexivity]].
Qed.

(** C5, as stated, fails: with SHA-256 bound, [dsa_verify] on an input of 3
    bytes and [dsa_verify] on an input of 32 bytes with a signature the
    primitive rejects hand back the same reply, 0, and leave the same
    context and resources. *)
Lemma C5_mismatch_looks_like_rejection :
  Z.of_nat (length Toy.short_input) ≠ dsa_get_md_size (E := Toy.externals) Toy.ctx_sha256 ∧
  Z.of_nat (length Toy.good_input) = dsa_get_md_size (E := Toy.externals) Toy.ctx_sha256 ∧
  DSA_verify (Externals := Toy.externals) Toy.good_input Toy.forged (dsa Toy.ctx_sha256) = 0 ∧
  dsa_verify (E := Toy.externals) Toy.fine Toy.ctx_sha256 Toy.forged Toy.short_input = 0 ∧
  dsa_verify (E := Toy.externals) Toy.fine Toy.ctx_sha256 Toy.forged Toy.good_input = 0 ∧
  ossl_dsa_signature_functions (E := Toy.externals) Toy.fine 1%positive
    (SIGNATURE_VERIFY Toy.forged Toy.short_input) Toy.ctx_sha256 (res Toy.world0) =
  ossl_dsa_signature_functions (E := Toy.externals) Toy.fine 1%positive
    (SIGNATURE_VERIFY Toy.forged Toy.good_input) Toy.ctx_sha256 (res Toy.world0).
Proof. vm_compute. repeat split; try reflexivity. discriminate. Qed.

(** C3, as stated, fails: the digest of a locked context changes before any
    signature is produced.  A streaming signature under SHA-256 is begun at
    address 1 and fed "abc".  On the locked context [dsa_setup_md] binds
    SHA-512 and returns 1.  Through the table, the size query of
    [dsa_digest_sign_final] returns 1 and 48, leaves the stream accumulating
    and sets [flag_allow_md]; [dsa_set_ctx_params] for SHA-512 then returns
    1 and the stream is gone, and the finalize that should produce the
    signature returns 0. *)
Lemma C3_digest_changes_before_finalize :
  let init := ossl_dsa_signature_functions (E := Toy.externals) Toy.fine 1%positive
                (SIGNATURE_DIGEST_SIGN_INIT (Some "SHA256"%string) (Some Toy.key))
                Toy.ctx_new (res Toy.world0) in
  let upd := ossl_dsa_signature_functions (E := Toy.externals) Toy.fine 1%positive
               (SIGNATURE_DIGEST_SIGN_UPDATE Toy.abc) (snd (fst init)) (snd init) in
  let ctx2 := snd (fst upd) in
  let bound := dsa_setup_md (E := Toy.externals) 1%positive (Some "SHA512"%string) None
                 ctx2 (snd upd) in
  let query := ossl_dsa_signature_functions (E := Toy.externals) Toy.fine 1%positive
                 (SIGNATURE_DIGEST_SIGN_FINAL false 0) ctx2 (snd upd) in
  let ctx3 := snd (fst query) in
  let request := ossl_dsa_signature_functions (E := Toy.externals) Toy.fine 1%positive
                   (SIGNATURE_SET_CTX_PARAMS (Some [Toy.digest_param "SHA512"]))
                   ctx3 (snd query) in
  let ctx4 := snd (fst request) in
  let last := ossl_dsa_signature_functions (E := Toy.externals) Toy.fine 1%positive
                (SIGNATURE_DIGEST_SIGN_FINAL true 48) ctx4 (snd request) in
  ret (fst (fst init)) = 1 ∧ ret (fst (fst upd)) = 1 ∧
  flag_allow_md ctx2 = false ∧ md ctx2 = Some Toy.sha256 ∧
  mdctx ctx2 = Some [MD_update Toy.abc; MD_init (Some Toy.sha256)] ∧
  fst (fst bound) = 1 ∧ md (snd (fst bound)) = Some Toy.sha512 ∧
  fst (fst query) = mkreply 1 None (Some 48) None ∧
  mdctx ctx3 = Some [MD_update Toy.abc; MD_init (Some Toy.sha256)] ∧
  flag_allow_md ctx3 = true ∧
  ret (fst (fst request)) = 1 ∧ md ctx4 = Some Toy.sha512 ∧ mdctx ctx4 = None ∧
  ret (fst (fst last)) = 0.
Proof. vm_compute. repeat split; reflexivity. Qed.

(** C6, as stated, fails: the absent identifier makes the parameter query
    itself fail.  On the context at address 1, initialised for signing, the
    digest SHA-512/256 is requested: it is on the allow-list and the
    encoder has no identifier for it, so the bind returns 1 with [aid] NULL
    and [aid_len] 0.  A query for "algorithm-id" and "digest" then returns 0
    and fills in neither, where a query for "digest" alone returns 1 with
    the name, and where the same query after a bind of SHA-256 returns 1
    with both. *)
Lemma C6_absent_identifier_fails_query :
  let bind := invoke (E := Toy.externals) Toy.fine 1%positive
                (SIGNATURE_SET_CTX_PARAMS (Some [Toy.digest_param "SHA2-512/256"])) Toy.v2 in
  let u3 := Toy.after Toy.fine 1%positive
              (SIGNATURE_SET_CTX_PARAMS (Some [Toy.digest_param "SHA2-512/256"])) Toy.v2 in
  (ret ∘ fst <$> bind) = Some 1 ∧
  (md <$> ctxs u3 !! 1%positive) = Some (Some Toy.sha512_256) ∧
  (aid_len <$> ctxs u3 !! 1%positive) = Some 0%nat ∧
  (aid <$> ctxs u3 !! 1%positive) = Some None ∧
  dsa_get_ctx_params (E := Toy.externals) 1%positive
    (Some [Toy.aid_param; Toy.digest_param ""]) u3 =
    Some (0, Some [Toy.aid_param; Toy.digest_param ""]) ∧
  dsa_get_ctx_params (E := Toy.externals) 1%positive (Some [Toy.digest_param ""]) u3 =
    Some (1, Some [mkparam OSSL_SIGNATURE_PARAM_DIGEST 4
                     (list_byte_of_string "SHA2-512/256") 12]) ∧
  dsa_get_ctx_params (E := Toy.externals) 1%positive
    (Some [Toy.aid_param; Toy.digest_param ""]) Toy.v3 =
    Some (1, Some [Toy.aid_reported [x30; x09; x02];
                   mkparam OSSL_SIGNATURE_PARAM_DIGEST 4 (list_byte_of_string "SHA256") 6]).
Proof. vm_compute. repeat split; reflexivity. Qed.

(** C7: the duplicate is not independent of its source.  [dsa_dupctx] on
    the context at address 1, bound to SHA-256, returns a duplicate at
    address 2 whose [aid] points into the buffer of the context at address
    1.  The duplicate reports the identifier of SHA-256 at first; once the
    source is bound to SHA-512 the duplicate, itself untouched and still
    bound to SHA-256, reports the identifier of SHA-512; once the source is
    freed, reading the identifier of the duplicate is undefined. *)
Theorem C7_duplicate_aliases_source_aid :
  dsa_dupctx Toy.fine 1%positive Toy.v3 = Some (Some 2%positive, Toy.v4) ∧
  (aid <$> ctxs Toy.v4 !! 1%positive) = Some (Some (1%positive, 5%nat)) ∧
  (aid <$> ctxs Toy.v4 !! 2%positive) = Some (Some (1%positive, 5%nat)) ∧
  dsa_get_ctx_params (E := Toy.externals) 2%positive (Some [Toy.aid_param]) Toy.v4 =
    Some (1, Some [Toy.aid_reported [x30; x09; x02]]) ∧
  ctxs Toy.v5 !! 2%positive = ctxs Toy.v4 !! 2%positive ∧
  (md <$> ctxs Toy.v5 !! 2%positive) = Some (Some Toy.sha256) ∧
  dsa_get_ctx_params (E := Toy.externals) 2%positive (Some [Toy.aid_param]) Toy.v5 =
    Some (1, Some [Toy.aid_reported [x30; x09; x03]]) ∧
  free_context 1%positive Toy.v4 = Some Toy.v6 ∧
  dsa_get_ctx_params (E := Toy.externals) 2%positive (Some [Toy.aid_param]) Toy.v6 = None.
Proof. vm_compute. repeat split; reflexivity. Qed.

(** C1 on the sample instance: a 32-byte input signed under SHA-256 and
    verified on the signing context and on a context with the key alone. *)
Lemma C1_sign_verify_round_trip_witness :
  DSA_key_valid (E := Toy.externals) Toy.key ∧
  Z.of_nat (length Toy.good_input) = dsa_get_md_size (E := Toy.externals) Toy.ctx_sha256 ∧
  ∃ sig,
    dsa_sign (E := Toy.externals) Toy.fine Toy.ctx_sha256 true 48 Toy.good_input =
      (1, Some sig, Some (Z.of_nat (length sig))) ∧
    dsa_verify (E := Toy.externals) Toy.fine Toy.ctx_sha256 sig Toy.good_input = 1 ∧
    dsa_verify (E := Toy.externals) Toy.fine Toy.ctx_verify sig Toy.good_input = 1.
Proof.
  split; [exact toy_key_valid|]. split; [reflexivity|].
  apply (C1_sign_verify_round_trip (E := Toy.externals) Toy.fine Toy.fine
           Toy.ctx_sha256 Toy.ctx_verify Toy.key Toy.sha256 48 Toy.good_input).
  - reflexivity.
  - reflexivity.
  - reflexivity.
  - exact toy_key_valid.
  - reflexivity.
  - reflexivity.
  - vm_compute. discriminate.
  - reflexivity.
  - right. reflexivity.
Defined.

Lemma toy_sha1_request :
  digest_request (E := Toy.externals) [Toy.digest_param "SHA1"] "SHA1" "".
Proof. eexists. repeat split; reflexivity. Qed.

(** C2 on the sample instance: SHA-1 requested on a context for
    verification and on one for signing. *)
Lemma C2_weak_digest_asymmetry_witness :
  (∃ ctx',
     dsa_set_ctx_params (E := Toy.externals) 1%positive
       (Some [Toy.digest_param "SHA1"]) Toy.ctx_verify (res Toy.world0) =
       (1, ctx', rebound Toy.ctx_verify Toy.sha1 (res Toy.world0)) ∧
     md ctx' = Some Toy.sha1) ∧
  dsa_set_ctx_params (E := Toy.externals) 1%positive
    (Some [Toy.digest_param "SHA1"]) Toy.ctx_sign (res Toy.world0) =
    (0, Toy.ctx_sign,
     mkres (dsa_refs (res Toy.world0)) ∅ 0 [PROV_R_DIGEST_NOT_ALLOWED]).
Proof.
  split.
  - destruct (C2_weak_digest_asymmetry (E := Toy.externals) 1%positive "SHA1" ""
                [Toy.digest_param "SHA1"] Toy.ctx_verify (res Toy.world0) Toy.sha1)
      as [Hverify _].
    + reflexivity.
    + reflexivity.
    + reflexivity.
    + exact toy_sha1_request.
    + destruct (Hverify eq_refl) as (ctx' & _ & Hset & Hmd). exists ctx'. auto.
  - destruct (C2_weak_digest_asymmetry (E := Toy.externals) 1%positive "SHA1" ""
                [Toy.digest_param "SHA1"] Toy.ctx_sign (res Toy.world0) Toy.sha1)
      as [_ Hsign].
    + reflexivity.
    + reflexivity.
    + reflexivity.
    + exact toy_sha1_request.
    + destruct (Hsign eq_refl) as [_ Hset]. exact Hset.
Defined.

Lemma toy_sha512_request :
  digest_request (E := Toy.externals) [Toy.digest_param "SHA512"] "SHA512" "".
Proof. eexists. repeat split; reflexivity. Qed.

(** C3 (amended) on the sample instance: a stream init for SHA-256 and one
    update; SHA-512 is refused; a finalize into a buffer of 47 bytes returns
    0 and releases the lock all the same, and SHA-512 is bound after it. *)
Lemma C3_digest_lock_witness :
  let init := dsa_digest_signverify_init (E := Toy.externals) Toy.fine 1%positive
                (Some "SHA256"%string) (Some Toy.key) EVP_PKEY_OP_SIGN
                Toy.ctx_new (res Toy.world0) in
  let mid := [(Toy.fine, SIGNATURE_DIGEST_SIGN_UPDATE Toy.abc)] in
  let ctx2 := fst (run_calls (E := Toy.externals) 1%positive mid
                     (snd (fst init)) (snd init)) in
  let last := ossl_dsa_signature_functions (E := Toy.externals) Toy.fine 1%positive
                (SIGNATURE_DIGEST_SIGN_FINAL true 47) ctx2 (res Toy.world0) in
  let ctx3 := snd (fst last) in
  fst (fst init) = 1 ∧
  lock_held (E := Toy.externals) 1%positive mid (snd (fst init)) (snd init) = true ∧
  dsa_set_ctx_params (E := Toy.externals) 1%positive
    (Some [Toy.digest_param "SHA512"]) ctx2 (res Toy.world0) = (0, ctx2, res Toy.world0) ∧
  ret (fst (fst last)) = 0 ∧
  flag_allow_md ctx3 = true ∧
  ∃ ctx4,
    dsa_set_ctx_params (E := Toy.externals) 1%positive
      (Some [Toy.digest_param "SHA512"]) ctx3 (res Toy.world0) =
      (1, ctx4, rebound ctx3 Toy.sha512 (res Toy.world0)) ∧
    md ctx4 = Some Toy.sha512 ∧ mdctx ctx4 = None.
Proof.
  intros init mid ctx2 last ctx3.
  destruct (C3_digest_lock (E := Toy.externals) Toy.fine 1%positive
              (Some "SHA256"%string) (Some Toy.key) EVP_PKEY_OP_SIGN
              Toy.ctx_new (res Toy.world0) (snd (fst init)) (snd init) mid)
    as (_ & _ & Hlocked & _ & Hcall & _).
  - vm_compute. reflexivity.
  - vm_compute. reflexivity.
  - split; [reflexivity|]. split; [vm_compute; reflexivity|].
    split; [apply (Hlocked [Toy.digest_param "SHA512"] (Toy.digest_param "SHA512")
                     (res Toy.world0) eq_refl)|].
    split; [vm_compute; reflexivity|].
    destruct (Hcall Toy.fine (SIGNATURE_DIGEST_SIGN_FINAL true 47) (res Toy.world0))
      as [Hflag Hbind].
    split; [etransitivity; [exact Hflag|vm_compute; reflexivity]|].
    apply (Hbind eq_refl _ "SHA512"%string ""%string Toy.sha512 _ toy_sha512_request).
    + reflexivity.
    + vm_compute. discriminate.
Defined.

(** C4 (amended) on the sample instance: the context left by the streaming
    signature has a stream, and a digest. *)
Lemma C4_stream_has_digest_witness :
  EVP_DigestInit_ex (Externals := Toy.externals) EVP_MD_CTX_new None = 0 ∧
  stream_has_digest Toy.ctx_after_final.
Proof.
  split; [reflexivity|].
  destruct (C4_stream_has_digest (E := Toy.externals) eq_refl) as [Hreach _].
  apply (Hreach Toy.w4 toy_w4_reachable 1%positive).
  vm_compute. reflexivity.
Defined.

(** C5 (amended) on the sample instance: a 3-byte input with SHA-256
    bound. *)
Lemma C5_size_mismatch_witness :
  dsa_get_md_size (E := Toy.externals) Toy.ctx_sha256 ≠ 0 ∧
  Z.of_nat (length Toy.short_input) ≠ dsa_get_md_size (E := Toy.externals) Toy.ctx_sha256 ∧
  dsa_sign (E := Toy.externals) Toy.fine Toy.ctx_sha256 true 48 Toy.short_input =
    (0, None, None) ∧
  dsa_verify (E := Toy.externals) Toy.fine Toy.ctx_sha256 Toy.forged Toy.short_input = 0.
Proof.
  split; [vm_compute; discriminate|]. split; [vm_compute; discriminate|].
  destruct (C5_size_mismatch (E := Toy.externals) Toy.fine Toy.ctx_sha256 Toy.sha256
              48 Toy.forged Toy.short_input) as (Hsign & Hverify & _).
  - reflexivity.
  - vm_compute. discriminate.
  - vm_compute. discriminate.
  - split; assumption.
Defined.

(** C6 (amended) on the sample instance: the encoder of the instance has
    no identifier for SHA-512/256; the digest is bound all the same on a
    context for signing, and a query for the identifier of that context,
    placed at address 1, returns 0. *)
Lemma C6_aid_encoding_failure_witness :
  ossl_DER_w_algorithmIdentifier_DSA_with_MD (Externals := Toy.externals)
    (aid_buf Toy.ctx_sign) (dsa Toy.ctx_sign) 1095 = (aid_buf Toy.ctx_sign, None) ∧
  ∃ ctx',
    dsa_setup_md (E := Toy.externals) 1%positive (Some "SHA2-512/256"%string) None
      Toy.ctx_sign (res Toy.world0) =
      (1, ctx', rebound Toy.ctx_sign Toy.sha512_256 (res Toy.world0)) ∧
    md ctx' = Some Toy.sha512_256 ∧ aid_len ctx' = 0%nat ∧
    dsa_get_ctx_params (E := Toy.externals) 1%positive
      (Some [Toy.aid_param; Toy.digest_param ""])
      (mkworld (<[1%positive := ctx']> ∅) (res Toy.world0)) =
      Some (0, Some [Toy.aid_param; Toy.digest_param ""]).
Proof.
  split; [reflexivity|].
  destruct (C6_aid_encoding_failure (E := Toy.externals) 1%positive "SHA2-512/256" None
              Toy.ctx_sign (res Toy.world0) Toy.sha512_256 (aid_buf Toy.ctx_sign))
    as (ctx' & Hbind & Hmd & Hlen & Hptr & Hget & _).
  - reflexivity.
  - vm_compute. discriminate.
  - reflexivity.
  - exists ctx'. split; [exact Hbind|]. split; [exact Hmd|]. split; [exact Hlen|].
    destruct (Hget (mkworld (<[1%positive := ctx']> ∅) (res Toy.world0))
                [Toy.aid_param; Toy.digest_param ""] Toy.aid_param) as [Hfail _].
    + apply lookup_insert_eq.
    + reflexivity.
    + unfold aid_bytes. rewrite Hptr. simpl. eauto.
    + rewrite Hfail; reflexivity.
Defined.

(** C8 on the sample instance: the size of a signature of the sample key
    is 48. *)
Lemma C8_size_query_witness :
  ossl_prov_is_running Toy.fine = true ∧
  dsa_sign (E := Toy.externals) Toy.fine Toy.ctx_sha256 false 0 [] = (1, None, Some 48) ∧
  dsa_sign (E := Toy.externals) Toy.fine Toy.ctx_sha256 true 47 Toy.good_input =
    (0, None, None) ∧
  fst (fst (dsa_sign (E := Toy.externals) Toy.fine Toy.ctx_sha256 true 48 Toy.good_input)) = 1.
Proof.
  split; [reflexivity|].
  destruct (C8_size_query (E := Toy.externals) Toy.fine Toy.ctx_sha256 0 [] eq_refl)
    as (Hquery & _ & Hbelow & Hat).
  split; [exact Hquery|]. split.
  - apply Hbelow. vm_compute. reflexivity.
  - apply Hat.
    + vm_compute. discriminate.
    + right. reflexivity.
    + vm_compute. reflexivity.
Defined.

(** C9 on the sample instance: an update after the finalize of the
    streaming signature. *)
Lemma C9_stream_survives_final_witness :
  let ctx' := snd (dsa_digest_sign_final (E := Toy.externals) Toy.fine true 48
                     Toy.ctx_accumulating) in
  mdctx Toy.ctx_accumulating = Some [MD_update Toy.abc; MD_init (Some Toy.sha256)] ∧
  mdctx ctx' = Some [MD_final; MD_update Toy.abc; MD_init (Some Toy.sha256)] ∧
  fst (dsa_digest_signverify_update (E := Toy.externals) Toy.abc ctx') = 1.
Proof.
  intros ctx'. split; [reflexivity|].
  destruct (C9_stream_survives_final (E := Toy.externals) Toy.fine 1%positive true 48 []
              Toy.ctx_accumulating (res Toy.world0)
              [MD_update Toy.abc; MD_init (Some Toy.sha256)] Toy.abc eq_refl)
    as [Hsign _].
  destruct Hsign as (Hmd & _ & _ & Hupd); [reflexivity|].
  split; [exact Hmd|]. apply Hupd. reflexivity.
Defined.

(** C10 on the sample instance: a size query in the middle of a streaming
    signature. *)
Lemma C10_final_size_query_witness :
  ossl_prov_is_running Toy.fine = true ∧
  mdctx Toy.ctx_accumulating = Some [MD_update Toy.abc; MD_init (Some Toy.sha256)] ∧
  dsa_digest_sign_final (E := Toy.externals) Toy.fine false 0 Toy.ctx_accumulating =
    ((1, None, Some 48), set_flag_allow_md true Toy.ctx_accumulating).
Proof.
  split; [reflexivity|]. split; [reflexivity|].
  apply (C10_final_size_query (E := Toy.externals) Toy.fine 1%positive 0
           Toy.ctx_accumulating (res Toy.world0)
           [MD_update Toy.abc; MD_init (Some Toy.sha256)] eq_refl eq_refl).
Defined.

(** * Further properties of the provider functions *)

Section Accounting.
Context `{E : Externals}.

Lemma ref_count_up k k' (m : gmap positive positive) :
  ref_count k (ref_up k' m) = ref_count k m + (if bool_decide (k = k') then 1 else 0).
Proof.
  unfold ref_count, ref_up. case_bool_decide as Hk.
  - subst. rewrite lookup_insert_eq. destruct (m !! k'); lia.
  - rewrite lookup_insert_ne by congruence. lia.
Qed.

Lemma ref_count_down k k' (m : gmap positive positive) :
  1 ≤ ref_count k' m →
  ref_count k (ref_down k' m) = ref_count k m - (if bool_decide (k = k') then 1 else 0).
Proof.
  unfold ref_count, ref_down. intros Hlive.
  destruct (m !! k') as [n|] eqn:Hk'; [|lia].
  case_bool_decide as Hk.
  - subst. rewrite Hk'.
    destruct (Pos.eq_dec n 1%positive) as [->|Hn].
    + rewrite lookup_delete_eq. lia.
    + assert (Hins : (match n with 1%positive => delete k' m | _ => <[k' := Pos.pred n]> m end)
                     = <[k' := Pos.pred n]> m) by (destruct n; congruence).
      rewrite Hins, lookup_insert_eq. lia.
  - destruct (Pos.eq_dec n 1%positive) as [->|Hn].
    + rewrite lookup_delete_ne by congruence. lia.
    + assert (Hins : (match n with 1%positive => delete k' m | _ => <[k' := Pos.pred n]> m end)
                     = <[k' := Pos.pred n]> m) by (destruct n; congruence).
      rewrite Hins, lookup_insert_ne by congruence. lia.
Qed.

Lemma ref_count_nonneg k (m : gmap positive positive) : 0 ≤ ref_count k m.
Proof. unfold ref_count. destruct (m !! k); lia. Qed.

End Accounting.

Section Lifetime.
Context `{E : Externals}.

(** The three cases of [dsa_newctx]. *)
Lemma dsa_newctx_result o provctx propq' w :
  let made := ossl_prov_is_running o && OPENSSL_zalloc_ok o &&
              (bool_decide (propq' = None) || OPENSSL_strdup_ok o) in
  let p := fst (dsa_newctx o provctx propq' w) in
  let w' := snd (dsa_newctx o provctx propq' w) in
  (is_Some p ↔ made = true) ∧
  (p = None →
   ctxs w' = ctxs w ∧ dsa_refs (res w') = dsa_refs (res w) ∧
   md_refs (res w') = md_refs (res w) ∧ live_mdctx (res w') = live_mdctx (res w) ∧
   err_queue (res w') =
     (if ossl_prov_is_running o && OPENSSL_zalloc_ok o
      then [ERR_R_MALLOC_FAILURE] else []) ++ err_queue (res w)) ∧
  (∀ a, p = Some a →
   ctxs w !! a = None ∧ res w' = res w ∧
   ctxs w' = <[a := set_propq propq' (set_flag_allow_md true
                       (set_libctx (PROV_LIBCTX_OF provctx) zalloc_ctx))]> (ctxs w)).
Proof.
  unfold dsa_newctx. destruct w as [cs r]. simpl.
  destruct (ossl_prov_is_running o), (OPENSSL_zalloc_ok o), propq' as [s|],
    (OPENSSL_strdup_ok o); simpl; repeat split;
    try (intros [? ?]; discriminate); try discriminate; try (intros; eauto; fail);
    try (intros a Ha; injection Ha as <-).
  all: try match goal with H : Some _ = Some _ |- _ => injection H as <- end.
  all: first [apply not_elem_of_dom, is_fresh | reflexivity].
Qed.

(** X1. [dsa_newctx] returns a context exactly when the provider runs,
    the allocation succeeds and the property query, if any, can be copied.
    The context sits at an address that held none, allows a change of
    digest, holds no key, digest, stream or identifier and a copy of the
    property query; the other contexts and the resources are as before.  A
    NULL return leaves every context as it was, and raises
    [ERR_R_MALLOC_FAILURE] when it is the copy of the property query that
    failed. *)
Theorem newctx_fresh_or_nothing o provctx propq' w :
  let made := ossl_prov_is_running o && OPENSSL_zalloc_ok o &&
              (bool_decide (propq' = None) || OPENSSL_strdup_ok o) in
  let p := fst (dsa_newctx o provctx propq' w) in
  let w' := snd (dsa_newctx o provctx propq' w) in
  (is_Some p ↔ made = true) ∧
  (p = None →
   ctxs w' = ctxs w ∧ dsa_refs (res w') = dsa_refs (res w) ∧
   md_refs (res w') = md_refs (res w) ∧ live_mdctx (res w') = live_mdctx (res w) ∧
   err_queue (res w') =
     (if ossl_prov_is_running o && OPENSSL_zalloc_ok o
      then [ERR_R_MALLOC_FAILURE] else []) ++ err_queue (res w)) ∧
  (∀ a, p = Some a →
   ctxs w !! a = None ∧ res w' = res w ∧
   ctxs w' = <[a := set_propq propq' (set_flag_allow_md true
                       (set_libctx (PROV_LIBCTX_OF provctx) zalloc_ctx))]> (ctxs w)).
Proof. apply dsa_newctx_result. Qed.

(** X2. [dsa_signverify_init] returns 0 and changes nothing when the key
    is NULL, the provider is stopped or the reference cannot be taken.
    Otherwise it installs the key and the operation before it checks the
    key: the context holds the new key and operation even when the check
    fails and 0 is returned with [PROV_R_INVALID_KEY_LENGTH].  The new key
    gains one reference and the key held before loses one, so that
    re-initialising with the key already held leaves every count as it
    was. *)
Theorem signverify_init_key_swap o vdsa op ctx r :
  (∀ k0, dsa ctx = Some k0 → 1 ≤ ref_count k0 (dsa_refs r)) →
  (vdsa = None ∨ ossl_prov_is_running o = false ∨ DSA_up_ref_ok o = false →
   dsa_signverify_init o vdsa op ctx r = (0, ctx, r)) ∧
  (∀ k, vdsa = Some k → ossl_prov_is_running o = true → DSA_up_ref_ok o = true →
   let checked := ossl_dsa_check_key k (operation_eqb op EVP_PKEY_OP_SIGN) in
   let r' := snd (dsa_signverify_init o vdsa op ctx r) in
   fst (dsa_signverify_init o vdsa op ctx r) =
     (if checked then 1 else 0, set_operation op (set_dsa (Some k) ctx)) ∧
   (∀ k', ref_count k' (dsa_refs r') =
          ref_count k' (dsa_refs r) + holds (Some k) k' - holds (dsa ctx) k') ∧
   (dsa ctx = Some k → dsa_refs r' = dsa_refs r) ∧
   md_refs r' = md_refs r ∧ live_mdctx r' = live_mdctx r ∧
   err_queue r' = (if checked then [] else [PROV_R_INVALID_KEY_LENGTH]) ++ err_queue r).
Proof.
  intros Hlive. split.
  - unfold dsa_signverify_init. intros [->|[Hrun|Href]]; [reflexivity| |];
      destruct vdsa; try reflexivity.
    + now rewrite Hrun.
    + rewrite Href. now rewrite orb_true_r.
  - intros k -> Hrun Href checked r'. subst r'. unfold dsa_signverify_init.
    rewrite Hrun, Href. simpl. fold checked.
    assert (Hcount : ∀ k', ref_count k' (dsa_refs (DSA_free (dsa ctx) (DSA_up_ref k r))) =
                ref_count k' (dsa_refs r) + holds (Some k) k' - holds (dsa ctx) k').
    { intros k'. unfold holds. destruct (dsa ctx) as [k0|] eqn:Hk0; simpl.
      - rewrite ref_count_down.
        + rewrite ref_count_up. repeat case_bool_decide; simplify_eq; lia.
        + rewrite ref_count_up. specialize (Hlive k0 eq_refl).
          case_bool_decide; lia.
      - rewrite ref_count_up. repeat case_bool_decide; simplify_eq; lia. }
    assert (Hsame : dsa ctx = Some k →
                    dsa_refs (DSA_free (dsa ctx) (DSA_up_ref k r)) = dsa_refs r).
    { intros ->. simpl. apply ref_down_up. }
    destruct checked; simpl; repeat split; auto;
      destruct (dsa ctx); reflexivity.
Qed.

(** X3. A bind that fails is without effect on the context and on the
    reference counts.  When [dsa_setup_md] returns 0 the context is the one
    it was given, with its digest and stream, the counts of keys, digests
    and streams are as before, and at least one reason was added to the
    error queue.  The same holds when [dsa_set_ctx_params] returns 0, except
    that it may have raised nothing. *)
Theorem failed_bind_changes_nothing self mdname' mdprops params ctx r :
  (fst (fst (dsa_setup_md self mdname' mdprops ctx r)) = 0 →
   let r' := snd (dsa_setup_md self mdname' mdprops ctx r) in
   snd (fst (dsa_setup_md self mdname' mdprops ctx r)) = ctx ∧
   dsa_refs r' = dsa_refs r ∧ md_refs r' = md_refs r ∧ live_mdctx r' = live_mdctx r ∧
   ∃ e errs, err_queue r' = e :: errs ++ err_queue r) ∧
  (fst (fst (dsa_set_ctx_params self params ctx r)) = 0 →
   let r' := snd (dsa_set_ctx_params self params ctx r) in
   snd (fst (dsa_set_ctx_params self params ctx r)) = ctx ∧
   dsa_refs r' = dsa_refs r ∧ md_refs r' = md_refs r ∧ live_mdctx r' = live_mdctx r).
Proof.
  assert (Hsetup : ∀ mdname' mdprops,
    fst (fst (dsa_setup_md self mdname' mdprops ctx r)) = 0 →
    snd (fst (dsa_setup_md self mdname' mdprops ctx r)) = ctx ∧
    dsa_refs (snd (dsa_setup_md self mdname' mdprops ctx r)) = dsa_refs r ∧
    md_refs (snd (dsa_setup_md self mdname' mdprops ctx r)) = md_refs r ∧
    live_mdctx (snd (dsa_setup_md self mdname' mdprops ctx r)) = live_mdctx r ∧
    ∃ e errs, err_queue (snd (dsa_setup_md self mdname' mdprops ctx r))
              = e :: errs ++ err_queue r).
  { clear. intros mdname' mdprops. unfold dsa_setup_md.
    destruct mdname' as [name|]; [|discriminate].
    destruct (EVP_MD_fetch (libctx ctx) name _) as [m|]; simpl.
    - destruct (ossl_digest_get_approved_nid_with_sha1 (Some m) _ =? NID_undef); simpl.
      + intros _.
        destruct (OSSL_MAX_NAME_SIZE <=? String.length name)%nat; simpl;
          rewrite ref_down_up; repeat split; eauto.
        * now exists PROV_R_INVALID_DIGEST, [PROV_R_DIGEST_NOT_ALLOWED].
        * now exists PROV_R_DIGEST_NOT_ALLOWED, [].
      + destruct (ossl_DER_w_algorithmIdentifier_DSA_with_MD _ _ _) as [buf [[? ?]|]];
          discriminate.
    - intros _.
      destruct (ossl_digest_get_approved_nid_with_sha1 None _ =? NID_undef),
        (OSSL_MAX_NAME_SIZE <=? String.length name)%nat; simpl; repeat split.
      + now exists PROV_R_INVALID_DIGEST, [PROV_R_DIGEST_NOT_ALLOWED; PROV_R_INVALID_DIGEST].
      + now exists PROV_R_DIGEST_NOT_ALLOWED, [PROV_R_INVALID_DIGEST].
      + now exists PROV_R_INVALID_DIGEST, [PROV_R_INVALID_DIGEST].
      + now exists PROV_R_INVALID_DIGEST, []. }
  split; [apply Hsetup|].
  unfold dsa_set_ctx_params.
  repeat case_inner; simpl;
    try (intros _; rewrite ?ref_down_up; repeat split; reflexivity);
    discriminate.
Qed.

End Lifetime.

Section Worlds.
Context `{E : Externals}.

(** A property of contexts that holds of a new context and is kept by every
    call of the table holds of every context of every reachable world:
    [dsa_dupctx] only adds a copy of a context, and [dsa_freectx] only
    removes one. *)
Lemma reachable_ctx_ind (P : PROV_DSA_CTX → Prop) :
  (∀ provctx propq',
      P (set_propq propq' (set_flag_allow_md true
           (set_libctx (PROV_LIBCTX_OF provctx) zalloc_ctx)))) →
  (∀ o self f ctx r, P ctx → P (snd (fst (ossl_dsa_signature_functions o self f ctx r)))) →
  ∀ w, reachable w → ∀ p c, ctxs w !! p = Some c → P c.
Proof.
  intros Hnew Hcall w Hreach. induction Hreach as [r|w w' Hreach IH Hstep].
  - intros p c H. simpl in H. now rewrite lookup_empty in H.
  - destruct Hstep as [o provctx propq' w|p0 w w' Hfree|o p0 w d w' Hdup|o p0 f w a w' Hinv].
    + destruct (dsa_newctx_result o provctx propq' w) as (_ & Hnone & Hsome).
      destruct (fst (dsa_newctx o provctx propq' w)) as [a|] eqn:Hp.
      * destruct (Hsome a eq_refl) as (_ & _ & ->). intros p c.
        rewrite lookup_insert. case_decide; [|apply IH].
        intros Hc. injection Hc as <-. apply Hnew.
      * destruct (Hnone eq_refl) as (-> & _). apply IH.
    + unfold free_context in Hfree.
      destruct (ctxs w !! p0) as [c0|]; simpl in Hfree; [|discriminate].
      injection Hfree as <-. simpl. intros p c Hc.
      apply lookup_delete_Some in Hc. destruct Hc as [_ Hc]. now apply IH with p.
    + destruct d as [d|].
      * apply dsa_dupctx_success in Hdup.
        destruct Hdup as (srcctx & Hsrc & _ & -> & _).
        intros p c. rewrite lookup_insert. case_decide; [|apply IH].
        intros Hc. injection Hc as <-. now apply IH with p0.
      * apply dsa_dupctx_failure_atomic in Hdup. now subst.
    + unfold invoke in Hinv.
      destruct (ctxs w !! p0) as [ctx|] eqn:Hp0; simpl in Hinv; [|discriminate].
      pose proof (Hcall o p0 f ctx (res w) (IH p0 ctx Hp0)) as Hk.
      destruct (ossl_dsa_signature_functions o p0 f ctx (res w)) as [[a' ctx'] r'].
      injection Hinv as <- <-. simpl. intros p c.
      rewrite lookup_insert. case_decide; [|apply IH].
      intros Hc. injection Hc as <-. exact Hk.
Qed.

Lemma length_substring_0 n : ∀ s, (String.length (substring 0 n s) ≤ n)%nat.
Proof.
  induction n as [|n IH]; intros [|c s]; simpl; try lia.
  specialize (IH s). lia.
Qed.

Lemma substring_0_all n : ∀ s, (String.length s ≤ n)%nat → substring 0 n s = s.
Proof.
  induction n as [|n IH]; intros [|c s]; simpl; intros Hlen; try reflexivity; try lia.
  rewrite IH; [reflexivity|lia].
Qed.

Lemma call_keeps_mdname_bound o self f ctx r :
  (String.length (mdname ctx) < OSSL_MAX_NAME_SIZE)%nat →
  (String.length (mdname (snd (fst (ossl_dsa_signature_functions o self f ctx r))))
   < OSSL_MAX_NAME_SIZE)%nat.
Proof.
  intros Hlen.
  assert (Hcpy : ∀ name, (String.length (OPENSSL_strlcpy (mdname ctx) name OSSL_MAX_NAME_SIZE)
                          < OSSL_MAX_NAME_SIZE)%nat).
  { intros name. unfold OPENSSL_strlcpy.
    destruct OSSL_MAX_NAME_SIZE as [|n]; [lia|].
    pose proof (length_substring_0 n name). lia. }
  destruct ctx as [l pq d fl mn ab ai al m mc op]. simpl in Hlen, Hcpy.
  destruct f; simpl;
    unfold dsa_sign_init, dsa_verify_init, dsa_digest_sign_init, dsa_digest_verify_init,
      dsa_digest_signverify_init, dsa_signverify_init, dsa_set_ctx_params, dsa_setup_md,
      dsa_digest_signverify_update, dsa_digest_sign_final,
      dsa_digest_verify_final, dsa_get_ctx_md_params, dsa_set_ctx_md_params; simpl;
    repeat case_inner; simpl; auto.
Qed.

(** X4. The digest name always fits its buffer: in every reachable world
    the [mdname] of every context is shorter than [OSSL_MAX_NAME_SIZE], the
    size of the array.  A name that is too long and still resolves is cut
    by [OPENSSL_strlcpy], not refused. *)
Theorem mdname_fits_buffer w :
  (0 < OSSL_MAX_NAME_SIZE)%nat →
  reachable w →
  ∀ p c, ctxs w !! p = Some c →
         (String.length (mdname c) < OSSL_MAX_NAME_SIZE)%nat.
Proof.
  intros Hsize. apply (reachable_ctx_ind
    (λ c, (String.length (mdname c) < OSSL_MAX_NAME_SIZE)%nat)).
  - intros provctx propq'. simpl. exact Hsize.
  - intros o self f ctx r. apply call_keeps_mdname_bound.
Qed.

(** X6. Creating a context and freeing it, or duplicating a context and
    freeing the duplicate, gives back the world as it was: the same
    contexts, reference counts, streams and error queue. *)
Theorem create_then_free_is_identity :
  (∀ o p w d w', dsa_dupctx o p w = Some (Some d, w') → free_context d w' = Some w) ∧
  (∀ o provctx propq' w a, fst (dsa_newctx o provctx propq' w) = Some a →
     free_context a (snd (dsa_newctx o provctx propq' w)) = Some w).
Proof.
  split.
  - intros o p w d w' Hdup. apply dsa_dupctx_success in Hdup.
    destruct Hdup as (src & _ & Hfresh & Hctxs & Hd & Hm & Hl & He).
    unfold free_context. rewrite Hctxs, lookup_insert_eq. simpl.
    rewrite delete_insert_id by exact Hfresh.
    destruct w as [cs r], w' as [cs' r']. simpl in *. f_equal. f_equal.
    destruct r as [dr mr lv eq], r' as [dr' mr' lv' eq']. simpl in *. subst.
    unfold dsa_freectx.
    destruct src as [l pq k fl mn ab ai al m mc op]. simpl.
    destruct k, m, mc; simpl; rewrite ?ref_down_up; f_equal; lia.
  - intros o provctx propq' w a Ha.
    destruct (dsa_newctx_result o provctx propq' w) as (_ & _ & Hsome).
    destruct (Hsome a Ha) as (Hfresh & Hres & Hctxs).
    unfold free_context. rewrite Hctxs, lookup_insert_eq. simpl.
    rewrite delete_insert_id by exact Hfresh.
    destruct w as [cs r]. simpl in *. now rewrite Hres.
Qed.

End Worlds.

Section StreamStates.
Context `{E : Externals}.

(** X7. Without a stream there is no streaming: on a context whose [mdctx]
    is NULL the update, both finalize calls and the two calls for the
    parameters of the digest return 0 and change neither the context nor
    the resources, whether or not the provider runs. *)
Theorem stream_calls_need_stream o self f ctx r :
  needs_stream f = true →
  mdctx ctx = None →
  ret (fst (fst (ossl_dsa_signature_functions o self f ctx r))) = 0 ∧
  sig_out (fst (fst (ossl_dsa_signature_functions o self f ctx r))) = None ∧
  siglen_out (fst (fst (ossl_dsa_signature_functions o self f ctx r))) = None ∧
  snd (fst (ossl_dsa_signature_functions o self f ctx r)) = ctx ∧
  snd (ossl_dsa_signature_functions o self f ctx r) = r.
Proof.
  intros Hf Hmd.
  destruct f; try discriminate; simpl;
    unfold dsa_digest_signverify_update, dsa_digest_sign_final, dsa_digest_verify_final,
      dsa_get_ctx_md_params, dsa_set_ctx_md_params;
    rewrite Hmd; simpl; auto.
Qed.

Lemma dsa_signverify_init_fields o vdsa op ctx r :
  let ctx' := snd (fst (dsa_signverify_init o vdsa op ctx r)) in
  flag_allow_md ctx' = flag_allow_md ctx ∧ md ctx' = md ctx ∧ mdctx ctx' = mdctx ctx ∧
  live_mdctx (snd (dsa_signverify_init o vdsa op ctx r)) = live_mdctx r ∧
  (fst (fst (dsa_signverify_init o vdsa op ctx r)) ≠ 0 → dsa ctx' = vdsa).
Proof.
  unfold dsa_signverify_init. destruct ctx as [l pq d fl mn ab ai al m mc o'], r.
  repeat case_inner; simpl; repeat split; auto; try (intros H; congruence);
    destruct d; reflexivity.
Qed.

Lemma dsa_setup_md_fields self mdname' mdprops ctx r :
  let res := dsa_setup_md self mdname' mdprops ctx r in
  dsa (snd (fst res)) = dsa ctx ∧
  (fst (fst res) = 0 ∨ fst (fst res) = 1) ∧
  (fst (fst res) = 0 → snd (fst res) = ctx) ∧
  (fst (fst res) = 1 →
   match mdname' with
   | Some _ => mdctx (snd (fst res)) = None ∧ is_Some (md (snd (fst res))) ∧
               live_mdctx (snd res) =
                 live_mdctx r - (if bool_decide (is_Some (mdctx ctx)) then 1 else 0)
   | None => snd (fst res) = ctx ∧ snd res = r
   end).
Proof.
  unfold dsa_setup_md. destruct ctx as [l pq d fl mn ab ai al [m|] [mc|] o'], r;
  (destruct mdname' as [name|]; simpl; [|auto]);
  repeat case_inner; simpl; repeat split; auto; try discriminate; eauto; try lia.
Qed.

(** X8. A stream init leaves the context locked whatever it returns, as
    soon as the provider runs.  When it returns 0 the digest and the stream
    are either the ones the context had or both NULL.  On the context it
    leaves, a request for a digest returns 0; and when it left no stream,
    no finalize can lift the lock: both return 0 and change nothing. *)
Theorem stream_init_locks_even_when_it_fails o self mdname' vdsa op ctx r :
  ossl_prov_is_running o = true →
  let res := dsa_digest_signverify_init o self mdname' vdsa op ctx r in
  let ctx' := snd (fst res) in
  flag_allow_md ctx' = false ∧
  (fst (fst res) = 0 ∨ fst (fst res) = 1) ∧
  (fst (fst res) = 0 →
   (md ctx' = md ctx ∧ mdctx ctx' = mdctx ctx) ∨ (md ctx' = None ∧ mdctx ctx' = None)) ∧
  (∀ params p r',
      OSSL_PARAM_locate params OSSL_SIGNATURE_PARAM_DIGEST = Some p →
      dsa_set_ctx_params self (Some params) ctx' r' = (0, ctx', r')) ∧
  (mdctx ctx' = None →
   ∀ o' sig sigsize vsig,
     dsa_digest_sign_final o' sig sigsize ctx' = ((0, None, None), ctx') ∧
     dsa_digest_verify_final o' vsig ctx' = (0, ctx')).
Proof.
  intros Hrun res ctx'.
  assert (H : flag_allow_md ctx' = false ∧
              (fst (fst res) = 0 ∨ fst (fst res) = 1) ∧
              (fst (fst res) = 0 →
               (md ctx' = md ctx ∧ mdctx ctx' = mdctx ctx) ∨
               (md ctx' = None ∧ mdctx ctx' = None))).
  { subst ctx' res. unfold dsa_digest_signverify_init. rewrite Hrun. simpl.
    destruct (dsa_signverify_init_fields o vdsa op (set_flag_allow_md false ctx) r)
      as (Hf1 & Hm1 & Hc1 & _).
    destruct (dsa_signverify_init o vdsa op (set_flag_allow_md false ctx) r)
      as [[ok1 c1] r1]. simpl in Hf1, Hm1, Hc1.
    pose proof (dsa_setup_md_keeps_flag self mdname' None c1 r1) as Hf2.
    destruct (dsa_setup_md_fields self mdname' None c1 r1) as (_ & _ & Hfail & _).
    destruct (dsa_setup_md self mdname' None c1 r1) as [[ok2 c2] r2].
    simpl in Hf2, Hfail.
    destruct (Z.eqb_spec ok1 0) as [->|_]; simpl; [auto|].
    destruct (Z.eqb_spec ok2 0) as [->|_]; simpl.
    { rewrite Hfail by reflexivity. auto. }
    destruct (EVP_MD_CTX_new_ok o); simpl.
    - destruct (EVP_DigestInit_ex EVP_MD_CTX_new (md c2) =? 0); simpl;
        repeat split; auto; try congruence.
    - repeat split; auto; congruence. }
  destruct H as (Hflag & Hret & Hfail).
  repeat split; auto.
  - intros params p r' Hp. now apply dsa_set_ctx_params_locked with p.
  - unfold dsa_digest_sign_final. now rewrite H.
  - unfold dsa_digest_verify_final. now rewrite H.
Qed.

(** X9. What a stream init that returns 1 does to the streams.  With a
    digest name the stream the context had is freed and a new one
    allocated.  Without a digest name a new stream is allocated and the one
    the context had is not freed: its address is overwritten, and one more
    stream stays allocated than contexts hold. *)
Theorem stream_init_stream_count o self mdname' vdsa op ctx r :
  fst (fst (dsa_digest_signverify_init o self mdname' vdsa op ctx r)) = 1 →
  live_mdctx (snd (dsa_digest_signverify_init o self mdname' vdsa op ctx r)) =
  live_mdctx r + 1 -
  match mdname' with
  | Some _ => if bool_decide (is_Some (mdctx ctx)) then 1 else 0
  | None => 0
  end.
Proof.
  unfold dsa_digest_signverify_init.
  destruct (ossl_prov_is_running o); simpl; [|discriminate].
  destruct (dsa_signverify_init_fields o vdsa op (set_flag_allow_md false ctx) r)
    as (_ & _ & Hc1 & Hl1 & _).
  destruct (dsa_signverify_init o vdsa op (set_flag_allow_md false ctx) r)
    as [[ok1 c1] r1]. simpl in Hc1, Hl1.
  destruct (dsa_setup_md_fields self mdname' None c1 r1) as (_ & Hret & _ & Hok).
  destruct (dsa_setup_md self mdname' None c1 r1) as [[ok2 c2] r2]. simpl in Hret, Hok.
  destruct (Z.eqb_spec ok1 0) as [->|_]; simpl; [discriminate|].
  destruct Hret as [->| ->]; simpl; [discriminate|].
  specialize (Hok eq_refl).
  destruct (EVP_MD_CTX_new_ok o); simpl; [|discriminate].
  destruct (EVP_DigestInit_ex EVP_MD_CTX_new (md c2) =? 0); simpl; [discriminate|].
  intros _. destruct mdname' as [name|].
  - destruct Hok as (_ & _ & ->). rewrite Hc1, Hl1. simpl. lia.
  - destruct Hok as [-> ->]. lia.
Qed.

Lemma feed_stream chunks : ∀ ctx c,
  mdctx ctx = Some c →
  feed chunks ctx = set_mdctx (Some (rev (map MD_update chunks) ++ c)) ctx.
Proof.
  induction chunks as [|data chunks IH]; intros ctx c Hc; simpl.
  - destruct ctx; simpl in *; now subst.
  - unfold dsa_digest_signverify_update. rewrite Hc. simpl.
    rewrite (IH _ (MD_update data :: c)) by reflexivity.
    rewrite <- app_assoc. simpl. now destruct ctx.
Qed.

Lemma dsa_digest_signverify_init_key o self mdname' vdsa op ctx r ctx1 r1 :
  dsa_digest_signverify_init o self mdname' vdsa op ctx r = (1, ctx1, r1) →
  dsa ctx1 = vdsa.
Proof.
  unfold dsa_digest_signverify_init.
  destruct (ossl_prov_is_running o); simpl; [|discriminate].
  destruct (dsa_signverify_init_fields o vdsa op (set_flag_allow_md false ctx) r)
    as (_ & _ & _ & _ & Hk).
  destruct (dsa_signverify_init o vdsa op (set_flag_allow_md false ctx) r)
    as [[ok1 c1] r1']. simpl in Hk.
  destruct (Z.eqb_spec ok1 0) as [->|Hok1]; simpl; [discriminate|].
  destruct (dsa_setup_md_fields self mdname' None c1 r1') as (Hd & _).
  destruct (dsa_setup_md self mdname' None c1 r1') as [[ok2 c2] r2]. simpl in Hd.
  destruct (ok2 =? 0); [discriminate|].
  destruct (EVP_MD_CTX_new_ok o); simpl; [|discriminate].
  destruct (EVP_DigestInit_ex EVP_MD_CTX_new (md c2) =? 0); simpl; [discriminate|].
  intros H. injection H as <- <-. simpl. rewrite Hd. now apply Hk.
Qed.

(** X10. Streaming round trip.  Take a context on which a stream init for
    signing returned 1 and one on which a stream init for verifying
    returned 1, with the same valid key and bound to the same digest, and
    feed both the same chunks.  If the digest value can be extracted and
    has the digest's size, [dsa_digest_sign_final] with a buffer of at
    least [DSA_size] bytes returns 1 with the signature the primitive gives
    for the digest value of the chunks, and [dsa_digest_verify_final] of
    that signature returns 1. *)
Theorem streaming_round_trip o1 o2 os ov self1 self2 name1 name2 k
    ctx1 r1 ctx2 r2 cs rs cv rv chunks sigsize :
  dsa_digest_sign_init o1 self1 name1 (Some k) ctx1 r1 = (1, cs, rs) →
  dsa_digest_verify_init o2 self2 name2 (Some k) ctx2 r2 = (1, cv, rv) →
  md cv = md cs →
  DSA_key_valid k →
  ossl_prov_is_running os = true →
  ossl_prov_is_running ov = true →
  let digest := EVP_DigestFinal_ex (fed_stream (md cs) chunks) in
  fst digest ≠ 0 →
  dsa_get_md_size cs = 0 ∨ Z.of_nat (length (snd digest)) = dsa_get_md_size cs →
  to_size_t (DSA_size (Some k)) ≤ sigsize →
  let sig := snd (ossl_dsa_sign_int (nonce os) (snd digest) (Some k)) in
  fst (dsa_digest_sign_final os true sigsize (feed chunks cs)) =
    (1, Some sig, Some (Z.of_nat (length sig))) ∧
  fst (dsa_digest_verify_final ov sig (feed chunks cv)) = 1.
Proof.
  intros Hs Hv Hmd Hvalid Hrs Hrv digest Hok Hsize Hcap sig.
  unfold dsa_digest_sign_init in Hs. unfold dsa_digest_verify_init in Hv.
  pose proof (dsa_digest_signverify_init_key _ _ _ _ _ _ _ _ _ Hs) as Hks.
  pose proof (dsa_digest_signverify_init_key _ _ _ _ _ _ _ _ _ Hv) as Hkv.
  destruct (dsa_digest_signverify_init_ok _ _ _ _ _ _ _ _ _ Hs) as (_ & Hcs & _).
  destruct (dsa_digest_signverify_init_ok _ _ _ _ _ _ _ _ _ Hv) as (_ & Hcv & _).
  rewrite (feed_stream chunks cs _ Hcs), (feed_stream chunks cv _ Hcv).
  rewrite Hmd. fold (fed_stream (md cs) chunks).
  destruct (Hvalid (nonce os) (snd digest)) as [Hpos Hver].
  unfold dsa_digest_sign_final, dsa_digest_verify_final. simpl.
  rewrite Hrs, Hrv. simpl. fold digest.
  destruct digest as [ok d] eqn:Hd. simpl in *.
  destruct (Z.eqb_spec ok 0) as [|_]; [contradiction|]. simpl. split.
  - rewrite dsa_sign_real; simpl; rewrite ?Hks; auto.
  - unfold dsa_verify. rewrite Hrv. simpl.
    replace (dsa_get_md_size (set_flag_allow_md true
               (set_mdctx (Some (MD_final :: fed_stream (md cs) chunks)) cv)))
      with (dsa_get_md_size cs) by (unfold dsa_get_md_size; simpl; now rewrite Hmd).
    rewrite size_check_passes by auto. now rewrite Hkv.
Qed.

End StreamStates.

Section Independence.
Context `{E : Externals}.

(** A call on two contexts that differ in [aid] alone: the replies are the
    same, the contexts still differ in [aid] alone, and either the call left
    the pointers alone, with the identifier as it was or of length 0, or it
    made each point into the buffer of its own context, at the same
    offset. *)
Lemma call_on_twins o self self' f a b r r' :
  set_aid (aid a) b = a →
  let a' := snd (fst (ossl_dsa_signature_functions o self f a r)) in
  let b' := snd (fst (ossl_dsa_signature_functions o self' f b r')) in
  fst (fst (ossl_dsa_signature_functions o self f a r)) =
  fst (fst (ossl_dsa_signature_functions o self' f b r')) ∧
  set_aid (aid a') b' = a' ∧
  ((aid a' = aid a ∧ aid b' = aid b ∧
    (aid_len a' = 0%nat ∨ (aid_len a' = aid_len a ∧ aid_buf a' = aid_buf a))) ∨
   (∃ curr, aid a' = Some (self, curr) ∧ aid b' = Some (self', curr))).
Proof.
  intros H. destruct a as [l pq d fl mn ab ai al m mc op].
  destruct b as [l' pq' d' fl' mn' ab' ai' al' m' mc' op'].
  unfold set_aid in H. simpl in H. injection H as -> -> -> -> -> -> -> -> -> ->.
  destruct f; simpl;
    unfold dsa_sign_init, dsa_verify_init, dsa_digest_sign_init, dsa_digest_verify_init,
      dsa_digest_signverify_init, dsa_signverify_init, dsa_set_ctx_params, dsa_setup_md,
      dsa_sign, dsa_verify, dsa_digest_signverify_update, dsa_digest_sign_final,
      dsa_digest_verify_final, dsa_get_ctx_md_params, dsa_set_ctx_md_params,
      dsa_get_md_size; simpl;
    repeat case_inner;
    (split; [reflexivity|split; [reflexivity|]]); eauto 6.
Qed.

(** The bytes [aid] leads to after a call that left the identifier as it
    was. *)
Lemma aid_bytes_insert w p c c' r :
  ctxs w !! p = Some c →
  aid c' = aid c → aid_len c' = aid_len c → aid_buf c' = aid_buf c →
  aid_bytes (mkworld (<[p := c']> (ctxs w)) r) c' = aid_bytes w c.
Proof.
  intros Hp Haid Hlen Hbuf. unfold aid_bytes. rewrite Haid, Hlen. simpl.
  destruct (aid c) as [[owner off]|]; [|reflexivity].
  rewrite lookup_insert. case_decide; [|reflexivity].
  subst owner. rewrite Hp. simpl. now rewrite Hbuf.
Qed.

(** The same after a call that set the length of the identifier to 0. *)
Lemma aid_bytes_insert_0 w p c c' r :
  ctxs w !! p = Some c →
  aid c' = aid c → aid_len c' = 0%nat →
  aid_bytes (mkworld (<[p := c']> (ctxs w)) r) c' =
  fmap (M := option) (fmap (M := option) (λ _ : list byte, @nil byte)) (aid_bytes w c).
Proof.
  intros Hp Haid Hlen. unfold aid_bytes. rewrite Haid, Hlen. simpl.
  destruct (aid c) as [[owner off]|]; [|reflexivity].
  rewrite lookup_insert. case_decide.
  - subst owner. rewrite Hp. reflexivity.
  - destruct (ctxs w !! owner); reflexivity.
Qed.

Lemma set_aid_fields a b :
  set_aid (aid a) b = a → aid_len b = aid_len a ∧ aid_buf b = aid_buf a ∧ mdname b = mdname a.
Proof. intros <-. destruct b. simpl. auto. Qed.

(** A request keeps twins twins, and gets the same reply from both. *)
Lemma serve_twins o p d q wp wd :
  twins p wp d wd →
  match serve o p q wp, serve o d q wd with
  | Some (a1, wp'), Some (a2, wd') => a1 = a2 ∧ twins p wp' d wd'
  | None, None => True
  | _, _ => False
  end.
Proof.
  intros (cp & cd & Hp & Hd & Hsame & Hbytes).
  destruct (set_aid_fields cp cd Hsame) as (Hlen & Hbuf & Hname).
  destruct q as [f|params]; simpl.
  - unfold invoke. rewrite Hp, Hd. simpl.
    pose proof (call_on_twins o p d f cp cd (res wp) (res wd) Hsame) as Hcall.
    destruct (ossl_dsa_signature_functions o p f cp (res wp)) as [[a1 cp'] r1].
    destruct (ossl_dsa_signature_functions o d f cd (res wd)) as [[a2 cd'] r2].
    simpl in Hcall. destruct Hcall as (Hrep & Hsame' & Haid).
    split; [exact Hrep|].
    destruct (set_aid_fields cp' cd' Hsame') as (Hlen' & Hbuf' & _).
    exists cp', cd'. simpl. rewrite !lookup_insert_eq.
    split; [reflexivity|]. split; [reflexivity|]. split; [exact Hsame'|].
    destruct Haid as [(Hap & Had & [H0|[Hl Hb]])|(curr & Hap & Had)].
    + rewrite (aid_bytes_insert_0 wp p cp cp' r1 Hp Hap H0).
      rewrite (aid_bytes_insert_0 wd d cd cd' r2 Hd Had) by congruence.
      now rewrite Hbytes.
    + rewrite (aid_bytes_insert wp p cp cp' r1 Hp Hap Hl Hb).
      rewrite (aid_bytes_insert wd d cd cd' r2 Hd Had) by congruence.
      exact Hbytes.
    + unfold aid_bytes. rewrite Hap, Had. simpl. rewrite !lookup_insert_eq. simpl.
      now rewrite Hlen', Hbuf'.
  - unfold dsa_get_ctx_params. rewrite Hp, Hd. simpl.
    destruct params as [params|]; simpl.
    + rewrite Hbytes, Hlen, Hname.
      destruct (match OSSL_PARAM_locate params OSSL_SIGNATURE_PARAM_ALGORITHM_ID with
                | Some _ => _ | None => _ end) as [[ok ps]|]; simpl; [|exact I].
      assert (Htw : twins p wp d wd) by (exists cp, cd; auto).
      destruct (ok =? 0); simpl; [auto|].
      destruct (OSSL_PARAM_locate ps OSSL_SIGNATURE_PARAM_DIGEST) as [q|]; simpl; [|auto].
      destruct (OSSL_PARAM_set_utf8_string q (mdname cp)) as [ok' dd].
      destruct (ok' =? 0); simpl; auto.
    + split; [reflexivity|]. exists cp, cd. auto.
Qed.

Lemma serve_all_twins qs : ∀ p d wp wd,
  twins p wp d wd → serve_all p qs wp = serve_all d qs wd.
Proof.
  induction qs as [|[o q] qs IH]; intros p d wp wd Htw; simpl; [reflexivity|].
  pose proof (serve_twins o p d q wp wd Htw) as Hs.
  destruct (serve o p q wp) as [[a1 wp']|], (serve o d q wd) as [[a2 wd']|];
    simpl; try contradiction; [|reflexivity].
  destruct Hs as [-> Htw']. now rewrite (IH p d wp' wd' Htw').
Qed.

(** A request on a context whose identifier can be read is answered, and
    the identifier can still be read afterwards. *)
Lemma serve_defined o p q w c :
  ctxs w !! p = Some c → is_Some (aid_bytes w c) →
  ∃ a w' c', serve o p q w = Some (a, w') ∧
             ctxs w' !! p = Some c' ∧ is_Some (aid_bytes w' c').
Proof.
  intros Hp Hbytes. destruct q as [f|params]; simpl.
  - unfold invoke. rewrite Hp. simpl.
    assert (Hsame : set_aid (aid c) c = c) by now destruct c.
    pose proof (call_on_twins o p p f c c (res w) (res w) Hsame) as Hcall.
    destruct (ossl_dsa_signature_functions o p f c (res w)) as [[a c'] r'].
    simpl in Hcall. destruct Hcall as (_ & _ & Haid).
    exists a, (mkworld (<[p := c']> (ctxs w)) r'), c'.
    split; [reflexivity|]. simpl. rewrite lookup_insert_eq. split; [reflexivity|].
    destruct Haid as [(Hap & _ & [H0|[Hl Hb]])|(curr & Hap & _)].
    + rewrite (aid_bytes_insert_0 w p c c' r' Hp Hap H0).
      destruct Hbytes as [b ->]. simpl. eauto.
    + now rewrite (aid_bytes_insert w p c c' r' Hp Hap Hl Hb).
    + unfold aid_bytes. rewrite Hap. simpl. rewrite lookup_insert_eq. simpl. eauto.
  - unfold dsa_get_ctx_params. rewrite Hp. simpl.
    destruct Hbytes as [b Hb].
    destruct params as [params|]; simpl; [|eauto 6].
    rewrite Hb. simpl.
    destruct (OSSL_PARAM_locate params OSSL_SIGNATURE_PARAM_ALGORITHM_ID) as [q|]; simpl.
    + destruct (OSSL_PARAM_set_octet_string q b (aid_len c)) as [ok dd]. simpl.
      destruct (ok =? 0); simpl; [eauto 6|].
      destruct (OSSL_PARAM_locate _ OSSL_SIGNATURE_PARAM_DIGEST) as [q'|]; simpl; [|eauto 6].
      destruct (OSSL_PARAM_set_utf8_string q' (mdname c)) as [ok' dd'].
      destruct (ok' =? 0); simpl; eauto 6.
    + destruct (OSSL_PARAM_locate params OSSL_SIGNATURE_PARAM_DIGEST) as [q'|]; simpl; [|eauto 6].
      destruct (OSSL_PARAM_set_utf8_string q' (mdname c)) as [ok' dd'].
      destruct (ok' =? 0); simpl; eauto 6.
Qed.

Lemma serve_all_defined qs : ∀ p w c,
  ctxs w !! p = Some c → is_Some (aid_bytes w c) → is_Some (serve_all p qs w).
Proof.
  induction qs as [|[o q] qs IH]; intros p w c Hp Hbytes; simpl; [eauto|].
  destruct (serve_defined o p q w c Hp Hbytes) as (a & w' & c' & -> & Hp' & Hbytes').
  simpl. destruct (IH p w' c' Hp' Hbytes') as [rest ->]. simpl. eauto.
Qed.

(** X11. A new duplicate answers like its source.  From the world in which
    [dsa_dupctx] has just returned a duplicate, any sequence of requests
    (the calls of the table that work on a context, and
    [dsa_get_ctx_params]) made on the duplicate gets the replies the same
    sequence gets when it is made on the source instead: return values,
    signatures, lengths and parameters, the identifier included.  The
    requests are all answered when the identifier of the source could be
    read before the duplication.  Nothing is said of requests on the
    duplicate after the source has been changed or freed. *)
Theorem duplicate_answers_like_source o p w d w' qs :
  dsa_dupctx o p w = Some (Some d, w') →
  serve_all d qs w' = serve_all p qs w' ∧
  ((∀ src, ctxs w !! p = Some src → is_Some (aid_bytes w src)) →
   is_Some (serve_all d qs w')).
Proof.
  intros Hdup. apply dsa_dupctx_success in Hdup.
  destruct Hdup as (src & Hsrc & Hfresh & Hctxs & _).
  assert (Hd : ctxs w' !! d = Some src) by now rewrite Hctxs, lookup_insert_eq.
  split.
  - symmetry. apply serve_all_twins. exists src, src.
    rewrite Hd, Hctxs, lookup_insert_ne by congruence.
    repeat split; auto. now destruct src.
  - intros Hread. apply serve_all_defined with src; [exact Hd|].
    destruct (Hread src Hsrc) as [b Hb]. unfold aid_bytes in *. rewrite Hctxs.
    destruct (aid src) as [[owner off]|]; [|eauto].
    rewrite lookup_insert. case_decide; [simpl; eauto|].
    rewrite Hb. eauto.
Qed.

End Independence.

Section Parameters.
Context `{E : Externals}.

(** X12. [dsa_get_ctx_params] answers in place and touches nothing else.
    When it returns, to an array, it returns 0 or 1 and hands back an array
    with the same keys and the same data types in the same order, in which
    every element whose key is neither "algorithm-id" nor "digest" is as it
    was.  Without an array it returns 0. *)
Theorem get_ctx_params_in_place p params w z out :
  dsa_get_ctx_params p params w = Some (z, out) →
  (z = 0 ∨ z = 1) ∧
  match params with
  | None => z = 0 ∧ out = None
  | Some params =>
    ∃ params', out = Some params' ∧
      map key params' = map key params ∧
      map data_type params' = map data_type params ∧
      ∀ (i : nat) q, params !! i = Some q →
        key q ≠ OSSL_SIGNATURE_PARAM_ALGORITHM_ID →
        key q ≠ OSSL_SIGNATURE_PARAM_DIGEST →
        params' !! i = Some q
  end.
Proof.
  unfold dsa_get_ctx_params.
  destruct (ctxs w !! p) as [ctx|]; simpl; [|discriminate].
  destruct params as [params|]; [|intros H; injection H as <- <-; auto].
  set (A := OSSL_SIGNATURE_PARAM_ALGORITHM_ID). set (D := OSSL_SIGNATURE_PARAM_DIGEST).
  assert (HAD : A ≠ D) by discriminate.
  (* the array after the first step *)
  assert (Hstep1 : ∀ ok ps,
    match OSSL_PARAM_locate params A with
    | None => Some (1, params)
    | Some q =>
        aid_bytes w ctx ≫= λ val,
          let '(ok, d) := OSSL_PARAM_set_octet_string q val (aid_len ctx) in
          Some (ok, OSSL_PARAM_assign params A (OSSL_PARAM_stored q d))
    end = Some (ok, ps) →
    map key ps = map key params ∧ map data_type ps = map data_type params ∧
    OSSL_PARAM_locate ps D = OSSL_PARAM_locate params D ∧
    ∀ (i : nat) q, params !! i = Some q → key q ≠ A → ps !! i = Some q).
  { intros ok ps. destruct (OSSL_PARAM_locate params A) as [q|] eqn:Hq.
    - destruct (aid_bytes w ctx) as [val|]; simpl; [|discriminate].
      destruct (OSSL_PARAM_set_octet_string q val (aid_len ctx)) as [ok' d].
      intros H. injection H as <- <-.
      pose proof (OSSL_PARAM_locate_key _ _ _ Hq) as Hk.
      repeat split.
      + now apply OSSL_PARAM_assign_keys.
      + now apply OSSL_PARAM_assign_types with q.
      + now apply OSSL_PARAM_locate_assign_other.
      + intros i q' Hi Hne. now apply OSSL_PARAM_assign_other.
    - intros H. injection H as <- <-. auto. }
  destruct (match OSSL_PARAM_locate params A with
            | None => Some (1, params)
            | Some q => _ end) as [[ok ps]|] eqn:H1; simpl; [|discriminate].
  destruct (Hstep1 ok ps eq_refl) as (Hkeys & Htypes & HlocD & Hother).
  destruct (ok =? 0).
  { intros H. injection H as <- <-. split; [auto|]. exists ps. auto. }
  destruct (OSSL_PARAM_locate ps D) as [q|] eqn:Hq.
  - pose proof (OSSL_PARAM_locate_key _ _ _ Hq) as Hk.
    destruct (OSSL_PARAM_set_utf8_string q (mdname ctx)) as [ok' d].
    assert (Hfin : ∀ z', Some (z', Some (OSSL_PARAM_assign ps D (OSSL_PARAM_stored q d)))
                         = Some (z, out) →
       ∃ params', out = Some params' ∧ map key params' = map key params ∧
         map data_type params' = map data_type params ∧
         ∀ (i : nat) q0, params !! i = Some q0 → key q0 ≠ A → key q0 ≠ D →
                         params' !! i = Some q0).
    { intros z' H. injection H as _ <-. eexists. split; [reflexivity|].
      rewrite OSSL_PARAM_assign_keys by exact Hk.
      rewrite (OSSL_PARAM_assign_types D _ ps q Hq) by reflexivity.
      repeat split; auto.
      intros i q0 Hi HneA HneD. apply OSSL_PARAM_assign_other; auto. }
    destruct (ok' =? 0); intros H; (split; [injection H as <- _; auto|]);
      now apply Hfin in H.
  - intros H. injection H as <- <-. split; [auto|]. exists ps. auto.
Qed.

Lemma dsa_setup_md_mdname self name mdprops ctx r :
  fst (fst (dsa_setup_md self (Some name) mdprops ctx r)) = 1 →
  mdname (snd (fst (dsa_setup_md self (Some name) mdprops ctx r))) =
  OPENSSL_strlcpy (mdname ctx) name OSSL_MAX_NAME_SIZE.
Proof.
  unfold dsa_setup_md. repeat case_inner; simpl; auto; discriminate.
Qed.

(** X13. The digest name set is the digest name read.  After
    [dsa_set_ctx_params] has returned 1 for a request of the digest [name],
    [mdname] holds [name] when it is shorter than [OSSL_MAX_NAME_SIZE], and
    its first [OSSL_MAX_NAME_SIZE - 1] characters otherwise; and
    [dsa_get_ctx_params] asked for "digest" passes that string to
    [OSSL_PARAM_set_utf8_string] and returns 1 unless that setter fails. *)
Theorem digest_name_set_then_get self params name props ctx r ctx' r' :
  dsa_set_ctx_params self (Some params) ctx r = (1, ctx', r') →
  digest_request params name props →
  mdname ctx' = OPENSSL_strlcpy (mdname ctx) name OSSL_MAX_NAME_SIZE ∧
  ((String.length name < OSSL_MAX_NAME_SIZE)%nat → mdname ctx' = name) ∧
  (∀ w q, ctxs w !! self = Some ctx' →
          key q = OSSL_SIGNATURE_PARAM_DIGEST →
          dsa_get_ctx_params self (Some [q]) w =
          Some (let '(ok, d) := OSSL_PARAM_set_utf8_string q (mdname ctx') in
                (if ok =? 0 then 0 else 1, Some [OSSL_PARAM_stored q d]))).
Proof.
  intros Hset Hreq.
  assert (Hflag : flag_allow_md ctx = true).
  { destruct Hreq as (p & Hp & _). unfold dsa_set_ctx_params in Hset.
    rewrite Hp in Hset. destruct (flag_allow_md ctx); [reflexivity|discriminate]. }
  rewrite (dsa_set_ctx_params_unlocked self params name props ctx r Hflag Hreq) in Hset.
  assert (Hname : mdname ctx' = OPENSSL_strlcpy (mdname ctx) name OSSL_MAX_NAME_SIZE).
  { pose proof (dsa_setup_md_mdname self name (Some props) ctx r) as H.
    rewrite Hset in H. now apply H. }
  split; [exact Hname|]. split.
  - intros Hlen. rewrite Hname. unfold OPENSSL_strlcpy.
    destruct OSSL_MAX_NAME_SIZE as [|n]; [lia|].
    apply substring_0_all. lia.
  - intros w q Hctx Hkey. unfold dsa_get_ctx_params. rewrite Hctx. simpl.
    unfold OSSL_PARAM_locate. simpl. rewrite Hkey. simpl. rewrite Hkey. simpl.
    destruct (OSSL_PARAM_set_utf8_string q (mdname ctx')) as [ok d].
    destruct (ok =? 0); reflexivity.
Qed.

(** X14. The identifier written is the identifier read.  After a bind at
    the address [self] during which the encoder wrote [written] bytes at
    the offset [curr] of the buffer, [dsa_get_ctx_params] asked for
    "algorithm-id" on the context at [self] passes exactly those bytes of
    [aid_buf], and their number, to [OSSL_PARAM_set_octet_string]. *)
Theorem algorithm_id_set_then_get self name mdprops ctx r m buf curr written :
  EVP_MD_fetch (libctx ctx) name (fetch_props ctx mdprops) = Some m →
  ossl_digest_get_approved_nid_with_sha1
    (Some m) (negb (operation_eqb (operation ctx) EVP_PKEY_OP_SIGN)) ≠ NID_undef →
  ossl_DER_w_algorithmIdentifier_DSA_with_MD (aid_buf ctx) (dsa ctx)
    (ossl_digest_get_approved_nid_with_sha1
       (Some m) (negb (operation_eqb (operation ctx) EVP_PKEY_OP_SIGN)))
    = (buf, Some (curr, written)) →
  let ctx' := snd (fst (dsa_setup_md self (Some name) mdprops ctx r)) in
  fst (fst (dsa_setup_md self (Some name) mdprops ctx r)) = 1 ∧
  aid_buf ctx' = buf ∧ aid_len ctx' = written ∧
  ∀ w q, ctxs w !! self = Some ctx' →
         key q = OSSL_SIGNATURE_PARAM_ALGORITHM_ID →
         dsa_get_ctx_params self (Some [q]) w =
         Some (let '(ok, d) := OSSL_PARAM_set_octet_string q
                                 (Some (take written (drop curr buf))) written in
               (if ok =? 0 then 0 else 1, Some [OSSL_PARAM_stored q d])).
Proof.
  intros Hfetch Hnid Hder ctx'.
  destruct (dsa_setup_md_bound self name mdprops ctx r m Hfetch Hnid)
    as (c & Hbind & _ & _ & _ & _ & _ & _ & _ & _ & Haid).
  subst ctx'. rewrite Hbind. simpl.
  rewrite Hder in Haid. destruct Haid as (Hbuf & Hptr & Hlen).
  repeat split; auto.
  intros w q Hctx Hkey. unfold dsa_get_ctx_params. rewrite Hctx. simpl.
  unfold OSSL_PARAM_locate. simpl. rewrite Hkey. simpl.
  unfold aid_bytes. rewrite Hptr. simpl. rewrite Hctx. simpl. rewrite Hbuf, Hlen.
  destruct (OSSL_PARAM_set_octet_string q _ written) as [ok d]. simpl.
  rewrite Hkey. simpl. destruct (ok =? 0); reflexivity.
Qed.

End Parameters.

Section References.
Context `{E : Externals}.

Lemma holders_nonneg sel k cs : 0 ≤ holders sel k cs.
Proof. unfold holders. lia. Qed.

Lemma holders_empty sel k : holders sel k ∅ = 0.
Proof. unfold holders. now rewrite map_filter_empty, map_size_empty. Qed.

Lemma holders_insert_fresh sel k cs p c :
  cs !! p = None →
  holders sel k (<[p := c]> cs) = holders sel k cs + holds (sel c) k.
Proof.
  intros Hp. unfold holders, holds. case_bool_decide as Hc.
  - rewrite map_filter_insert_True by exact Hc.
    rewrite map_size_insert_None; [lia|].
    apply map_lookup_filter_None. now left.
  - rewrite map_filter_insert_False by exact Hc.
    rewrite delete_id by exact Hp. lia.
Qed.

Lemma holders_delete sel k cs p c :
  cs !! p = Some c →
  holders sel k (delete p cs) = holders sel k cs - holds (sel c) k.
Proof.
  intros Hp. unfold holders, holds. rewrite map_filter_delete, map_size_delete.
  case_bool_decide as Hc.
  - assert (Hf : filter (λ pc : positive * PROV_DSA_CTX, sel pc.2 = Some k) cs !! p = Some c)
      by (apply map_lookup_filter_Some; auto).
    rewrite Hf.
    assert (size (filter (λ pc : positive * PROV_DSA_CTX, sel pc.2 = Some k) cs) ≠ 0%nat)
      by (apply map_size_ne_0_lookup; eauto).
    lia.
  - assert (Hf : filter (λ pc : positive * PROV_DSA_CTX, sel pc.2 = Some k) cs !! p = None).
    { apply map_lookup_filter_None. right. intros c' Hc'. simpl. congruence. }
    rewrite Hf. simpl. lia.
Qed.

Lemma holders_insert sel k cs p c c' :
  cs !! p = Some c →
  holders sel k (<[p := c']> cs) = holders sel k cs - holds (sel c) k + holds (sel c') k.
Proof.
  intros Hp. rewrite <- insert_delete_eq.
  rewrite holders_insert_fresh by apply lookup_delete_eq.
  now rewrite (holders_delete sel k cs p c Hp).
Qed.

Lemma holders_ge sel k cs p c :
  cs !! p = Some c → sel c = Some k → 1 ≤ holders sel k cs.
Proof.
  intros Hp Hc.
  pose proof (holders_delete sel k cs p c Hp) as H.
  pose proof (holders_nonneg sel k (delete p cs)).
  unfold holds in H. rewrite bool_decide_true in H by exact Hc. lia.
Qed.

Lemma ref_count_down_holds k o (m : gmap positive positive) :
  (∀ k0, o = Some k0 → 1 ≤ ref_count k0 m) →
  ref_count k (match o with Some k0 => ref_down k0 m | None => m end) =
  ref_count k m - holds o k.
Proof.
  intros Hlive. unfold holds. destruct o as [k0|].
  - rewrite ref_count_down by auto.
    repeat case_bool_decide; simplify_eq; lia.
  - rewrite bool_decide_false by discriminate. lia.
Qed.

Lemma ref_count_up_holds k k0 (m : gmap positive positive) :
  ref_count k (ref_up k0 m) = ref_count k m + holds (Some k0) k.
Proof.
  rewrite ref_count_up. unfold holds. repeat case_bool_decide; simplify_eq; lia.
Qed.

(** What one call of [dsa_signverify_init] does to the counts. *)
Lemma dsa_signverify_init_refs o vdsa op ctx r :
  (∀ k0, dsa ctx = Some k0 → 1 ≤ ref_count k0 (dsa_refs r)) →
  let res := dsa_signverify_init o vdsa op ctx r in
  md (snd (fst res)) = md ctx ∧ md_refs (snd res) = md_refs r ∧
  ∀ k, ref_count k (dsa_refs (snd res)) - holds (dsa (snd (fst res))) k =
       ref_count k (dsa_refs r) - holds (dsa ctx) k.
Proof.
  intros Hlive. unfold dsa_signverify_init.
  destruct vdsa as [k0|]; simpl; [|auto].
  destruct (negb (ossl_prov_is_running o) || negb (DSA_up_ref_ok o)); simpl; [auto|].
  assert (Hk : ∀ k, ref_count k (dsa_refs (DSA_free (dsa ctx) (DSA_up_ref k0 r)))
                    - holds (Some k0) k = ref_count k (dsa_refs r) - holds (dsa ctx) k).
  { intros k.
    replace (dsa_refs (DSA_free (dsa ctx) (DSA_up_ref k0 r)))
      with (match dsa ctx with Some k1 => ref_down k1 (ref_up k0 (dsa_refs r))
                          | None => ref_up k0 (dsa_refs r) end)
      by (destruct (dsa ctx); reflexivity).
    rewrite ref_count_down_holds.
    - rewrite ref_count_up_holds. lia.
    - intros k1 Hk1. rewrite ref_count_up_holds.
      specialize (Hlive k1 Hk1). unfold holds. case_bool_decide; lia. }
  destruct (negb (ossl_dsa_check_key k0 _)); simpl; repeat split; auto;
    destruct (dsa ctx); reflexivity.
Qed.

(** What one call of [dsa_setup_md] does to the counts. *)
Lemma dsa_setup_md_refs self mdname' mdprops ctx r :
  (∀ m0, md ctx = Some m0 → 1 ≤ ref_count m0 (md_refs r)) →
  let res := dsa_setup_md self mdname' mdprops ctx r in
  dsa (snd (fst res)) = dsa ctx ∧ dsa_refs (snd res) = dsa_refs r ∧
  ∀ k, ref_count k (md_refs (snd res)) - holds (md (snd (fst res))) k =
       ref_count k (md_refs r) - holds (md ctx) k.
Proof.
  intros Hlive. unfold dsa_setup_md.
  destruct mdname' as [name|]; simpl; [|auto].
  destruct (EVP_MD_fetch (libctx ctx) name _) as [m|]; simpl.
  - destruct (ossl_digest_get_approved_nid_with_sha1 (Some m) _ =? NID_undef); simpl.
    + destruct (OSSL_MAX_NAME_SIZE <=? String.length name)%nat; simpl;
        rewrite ref_down_up; auto.
    + assert (Hk : ∀ k,
        ref_count k (md_refs (EVP_MD_free (md ctx)
                       (EVP_MD_CTX_free (mdctx ctx) (EVP_MD_up_ref m r))))
        - holds (Some m) k = ref_count k (md_refs r) - holds (md ctx) k).
      { intros k.
        replace (md_refs (EVP_MD_free (md ctx)
                   (EVP_MD_CTX_free (mdctx ctx) (EVP_MD_up_ref m r))))
          with (match md ctx with Some k1 => ref_down k1 (ref_up m (md_refs r))
                             | None => ref_up m (md_refs r) end)
          by (destruct (md ctx), (mdctx ctx); reflexivity).
        rewrite ref_count_down_holds.
        - rewrite ref_count_up_holds. lia.
        - intros k1 Hk1. rewrite ref_count_up_holds.
          specialize (Hlive k1 Hk1). unfold holds. case_bool_decide; lia. }
      destruct (ossl_DER_w_algorithmIdentifier_DSA_with_MD _ _ _) as [buf [[? ?]|]];
        simpl; repeat split; auto; destruct (md ctx), (mdctx ctx); reflexivity.
  - destruct (ossl_digest_get_approved_nid_with_sha1 None _ =? NID_undef),
      (OSSL_MAX_NAME_SIZE <=? String.length name)%nat; simpl; auto.
Qed.

Lemma refs_after_free m mc r :
  EVP_MD_free m (EVP_MD_CTX_free mc r) =
  mkres (dsa_refs r)
        (match m with Some k1 => ref_down k1 (md_refs r) | None => md_refs r end)
        (live_mdctx r - match mc with Some _ => 1 | None => 0 end) (err_queue r).
Proof. destruct r, m, mc; simpl; f_equal; lia. Qed.

(** What one call of a stream init does to the counts. *)
Lemma dsa_digest_signverify_init_refs o self mdname' vdsa op ctx r :
  (∀ k0, dsa ctx = Some k0 → 1 ≤ ref_count k0 (dsa_refs r)) →
  (∀ m0, md ctx = Some m0 → 1 ≤ ref_count m0 (md_refs r)) →
  let res := dsa_digest_signverify_init o self mdname' vdsa op ctx r in
  ∀ k, ref_count k (dsa_refs (snd res)) - holds (dsa (snd (fst res))) k =
       ref_count k (dsa_refs r) - holds (dsa ctx) k ∧
       ref_count k (md_refs (snd res)) - holds (md (snd (fst res))) k =
       ref_count k (md_refs r) - holds (md ctx) k.
Proof.
  intros Hd Hm. unfold dsa_digest_signverify_init.
  destruct (ossl_prov_is_running o); simpl; [|auto].
  destruct (dsa_signverify_init_refs o vdsa op (set_flag_allow_md false ctx) r Hd)
    as (Hm1 & Hmr1 & Hd1).
  destruct (dsa_signverify_init o vdsa op (set_flag_allow_md false ctx) r)
    as [[ok1 c1] r1]. simpl in Hm1, Hmr1, Hd1.
  destruct (ok1 =? 0); simpl.
  { intros k. rewrite Hm1, Hmr1. auto. }
  destruct (dsa_setup_md_refs self mdname' None c1 r1) as (Hd2 & Hdr2 & Hm2).
  { intros m0 H0. rewrite Hmr1. apply Hm. congruence. }
  destruct (dsa_setup_md self mdname' None c1 r1) as [[ok2 c2] r2].
  simpl in Hd2, Hdr2, Hm2.
  assert (Hboth : ∀ k,
    ref_count k (dsa_refs r2) - holds (dsa c2) k = ref_count k (dsa_refs r) - holds (dsa ctx) k ∧
    ref_count k (md_refs r2) - holds (md c2) k = ref_count k (md_refs r) - holds (md ctx) k).
  { intros k. rewrite Hd2, Hdr2, Hm2, Hm1, Hmr1. auto. }
  assert (Hlive2 : ∀ m0, md c2 = Some m0 → 1 ≤ ref_count m0 (md_refs r2)).
  { intros m0 H0. destruct (Hboth m0) as [_ Hb].
    pose proof (ref_count_nonneg m0 (md_refs r)) as Hnn.
    unfold holds in Hb. rewrite (bool_decide_true _ H0) in Hb.
    case_bool_decide as Hold; [specialize (Hm m0 Hold)|]; lia. }
  assert (Hfree : ∀ k mc rr,
    md_refs rr = md_refs r2 → dsa_refs rr = dsa_refs r2 →
    ref_count k (dsa_refs (EVP_MD_free (md c2) (EVP_MD_CTX_free mc rr))) - holds (dsa c2) k =
    ref_count k (dsa_refs r) - holds (dsa ctx) k ∧
    ref_count k (md_refs (EVP_MD_free (md c2) (EVP_MD_CTX_free mc rr))) - holds None k =
    ref_count k (md_refs r) - holds (md ctx) k).
  { intros k mc rr Hmr Hdr. destruct (Hboth k) as [Hbd Hbm].
    rewrite refs_after_free. simpl. rewrite Hmr, Hdr.
    rewrite ref_count_down_holds by exact Hlive2.
    change (holds None k) with 0. split; lia. }
  destruct (ok2 =? 0); simpl; [exact Hboth|].
  destruct (EVP_MD_CTX_new_ok o); simpl.
  - destruct (EVP_DigestInit_ex EVP_MD_CTX_new (md c2) =? 0); simpl.
    + intros k.
      exact (Hfree k (Some (MD_init (md c2) :: EVP_MD_CTX_new))
               (EVP_MD_CTX_allocated r2) eq_refl eq_refl).
    + exact Hboth.
  - intros k. exact (Hfree k None r2 eq_refl eq_refl).
Qed.

(** Every call of the table conserves, for each key and each digest, its
    reference count less 1 if the context holds it. *)
Lemma call_conserves_refs o self f ctx r :
  (∀ k0, dsa ctx = Some k0 → 1 ≤ ref_count k0 (dsa_refs r)) →
  (∀ m0, md ctx = Some m0 → 1 ≤ ref_count m0 (md_refs r)) →
  let res := ossl_dsa_signature_functions o self f ctx r in
  ∀ k, ref_count k (dsa_refs (snd res)) - holds (dsa (snd (fst res))) k =
       ref_count k (dsa_refs r) - holds (dsa ctx) k ∧
       ref_count k (md_refs (snd res)) - holds (md (snd (fst res))) k =
       ref_count k (md_refs r) - holds (md ctx) k.
Proof.
  intros Hd Hm.
  destruct f as [vdsa|sig sigsize tbs|vdsa|sig tbs|mdn vdsa|data|sig sigsize
                |mdn vdsa|data|sig|params|params|params]; simpl.
  - unfold dsa_sign_init.
    destruct (dsa_signverify_init_refs o vdsa EVP_PKEY_OP_SIGN ctx r Hd) as (H1 & H2 & H3).
    destruct (dsa_signverify_init o vdsa EVP_PKEY_OP_SIGN ctx r) as [[z c] r'].
    simpl in *. intros k. rewrite H1, H2. auto.
  - auto.
  - unfold dsa_verify_init.
    destruct (dsa_signverify_init_refs o vdsa EVP_PKEY_OP_VERIFY ctx r Hd) as (H1 & H2 & H3).
    destruct (dsa_signverify_init o vdsa EVP_PKEY_OP_VERIFY ctx r) as [[z c] r'].
    simpl in *. intros k. rewrite H1, H2. auto.
  - auto.
  - unfold dsa_digest_sign_init.
    pose proof (dsa_digest_signverify_init_refs o self mdn vdsa EVP_PKEY_OP_SIGN ctx r Hd Hm) as H.
    destruct (dsa_digest_signverify_init o self mdn vdsa EVP_PKEY_OP_SIGN ctx r)
      as [[z c] r']. exact H.
  - unfold dsa_digest_signverify_update. destruct (mdctx ctx); simpl; auto.
  - unfold dsa_digest_sign_final. repeat case_inner; simpl; auto.
  - unfold dsa_digest_verify_init.
    pose proof (dsa_digest_signverify_init_refs o self mdn vdsa EVP_PKEY_OP_VERIFY ctx r Hd Hm) as H.
    destruct (dsa_digest_signverify_init o self mdn vdsa EVP_PKEY_OP_VERIFY ctx r)
      as [[z c] r']. exact H.
  - unfold dsa_digest_signverify_update. destruct (mdctx ctx); simpl; auto.
  - unfold dsa_digest_verify_final. repeat case_inner; simpl; auto.
  - assert (Hs : ∀ n p, let res := dsa_setup_md self n p ctx r in
      ∀ k, ref_count k (dsa_refs (snd res)) - holds (dsa (snd (fst res))) k =
           ref_count k (dsa_refs r) - holds (dsa ctx) k ∧
           ref_count k (md_refs (snd res)) - holds (md (snd (fst res))) k =
           ref_count k (md_refs r) - holds (md ctx) k).
    { intros n p. destruct (dsa_setup_md_refs self n p ctx r Hm) as (H1 & H2 & H3).
      intros res k. subst res. rewrite H1, H2. auto. }
    unfold dsa_set_ctx_params. revert Hs. generalize (dsa_setup_md self).
    intros setup Hs.
    destruct params as [params|]; simpl; [|auto].
    destruct (OSSL_PARAM_locate params OSSL_SIGNATURE_PARAM_DIGEST); simpl; [|auto].
    destruct (flag_allow_md ctx); simpl; [|auto].
    destruct (OSSL_PARAM_get_utf8_string _ OSSL_MAX_NAME_SIZE) as [name|]; simpl; [|auto].
    destruct (OSSL_PARAM_locate params OSSL_SIGNATURE_PARAM_PROPERTIES) as [pp|].
    + destruct (OSSL_PARAM_get_utf8_string pp OSSL_MAX_PROPQUERY_SIZE) as [props|];
        simpl; [|auto].
      specialize (Hs (Some name) (Some props)).
      destruct (setup (Some name) (Some props) ctx r) as [[z c] r']. exact Hs.
    + specialize (Hs (Some name) (Some EmptyString)).
      destruct (setup (Some name) (Some EmptyString) ctx r) as [[z c] r']. exact Hs.
  - unfold dsa_get_ctx_md_params. repeat case_inner; simpl; auto.
  - unfold dsa_set_ctx_md_params. destruct (mdctx ctx); simpl; auto.
Qed.

Lemma counted_live w p c :
  counted w → ctxs w !! p = Some c →
  (∀ k0, dsa c = Some k0 → 1 ≤ ref_count k0 (dsa_refs (res w))) ∧
  (∀ m0, md c = Some m0 → 1 ≤ ref_count m0 (md_refs (res w))).
Proof.
  intros Hw Hp. split; intros k Hk; destruct (Hw k) as [Hd Hm].
  - pose proof (holders_ge dsa k (ctxs w) p c Hp Hk). lia.
  - pose proof (holders_ge md k (ctxs w) p c Hp Hk). lia.
Qed.

(** One call of the interface conserves, for each key and each digest, the
    reference count less the number of contexts that hold it. *)
Lemma step_conserves_refs w w' :
  counted w → step w w' →
  ∀ k, ref_count k (dsa_refs (res w')) - holders dsa k (ctxs w') =
       ref_count k (dsa_refs (res w)) - holders dsa k (ctxs w) ∧
       ref_count k (md_refs (res w')) - holders md k (ctxs w') =
       ref_count k (md_refs (res w)) - holders md k (ctxs w).
Proof.
  intros Hw Hstep.
  destruct Hstep as [o provctx propq' w|p0 w w' Hfree|o p0 w d w' Hdup|o p0 f w a w' Hinv].
  - intros k. unfold dsa_newctx. destruct w as [cs r].
    repeat case_inner; simpl; auto;
      rewrite !holders_insert_fresh by (apply not_elem_of_dom, is_fresh);
      unfold holds; simpl; split; lia.
  - unfold free_context in Hfree.
    destruct (ctxs w !! p0) as [c|] eqn:Hp; simpl in Hfree; [|discriminate].
    injection Hfree as <-. simpl. intros k.
    destruct (counted_live w p0 c Hw Hp) as [Hd Hm].
    rewrite !(holders_delete _ k (ctxs w) p0 c Hp).
    unfold dsa_freectx.
    replace (dsa_refs (DSA_free (dsa c) (EVP_MD_free (md c) (EVP_MD_CTX_free (mdctx c) (res w)))))
      with (match dsa c with Some k1 => ref_down k1 (dsa_refs (res w)) | None => dsa_refs (res w) end)
      by (destruct (dsa c), (md c), (mdctx c); reflexivity).
    replace (md_refs (DSA_free (dsa c) (EVP_MD_free (md c) (EVP_MD_CTX_free (mdctx c) (res w)))))
      with (match md c with Some k1 => ref_down k1 (md_refs (res w)) | None => md_refs (res w) end)
      by (destruct (dsa c), (md c), (mdctx c); reflexivity).
    rewrite !ref_count_down_holds by assumption. split; lia.
  - destruct d as [d|].
    + apply dsa_dupctx_success in Hdup.
      destruct Hdup as (src & Hsrc & Hfresh & -> & -> & -> & _).
      intros k. rewrite !holders_insert_fresh by exact Hfresh.
      split.
      * destruct (dsa src) as [k0|]; [rewrite ref_count_up_holds; lia|].
        unfold holds. simpl. lia.
      * destruct (md src) as [k0|]; [rewrite ref_count_up_holds; lia|].
        unfold holds. simpl. lia.
    + apply dsa_dupctx_failure_atomic in Hdup. now subst.
  - unfold invoke in Hinv.
    destruct (ctxs w !! p0) as [ctx|] eqn:Hp; simpl in Hinv; [|discriminate].
    destruct (counted_live w p0 ctx Hw Hp) as [Hd Hm].
    pose proof (call_conserves_refs o p0 f ctx (res w) Hd Hm) as Hc.
    destruct (ossl_dsa_signature_functions o p0 f ctx (res w)) as [[a' ctx'] r'].
    injection Hinv as <- <-. simpl in *. intros k.
    rewrite !(holders_insert _ k (ctxs w) p0 ctx ctx' Hp).
    destruct (Hc k). split; lia.
Qed.

Lemma step_keeps_counted w w' : counted w → step w w' → counted w'.
Proof.
  intros Hw Hstep k. destruct (Hw k) as [Hd Hm].
  destruct (step_conserves_refs w w' Hw Hstep k) as [Hcd Hcm]. split; lia.
Qed.

Lemma counted_no_context cs r : cs = ∅ → counted (mkworld cs r).
Proof.
  intros -> k. simpl. rewrite !holders_empty.
  split; apply ref_count_nonneg.
Qed.

Lemma ref_count_ext (m m' : gmap positive positive) :
  (∀ k, ref_count k m = ref_count k m') → m = m'.
Proof.
  intros H. apply map_eq. intros k. specialize (H k). unfold ref_count in H.
  destruct (m !! k), (m' !! k); try reflexivity; try lia. f_equal. lia.
Qed.

(** X15. No reference is lost or given back twice.  Along any sequence of
    calls of the interface, starting in a world where each key and digest
    has at least one reference per context holding it, the reference count
    of each key and digest less the number of contexts holding it stays the
    same.  So once every context is freed, starting from no context, the
    counts of keys and digests are exactly those at the start. *)
Theorem references_conserved w w' :
  counted w → rtc step w w' →
  counted w' ∧
  (∀ k, ref_count k (dsa_refs (res w')) - holders dsa k (ctxs w') =
        ref_count k (dsa_refs (res w)) - holders dsa k (ctxs w) ∧
        ref_count k (md_refs (res w')) - holders md k (ctxs w') =
        ref_count k (md_refs (res w)) - holders md k (ctxs w)) ∧
  (ctxs w = ∅ → ctxs w' = ∅ →
   dsa_refs (res w') = dsa_refs (res w) ∧ md_refs (res w') = md_refs (res w)).
Proof.
  intros Hw Hsteps.
  assert (H : counted w' ∧
    ∀ k, ref_count k (dsa_refs (res w')) - holders dsa k (ctxs w') =
         ref_count k (dsa_refs (res w)) - holders dsa k (ctxs w) ∧
         ref_count k (md_refs (res w')) - holders md k (ctxs w') =
         ref_count k (md_refs (res w)) - holders md k (ctxs w)).
  { induction Hsteps as [w|w w1 w2 Hstep Hrest IH]; [auto|].
    destruct (IH (step_keeps_counted w w1 Hw Hstep)) as [Hc Hk].
    split; [exact Hc|]. intros k.
    destruct (Hk k), (step_conserves_refs w w1 Hw Hstep k). split; lia. }
  destruct H as [Hc Hk]. split; [exact Hc|]. split; [exact Hk|].
  intros He He'. split; apply ref_count_ext; intros k; destruct (Hk k) as [Hd Hm];
    rewrite He, He', !holders_empty in *; lia.
Qed.

(** X16. No context is left with a dangling key or digest: in every
    reachable world each key and each digest has at least as many
    references as there are contexts holding it, so that the key and the
    digest of every context are live. *)
Theorem held_objects_are_live w :
  reachable w →
  counted w ∧
  ∀ p c, ctxs w !! p = Some c →
    (∀ k, dsa c = Some k → 1 ≤ ref_count k (dsa_refs (res w))) ∧
    (∀ m, md c = Some m → 1 ≤ ref_count m (md_refs (res w))).
Proof.
  intros Hreach.
  assert (Hc : counted w).
  { induction Hreach as [r|w w' Hreach IH Hstep].
    - now apply counted_no_context.
    - now apply step_keeps_counted with w. }
  split; [exact Hc|]. intros p c Hp. now apply counted_live with p.
Qed.

End References.

(** * The further properties on concrete runs *)

(** X1 on the sample instance: the first context is made at address 1. *)
Lemma newctx_fresh_or_nothing_witness :
  fst (dsa_newctx (E := Toy.externals) Toy.fine 0 None Toy.world0) = Some 1%positive ∧
  ctxs Toy.world0 !! 1%positive = None ∧
  res Toy.w1 = res Toy.world0.
Proof.
  split; [reflexivity|].
  destruct (newctx_fresh_or_nothing (E := Toy.externals) Toy.fine 0 None Toy.world0)
    as (_ & _ & Hsome).
  destruct (Hsome 1%positive eq_refl) as (Hfresh & Hres & _). auto.
Defined.

(** X2 on the sample instance: a context that holds the key is initialised
    again with that key. *)
Lemma signverify_init_key_swap_witness :
  ref_count Toy.key (dsa_refs (res Toy.world0)) = 1 ∧
  dsa_refs (snd (dsa_signverify_init (E := Toy.externals) Toy.fine (Some Toy.key)
                   EVP_PKEY_OP_SIGN Toy.ctx_verify (res Toy.world0)))
  = dsa_refs (res Toy.world0).
Proof.
  split; [reflexivity|].
  destruct (signverify_init_key_swap (E := Toy.externals) Toy.fine (Some Toy.key)
              EVP_PKEY_OP_SIGN Toy.ctx_verify (res Toy.world0)) as [_ Hswap].
  - intros k0 Hk0. injection Hk0 as <-. vm_compute. discriminate.
  - destruct (Hswap Toy.key eq_refl eq_refl eq_refl) as (_ & _ & Hsame & _).
    apply Hsame. reflexivity.
Defined.

(** X3 on the sample instance: a digest the instance does not know. *)
Lemma failed_bind_changes_nothing_witness :
  fst (fst (dsa_setup_md (E := Toy.externals) 1%positive (Some "MD5"%string) None
              Toy.ctx_sha256 (res Toy.world0))) = 0 ∧
  snd (fst (dsa_setup_md (E := Toy.externals) 1%positive (Some "MD5"%string) None
              Toy.ctx_sha256 (res Toy.world0))) = Toy.ctx_sha256.
Proof.
  split; [reflexivity|].
  destruct (failed_bind_changes_nothing (E := Toy.externals) 1%positive
              (Some "MD5"%string) None None Toy.ctx_sha256 (res Toy.world0))
    as [Hsetup _].
  destruct (Hsetup eq_refl) as [Hctx _]. exact Hctx.
Defined.

(** X4 on the sample instance: the digest name of the context left by the
    streaming signature. *)
Lemma mdname_fits_buffer_witness :
  (0 < OSSL_MAX_NAME_SIZE (Externals := Toy.externals))%nat ∧
  (String.length (mdname Toy.ctx_after_final)
   < OSSL_MAX_NAME_SIZE (Externals := Toy.externals))%nat.
Proof.
  assert (Hsize : (0 < OSSL_MAX_NAME_SIZE (Externals := Toy.externals))%nat)
    by (vm_compute; lia).
  split; [exact Hsize|].
  apply (mdname_fits_buffer (E := Toy.externals) Toy.w4 Hsize toy_w4_reachable 1%positive).
  vm_compute. reflexivity.
Defined.

(** X6 on the sample instance: freeing the duplicate at address 2. *)
Lemma create_then_free_is_identity_witness :
  dsa_dupctx Toy.fine 1%positive Toy.v3 = Some (Some 2%positive, Toy.v4) ∧
  free_context 2%positive Toy.v4 = Some Toy.v3.
Proof.
  assert (Hdup : dsa_dupctx Toy.fine 1%positive Toy.v3 = Some (Some 2%positive, Toy.v4))
    by (vm_compute; reflexivity).
  split; [exact Hdup|].
  destruct (create_then_free_is_identity (E := Toy.externals)) as [Hd _].
  apply (Hd _ _ _ _ _ Hdup).
Defined.

(** X7 on the sample instance: an update on a context with no stream. *)
Lemma stream_calls_need_stream_witness :
  mdctx Toy.ctx_sha256 = None ∧
  ret (fst (fst (ossl_dsa_signature_functions (E := Toy.externals) Toy.fine 1%positive
                   (SIGNATURE_DIGEST_SIGN_UPDATE Toy.abc) Toy.ctx_sha256
                   (res Toy.world0)))) = 0.
Proof.
  split; [reflexivity|].
  apply (stream_calls_need_stream (E := Toy.externals) Toy.fine 1%positive
           (SIGNATURE_DIGEST_SIGN_UPDATE Toy.abc) Toy.ctx_sha256 (res Toy.world0)
           eq_refl eq_refl).
Defined.

(** X8 on the sample instance: a stream init for a digest the instance does
    not know, on a new context. *)
Lemma stream_init_locks_even_when_it_fails_witness :
  let out := dsa_digest_signverify_init (E := Toy.externals) Toy.fine 1%positive
               (Some "MD5"%string) (Some Toy.key) EVP_PKEY_OP_SIGN Toy.ctx_new
               (res Toy.world0) in
  fst (fst out) = 0 ∧ flag_allow_md Toy.ctx_new = true ∧
  flag_allow_md (snd (fst out)) = false.
Proof.
  intros out. split; [reflexivity|]. split; [reflexivity|].
  apply (stream_init_locks_even_when_it_fails (E := Toy.externals) Toy.fine 1%positive
           (Some "MD5"%string) (Some Toy.key) EVP_PKEY_OP_SIGN Toy.ctx_new
           (res Toy.world0) eq_refl).
Defined.

(** X9 on the sample instance: a stream init without a digest name on a
    context in the middle of a streaming signature. *)
Lemma stream_init_stream_count_witness :
  let out := dsa_digest_signverify_init (E := Toy.externals) Toy.fine 1%positive
               None (Some Toy.key) EVP_PKEY_OP_SIGN Toy.ctx_accumulating
               (res Toy.w3) in
  fst (fst out) = 1 ∧ is_Some (mdctx Toy.ctx_accumulating) ∧
  live_mdctx (snd out) = live_mdctx (res Toy.w3) + 1 - 0.
Proof.
  intros out. split; [reflexivity|]. split; [eexists; reflexivity|].
  apply (stream_init_stream_count (E := Toy.externals) Toy.fine 1%positive
           None (Some Toy.key) EVP_PKEY_OP_SIGN Toy.ctx_accumulating
           (res Toy.w3) eq_refl).
Defined.

(** X10 on the sample instance: "abc" signed and verified under SHA-256. *)
Lemma streaming_round_trip_witness :
  let cs := snd (fst (dsa_digest_sign_init (E := Toy.externals) Toy.fine 1%positive
                        (Some "SHA256"%string) (Some Toy.key) Toy.ctx_new
                        (res Toy.world0))) in
  let cv := snd (fst (dsa_digest_verify_init (E := Toy.externals) Toy.fine 2%positive
                        (Some "SHA256"%string) (Some Toy.key) Toy.ctx_new
                        (res Toy.world0))) in
  let sig := Toy.abc ++ repeat x00 29 in
  fst (dsa_digest_sign_final (E := Toy.externals) Toy.fine true 48 (feed (E := Toy.externals) [Toy.abc] cs)) =
    (1, Some sig, Some 32) ∧
  fst (dsa_digest_verify_final (E := Toy.externals) Toy.fine sig (feed (E := Toy.externals) [Toy.abc] cv)) = 1.
Proof.
  intros cs cv sig.
  apply (streaming_round_trip (E := Toy.externals) Toy.fine Toy.fine Toy.fine Toy.fine
           1%positive 2%positive (Some "SHA256"%string) (Some "SHA256"%string) Toy.key
           Toy.ctx_new (res Toy.world0) Toy.ctx_new (res Toy.world0)
           cs (snd (dsa_digest_sign_init (E := Toy.externals) Toy.fine 1%positive
                      (Some "SHA256"%string) (Some Toy.key) Toy.ctx_new (res Toy.world0)))
           cv (snd (dsa_digest_verify_init (E := Toy.externals) Toy.fine 2%positive
                      (Some "SHA256"%string) (Some Toy.key) Toy.ctx_new (res Toy.world0)))
           [Toy.abc] 48).
  - vm_compute. reflexivity.
  - vm_compute. reflexivity.
  - reflexivity.
  - exact toy_key_valid.
  - reflexivity.
  - reflexivity.
  - vm_compute. discriminate.
  - right. reflexivity.
  - vm_compute. discriminate.
Defined.

(** X11 on the sample instance: the identifier, a bind of SHA-512, the
    identifier again and a size query, asked of the duplicate at address 2
    and of the source at address 1. *)
Lemma duplicate_answers_like_source_witness :
  let qs := [(Toy.fine, SIGNATURE_GET_CTX_PARAMS (Some [Toy.aid_param]));
             (Toy.fine, ON_CONTEXT (SIGNATURE_SET_CTX_PARAMS (Some [Toy.digest_param "SHA512"])));
             (Toy.fine, SIGNATURE_GET_CTX_PARAMS (Some [Toy.aid_param]));
             (Toy.fine, ON_CONTEXT (SIGNATURE_SIGN false 0 []))] in
  dsa_dupctx Toy.fine 1%positive Toy.v3 = Some (Some 2%positive, Toy.v4) ∧
  serve_all (E := Toy.externals) 2%positive qs Toy.v4 =
  serve_all (E := Toy.externals) 1%positive qs Toy.v4 ∧
  serve_all (E := Toy.externals) 2%positive qs Toy.v4 =
    Some [mkreply 1 None None (Some [Toy.aid_reported [x30; x09; x02]]);
          mkreply 1 None None None;
          mkreply 1 None None (Some [Toy.aid_reported [x30; x09; x03]]);
          mkreply 1 None (Some 48) None].
Proof.
  intros qs.
  assert (Hdup : dsa_dupctx Toy.fine 1%positive Toy.v3 = Some (Some 2%positive, Toy.v4))
    by (vm_compute; reflexivity).
  split; [exact Hdup|]. split.
  - apply (duplicate_answers_like_source (E := Toy.externals) Toy.fine 1%positive Toy.v3
             2%positive Toy.v4 qs Hdup).
  - vm_compute. reflexivity.
Defined.

(** X12 on the sample instance: the identifier asked of the duplicate. *)
Lemma get_ctx_params_in_place_witness :
  dsa_get_ctx_params (E := Toy.externals) 2%positive (Some [Toy.aid_param]) Toy.v4 =
    Some (1, Some [Toy.aid_reported [x30; x09; x02]]) ∧
  map key [Toy.aid_reported [x30; x09; x02]] = map key [Toy.aid_param].
Proof.
  assert (Hget : dsa_get_ctx_params (E := Toy.externals) 2%positive
                   (Some [Toy.aid_param]) Toy.v4 =
                 Some (1, Some [Toy.aid_reported [x30; x09; x02]]))
    by (vm_compute; reflexivity).
  split; [exact Hget|].
  destruct (get_ctx_params_in_place (E := Toy.externals) _ _ _ _ _ Hget)
    as (_ & params' & Hout & Hkeys & _).
  injection Hout as <-. exact Hkeys.
Defined.

Lemma toy_sha256_request :
  digest_request (E := Toy.externals) [Toy.digest_param "SHA256"] "SHA256" "".
Proof. eexists. repeat split; reflexivity. Qed.

(** X13 on the sample instance: SHA-256 requested, then read back. *)
Lemma digest_name_set_then_get_witness :
  let out := dsa_set_ctx_params (E := Toy.externals) 1%positive
               (Some [Toy.digest_param "SHA256"]) Toy.ctx_verify (res Toy.world0) in
  fst (fst out) = 1 ∧ mdname (snd (fst out)) = "SHA256"%string.
Proof.
  intros out. split; [reflexivity|].
  destruct (digest_name_set_then_get (E := Toy.externals) 1%positive
              [Toy.digest_param "SHA256"] "SHA256" "" Toy.ctx_verify
              (res Toy.world0) (snd (fst out)) (snd out))
    as (_ & Hname & _).
  - vm_compute. reflexivity.
  - exact toy_sha256_request.
  - apply Hname. vm_compute. lia.
Defined.

(** X14 on the sample instance: the three bytes written for SHA-256. *)
Lemma algorithm_id_set_then_get_witness :
  let ctx' := snd (fst (dsa_setup_md (E := Toy.externals) 1%positive
                          (Some "SHA256"%string) None Toy.ctx_verify (res Toy.world0))) in
  aid_buf ctx' = [x00; x00; x00; x00; x00; x30; x09; x02] ∧ aid_len ctx' = 3%nat.
Proof.
  intros ctx'.
  destruct (algorithm_id_set_then_get (E := Toy.externals) 1%positive "SHA256" None
              Toy.ctx_verify (res Toy.world0) Toy.sha256
              [x00; x00; x00; x00; x00; x30; x09; x02] 5%nat 3%nat)
    as (_ & Hbuf & Hlen & _).
  - reflexivity.
  - vm_compute. discriminate.
  - reflexivity.
  - split; assumption.
Defined.

Lemma toy_w4_steps : rtc (step (E := Toy.externals)) Toy.world0 Toy.w4.
Proof.
  eapply rtc_l; [apply (step_newctx (E := Toy.externals) Toy.fine 0 None Toy.world0)|].
  eapply rtc_l.
  { eapply (step_invoke (E := Toy.externals) Toy.fine 1%positive
              (SIGNATURE_DIGEST_SIGN_INIT (Some "SHA256"%string) (Some Toy.key))
              Toy.w1 _ Toy.w2).
    vm_compute. reflexivity. }
  eapply rtc_l.
  { eapply (step_invoke (E := Toy.externals) Toy.fine 1%positive
              (SIGNATURE_DIGEST_SIGN_UPDATE Toy.abc) Toy.w2 _ Toy.w3).
    vm_compute. reflexivity. }
  eapply rtc_l; [|apply rtc_refl].
  eapply (step_invoke (E := Toy.externals) Toy.fine 1%positive
            (SIGNATURE_DIGEST_SIGN_FINAL true 48) Toy.w3 _ Toy.w4).
  vm_compute. reflexivity.
Qed.

(** X15 on the sample instance: the key over the streaming signature. *)
Lemma references_conserved_witness :
  counted Toy.world0 ∧
  ref_count Toy.key (dsa_refs (res Toy.w4)) - holders dsa Toy.key (ctxs Toy.w4) =
  ref_count Toy.key (dsa_refs (res Toy.world0)) - holders dsa Toy.key (ctxs Toy.world0).
Proof.
  assert (Hc : counted Toy.world0) by (now apply counted_no_context).
  split; [exact Hc|].
  destruct (references_conserved (E := Toy.externals) Toy.world0 Toy.w4 Hc toy_w4_steps)
    as (_ & Hk & _).
  apply Hk.
Defined.

(** X16 on the sample instance: the key and digest of the context left by
    the streaming signature. *)
Lemma held_objects_are_live_witness :
  1 ≤ ref_count Toy.key (dsa_refs (res Toy.w4)) ∧
  1 ≤ ref_count Toy.sha256 (md_refs (res Toy.w4)).
Proof.
  destruct (held_objects_are_live (E := Toy.externals) Toy.w4 toy_w4_reachable)
    as [_ Hlive].
  destruct (Hlive 1%positive Toy.ctx_after_final) as [Hd Hm].
  - vm_compute. reflexivity.
  - split; [apply Hd|apply Hm]; reflexivity.
Defined.
